(** * DIACC PCTF: trust registry engine and framework orchestrator

    A shallow embedding of the trust registry provider
    ([TrustRegistryProvider], PCTF13) and of the framework orchestrator
    ([PCTFFramework]) of the DIACC PCTF implementation, with the
    properties of their scoring, verification, sweep, dispatch and
    conformance-aggregation logic, and of the digital wallet
    ([DigitalWalletProvider], PCTF12) with the properties of its lock,
    credential store, presentation and activity log.

    Conventions of the embedding:
    - a JavaScript [Date] is its [getTime()] value, a [Z] of milliseconds
      since the epoch; the integer arithmetic of the scoring function is
      exact on these values, and [Math.floor] of a quotient is [Z.div];
    - every [new Date()] and [Date.now()] is one reading of the system
      clock; the clock is a sequence of readings and each computation
      threads the index of the next reading (monad [M]);
    - [console.log] output is not modelled, but the clock reading that
      [logActivity] makes for the line's time stamp is;
    - a JavaScript [Map] that is iterated is an association list in
      insertion order ([JsMap]); maps that are only read and written by
      key are [gmap]s;
    - objects held in a map are values of the map: [entry.status = s] on
      an entry obtained with [get] is a [JsMap.set] at the entry's key;
      what a caller does to an object through a reference it kept is
      outside the model;
    - the operations are typed as in the TypeScript source, so nothing
      in them throws and the [catch] branches are never taken; [await]
      on the provider's own methods is sequential composition. *)

From Stdlib Require Import ZArith Lia.
From stdpp Require Import gmap strings list pretty.

Open Scope Z_scope.

(** ** The clock monad *)

Definition Date := Z.
Definition Clock := nat -> Date.

Definition M (A : Type) : Type := nat -> A * nat.

Definition ret {A : Type} (a : A) : M A := fun k => (a, k).

Definition bind {A B : Type} (m : M A) (f : A -> M B) : M B :=
  fun k => let (a, k') := m k in f a k'.

Notation "x <- c1 ;; c2" := (bind c1 (fun x => c2))
  (at level 90, c1 at next level, right associativity).
Notation "c1 ;;; c2" := (bind c1 (fun _ => c2))
  (at level 90, right associativity).

(** [new Date()] / [Date.now()]: the next reading of the clock. *)
Definition newDate (clock : Clock) : M Date := fun k => (clock k, S k).

Fixpoint filterM {A : Type} (p : A -> M bool) (l : list A) : M (list A) :=
  match l with
  | [] => ret []
  | x :: l' =>
      b <- p x ;;
      r <- filterM p l' ;;
      ret (if b then x :: r else r)
  end.

Fixpoint mapM {A B : Type} (f : A -> M B) (l : list A) : M (list B) :=
  match l with
  | [] => ret []
  | x :: l' =>
      y <- f x ;;
      r <- mapM f l' ;;
      ret (y :: r)
  end.

(** A JavaScript string is truthy when it is not empty. *)
Definition truthy (s : string) : bool := negb (String.eqb s "").

(** ** JavaScript [Map] with string keys, in insertion order *)

Module JsMap.
Section Defs.
Context {V : Type}.

Fixpoint get (m : list (string * V)) (k : string) : option V :=
  match m with
  | [] => None
  | (k', v) :: m' => if String.eqb k' k then Some v else get m' k
  end.

Definition has (m : list (string * V)) (k : string) : bool :=
  match get m k with Some _ => true | None => false end.

(** [set] keeps the position of a key that is present and appends a
    new key. *)
Fixpoint set (m : list (string * V)) (k : string) (v : V) : list (string * V) :=
  match m with
  | [] => [(k, v)]
  | (k', v') :: m' =>
      if String.eqb k' k then (k', v) :: m' else (k', v') :: set m' k v
  end.

Definition values (m : list (string * V)) : list V := map snd m.

Definition size (m : list (string * V)) : nat := length m.
End Defs.
End JsMap.

(** ** shared/types.ts *)

Module AssuranceLevel.
Inductive t := LOA1 | LOA2 | LOA3 | LOA4.
#[global] Instance AssuranceLevel_eq_dec : EqDecision t.
Proof. solve_decision. Defined.
End AssuranceLevel.

Module RiskLevel.
Inductive t := LOW | MEDIUM | HIGH | VERY_HIGH.
End RiskLevel.

Module ProcessStatus.
Inductive t := PENDING | IN_PROGRESS | COMPLETED | FAILED | SUSPENDED | REVOKED.
End ProcessStatus.

Module ParticipantType.
Inductive t :=
| CREDENTIAL_SERVICE_PROVIDER
| AUTHENTICATION_SERVICE_PROVIDER
| IDENTITY_PROVIDER
| VERIFIER
| ISSUER
| WALLET_PROVIDER
| TRUST_REGISTRY
| RELYING_PARTY.
#[global] Instance ParticipantType_eq_dec : EqDecision t.
Proof. solve_decision. Defined.
End ParticipantType.

Record ConformanceCriteria := {
  cc_id : string;
  cc_description : string;
  cc_assuranceLevel : AssuranceLevel.t;
  cc_riskLevel : RiskLevel.t;
  cc_isRequired : bool;
  cc_mitigationStrategies : list string
}.

(** [ProcessResult]; [data?: any] is an optional payload of the type [D]
    that the class returning the result uses. *)
Record ProcessResult (D : Type) := {
  success : bool;
  message : string;
  data : option D;
  errors : option (list string);
  timestamp : Date
}.
Arguments success {D} _.
Arguments message {D} _.
Arguments data {D} _.
Arguments errors {D} _.
Arguments timestamp {D} _.
Arguments Build_ProcessResult {D} _ _ _ _ _.

Record PCTFParticipant := {
  p_participantId : string;
  p_name : string;
  p_type : ParticipantType.t;
  p_certificationLevel : AssuranceLevel.t;
  p_isActive : bool;
  p_registrationDate : Date
}.

(** ** trust-registry/trust-registry-provider.ts: data model *)

Module TrustStatus.
Inductive t := TRUSTED | PROVISIONAL | SUSPENDED | REVOKED | UNKNOWN.
#[global] Instance TrustStatus_eq_dec : EqDecision t.
Proof. solve_decision. Defined.

(** The string value of the enum member, as a template literal prints it. *)
Definition toString (s : t) : string :=
  match s with
  | TRUSTED => "TRUSTED"
  | PROVISIONAL => "PROVISIONAL"
  | SUSPENDED => "SUSPENDED"
  | REVOKED => "REVOKED"
  | UNKNOWN => "UNKNOWN"
  end.
End TrustStatus.

(** [TrustCertification.status]: 'ACTIVE' | 'SUSPENDED' | 'EXPIRED' | 'REVOKED'. *)
Module CertStatus.
Inductive t := ACTIVE | SUSPENDED | EXPIRED | REVOKED.
#[global] Instance CertStatus_eq_dec : EqDecision t.
Proof. solve_decision. Defined.
End CertStatus.

Record TrustCertification := {
  tc_certificationId : string;
  tc_issuingAuthority : string;
  tc_certificationStandard : string;
  tc_issuanceDate : Date;
  tc_expirationDate : option Date;
  tc_scope : list string;
  tc_status : CertStatus.t
}.

Record Address := {
  street : string;
  city : string;
  province : string;
  postalCode : string;
  country : string
}.

Record TrustRegistryContactInfo := {
  organizationName : string;
  contactPerson : string;
  email : string;
  phone : option string;
  address : Address;
  website : option string
}.

Record PublicKeyInfo := {
  keyId : string;
  keyType : string;
  publicKey : string;
  usage : list string;
  pk_validFrom : Date;
  pk_validUntil : option Date;
  algorithm : string
}.

Record TrustRegistryEntry := {
  e_participantId : string;
  e_name : string;
  e_type : ParticipantType.t;
  e_status : TrustStatus.t;
  e_assuranceLevel : AssuranceLevel.t;
  e_certifications : list TrustCertification;
  e_registrationDate : Date;
  e_lastVerified : Date;
  e_expirationDate : option Date;
  e_trustScore : Z;
  e_governanceFramework : string;
  e_contactInformation : TrustRegistryContactInfo;
  e_publicKeys : list PublicKeyInfo
}.

(** Field assignments [entry.status = s], [entry.lastVerified = d] and
    [entry.trustScore = n]. *)
Definition set_status (e : TrustRegistryEntry) (s : TrustStatus.t) : TrustRegistryEntry :=
  {| e_participantId := e_participantId e; e_name := e_name e; e_type := e_type e;
     e_status := s;
     e_assuranceLevel := e_assuranceLevel e; e_certifications := e_certifications e;
     e_registrationDate := e_registrationDate e; e_lastVerified := e_lastVerified e;
     e_expirationDate := e_expirationDate e; e_trustScore := e_trustScore e;
     e_governanceFramework := e_governanceFramework e;
     e_contactInformation := e_contactInformation e; e_publicKeys := e_publicKeys e |}.

Definition set_lastVerified (e : TrustRegistryEntry) (d : Date) : TrustRegistryEntry :=
  {| e_participantId := e_participantId e; e_name := e_name e; e_type := e_type e;
     e_status := e_status e;
     e_assuranceLevel := e_assuranceLevel e; e_certifications := e_certifications e;
     e_registrationDate := e_registrationDate e; e_lastVerified := d;
     e_expirationDate := e_expirationDate e; e_trustScore := e_trustScore e;
     e_governanceFramework := e_governanceFramework e;
     e_contactInformation := e_contactInformation e; e_publicKeys := e_publicKeys e |}.

Definition set_trustScore (e : TrustRegistryEntry) (n : Z) : TrustRegistryEntry :=
  {| e_participantId := e_participantId e; e_name := e_name e; e_type := e_type e;
     e_status := e_status e;
     e_assuranceLevel := e_assuranceLevel e; e_certifications := e_certifications e;
     e_registrationDate := e_registrationDate e; e_lastVerified := e_lastVerified e;
     e_expirationDate := e_expirationDate e; e_trustScore := n;
     e_governanceFramework := e_governanceFramework e;
     e_contactInformation := e_contactInformation e; e_publicKeys := e_publicKeys e |}.

Record TrustVerificationRequest := {
  rq_participantId : string;
  rq_requestedBy : string;
  rq_verificationScope : list string;
  rq_requestDate : Date
}.

Record VerificationDetails := {
  criteriaChecked : list string;
  passed : list string;
  failed : list string;
  warnings : list string
}.

Record Validity := {
  validFrom : Date;
  validUntil : Date
}.

Record TrustVerificationResult := {
  vr_participantId : string;
  vr_trustStatus : TrustStatus.t;
  vr_trustScore : Z;
  vr_verificationDate : Date;
  vr_verificationDetails : VerificationDetails;
  vr_validity : Validity
}.

(** The [data] payloads of the registry's results. *)
Inductive RegistryData :=
| SweepData (registryId : string) (entryCount : nat) (governanceFramework : string)
| RegisteredData (participantId : string) (trustScore : Z)
| VerificationData (verificationResult : TrustVerificationResult)
| StatusData (participantId : string) (previousStatus newStatus : TrustStatus.t)
    (trustScore : Z).

(** [searchTrustRegistry]'s criteria; every field is optional.  A
    [minTrustScore] is an integer here, as the scores it is compared
    with are. *)
Record SearchCriteria := {
  sc_type : option ParticipantType.t;
  sc_status : option TrustStatus.t;
  sc_assuranceLevel : option AssuranceLevel.t;
  sc_minTrustScore : option Z
}.

(** The state of a [TrustRegistryProvider] instance. *)
Record TrustRegistryProvider := {
  processId : string;
  name : string;
  description : string;
  status : ProcessStatus.t;
  assuranceLevel : AssuranceLevel.t;
  registryId : string;
  governanceFramework : string;
  trustEntries : list (string * TrustRegistryEntry);
  verificationHistory : gmap string (list TrustVerificationResult)
}.

Definition set_processStatus (r : TrustRegistryProvider) (s : ProcessStatus.t)
  : TrustRegistryProvider :=
  {| processId := processId r; name := name r; description := description r;
     status := s; assuranceLevel := assuranceLevel r; registryId := registryId r;
     governanceFramework := governanceFramework r;
     trustEntries := trustEntries r; verificationHistory := verificationHistory r |}.

Definition set_trustEntries (r : TrustRegistryProvider)
    (m : list (string * TrustRegistryEntry)) : TrustRegistryProvider :=
  {| processId := processId r; name := name r; description := description r;
     status := status r; assuranceLevel := assuranceLevel r; registryId := registryId r;
     governanceFramework := governanceFramework r;
     trustEntries := m; verificationHistory := verificationHistory r |}.

Definition set_verificationHistory (r : TrustRegistryProvider)
    (h : gmap string (list TrustVerificationResult)) : TrustRegistryProvider :=
  {| processId := processId r; name := name r; description := description r;
     status := status r; assuranceLevel := assuranceLevel r; registryId := registryId r;
     governanceFramework := governanceFramework r;
     trustEntries := trustEntries r; verificationHistory := h |}.

(** The clamp invariant of a stored [participantId, entry] pair. *)
Definition scoreInRange (kv : string * TrustRegistryEntry) : Prop :=
  0 <= e_trustScore (snd kv) <= 100.

(** ** trust-registry/trust-registry-provider.ts: class TrustRegistryProvider *)

Module Registry.

Definition Result := ProcessResult RegistryData.

Definition MS_PER_DAY : Z := 1000 * 60 * 60 * 24.

(** [constructor(registryId, name, governanceFramework = 'DIACC-PCTF',
    assuranceLevel = LOA2)] *)
Definition constructor (registryId name : string) (governanceFramework : option string)
    (assuranceLevel : option AssuranceLevel.t) : TrustRegistryProvider :=
  {| processId := "TRUST-REG-" +:+ registryId;
     name := name;
     description := "PCTF Trust Registry Service Provider";
     status := ProcessStatus.PENDING;
     assuranceLevel := default AssuranceLevel.LOA2 assuranceLevel;
     registryId := registryId;
     governanceFramework := default "DIACC-PCTF"%string governanceFramework;
     trustEntries := [];
     verificationHistory := ∅ |}.

(** [validateInput]; an entry is an object, and its [type],
    [assuranceLevel] and [contactInformation] are truthy for every value
    of their types, which leaves the two strings. *)
Definition validateInput (entry : TrustRegistryEntry) : bool :=
  truthy (e_participantId entry) && truthy (e_name entry).

Definition getTrustEntry (r : TrustRegistryProvider) (participantId : string)
  : option TrustRegistryEntry :=
  JsMap.get (trustEntries r) participantId.

Definition getVerificationHistory (r : TrustRegistryProvider) (participantId : string)
  : list TrustVerificationResult :=
  default [] (verificationHistory r !! participantId).

(** [criteria.x && entry.x !== criteria.x] for an enum-valued field: a
    criterion that is present is a non-empty string, hence truthy. *)
Definition mismatch {A : Type} `{EqDecision A} (c : option A) (v : A) : bool :=
  match c with
  | Some x => negb (bool_decide (v = x))
  | None => false
  end.

(** [criteria.minTrustScore && entry.trustScore < criteria.minTrustScore]:
    the number zero is falsy. *)
Definition belowMin (c : option Z) (score : Z) : bool :=
  match c with
  | Some m => negb (m =? 0) && (score <? m)
  | None => false
  end.

Definition searchTrustRegistry (r : TrustRegistryProvider) (criteria : SearchCriteria)
  : list TrustRegistryEntry :=
  List.filter
    (fun entry =>
       if mismatch (sc_type criteria) (e_type entry) then false
       else if mismatch (sc_status criteria) (e_status entry) then false
       else if mismatch (sc_assuranceLevel criteria) (e_assuranceLevel entry) then false
       else if belowMin (sc_minTrustScore criteria) (e_trustScore entry) then false
       else true)
    (JsMap.values (trustEntries r)).

(** [getConformanceCriteria] of the trust registry. *)
Definition getConformanceCriteria (r : TrustRegistryProvider) : list ConformanceCriteria :=
  [
    {| cc_id := "TRUST-001";
       cc_description := "Trust registry must maintain accurate participant information";
       cc_assuranceLevel := assuranceLevel r;
       cc_riskLevel := RiskLevel.HIGH;
       cc_isRequired := true;
       cc_mitigationStrategies :=
         [ "Regular verification of participant information";
           "Automated certification status checking";
           "Audit trails for all registry changes" ]%string |};
    {| cc_id := "TRUST-002";
       cc_description := "Trust scores must be calculated using verifiable criteria";
       cc_assuranceLevel := assuranceLevel r;
       cc_riskLevel := RiskLevel.MEDIUM;
       cc_isRequired := true;
       cc_mitigationStrategies :=
         [ "Transparent trust scoring algorithms";
           "Regular trust score recalculation";
           "Third-party validation of scoring methods" ]%string |};
    {| cc_id := "TRUST-003";
       cc_description := "Registry must provide real-time trust verification";
       cc_assuranceLevel := assuranceLevel r;
       cc_riskLevel := RiskLevel.MEDIUM;
       cc_isRequired := true;
       cc_mitigationStrategies :=
         [ "High availability infrastructure";
           "Distributed registry architecture";
           "Real-time status monitoring" ]%string |}
  ].

Section WithClock.
Variable clock : Clock.

(** [logActivity] reads the clock for the time stamp of the line it
    prints. *)
Definition logActivity : M unit :=
  _ <- newDate clock ;; ret tt.

(** The predicate of [certifications.filter] in the scoring and the
    verification procedures; [new Date()] is evaluated only for an
    ACTIVE certification that has an expiration date. *)
Definition isActiveCert (cert : TrustCertification) : M bool :=
  if bool_decide (tc_status cert = CertStatus.ACTIVE) then
    match tc_expirationDate cert with
    | None => ret true
    | Some d => now <- newDate clock ;; ret (now <? d)
    end
  else ret false.

Definition calculateTrustScore (entry : TrustRegistryEntry) : M Z :=
  let score := 50 in
  let score :=
    match e_status entry with
    | TrustStatus.TRUSTED => score + 30
    | TrustStatus.PROVISIONAL => score + 10
    | TrustStatus.SUSPENDED => score - 20
    | TrustStatus.REVOKED => score - 50
    | TrustStatus.UNKNOWN => score
    end in
  let score :=
    match e_assuranceLevel entry with
    | AssuranceLevel.LOA4 => score + 20
    | AssuranceLevel.LOA3 => score + 15
    | AssuranceLevel.LOA2 => score + 10
    | AssuranceLevel.LOA1 => score + 5
    end in
  activeCerts <- filterM isActiveCert (e_certifications entry) ;;
  let score := score + Z.min (Z.of_nat (length activeCerts) * 5) 20 in
  now1 <- newDate clock ;;
  let daysSinceRegistration := (now1 - e_registrationDate entry) / MS_PER_DAY in
  let score := if 365 <? daysSinceRegistration then score + 5 else score in
  now2 <- newDate clock ;;
  let daysSinceLastVerified := (now2 - e_lastVerified entry) / MS_PER_DAY in
  let score := if 90 <? daysSinceLastVerified then score - 5 else score in
  ret (Z.max 0 (Z.min 100 score)).

(** The body of the loop of [validateCertifications]. *)
Definition certificationIssues (cert : TrustCertification) : M (list string) :=
  let i1 :=
    if negb (truthy (tc_certificationId cert)) || negb (truthy (tc_issuingAuthority cert))
    then ["Invalid certification: missing required fields"%string] else [] in
  match tc_expirationDate cert with
  | Some d =>
      now <- newDate clock ;;
      ret (i1 ++ (if d <? now
                  then ["Certification " +:+ tc_certificationId cert +:+ " has expired"]
                  else []))
  | None => ret i1
  end.

Definition validateCertifications (certifications : list TrustCertification) : M Result :=
  l <- mapM certificationIssues certifications ;;
  let issues := concat l in
  if (0 <? length issues)%nat then
    t <- newDate clock ;;
    ret {| success := false; message := "Certification validation failed";
           data := None; errors := Some issues; timestamp := t |}
  else
    t <- newDate clock ;;
    ret {| success := true; message := "Certification validation passed";
           data := None; errors := None; timestamp := t |}.

(** The body of the loop of [validateRegistryIntegrity], for one
    [participantId, entry] pair of the map. *)
Definition expiredCertIssue (participantId : string) (cert : TrustCertification)
  : M (list string) :=
  match tc_expirationDate cert with
  | Some d =>
      now <- newDate clock ;;
      ret (if d <? now
           then ["Certification " +:+ tc_certificationId cert +:+ " for "
                   +:+ participantId +:+ " has expired"]
           else [])
  | None => ret []
  end.

Definition entryIssues (kv : string * TrustRegistryEntry) : M (list string) :=
  let (participantId, entry) := kv in
  i1 <- match e_expirationDate entry with
        | Some d =>
            now <- newDate clock ;;
            ret (if d <? now
                 then ["Entry " +:+ participantId +:+ " has expired"]
                 else [])
        | None => ret []
        end ;;
  i2 <- mapM (expiredCertIssue participantId) (e_certifications entry) ;;
  let i3 :=
    if (e_trustScore entry <? 0) || (100 <? e_trustScore entry)
    then ["Invalid trust score for " +:+ participantId +:+ ": "
            +:+ pretty (e_trustScore entry)]
    else [] in
  ret (i1 ++ concat i2 ++ i3).

Definition integrityIssues (entries : list (string * TrustRegistryEntry))
  : M (list string) :=
  l <- mapM entryIssues entries ;; ret (concat l).

Definition validateRegistryIntegrity (r : TrustRegistryProvider) : M Result :=
  issues <- integrityIssues (trustEntries r) ;;
  if (0 <? length issues)%nat then
    logActivity ;;;
    t <- newDate clock ;;
    ret {| success := false; message := "Registry integrity validation failed";
           data := None; errors := Some issues; timestamp := t |}
  else
    t <- newDate clock ;;
    ret {| success := true; message := "Registry integrity validation passed";
           data := None; errors := None; timestamp := t |}.

(** [updateTrustScores]: the loop body, then the loop over the map. *)
Definition updateTrustScore (kv : string * TrustRegistryEntry)
  : M (string * TrustRegistryEntry) :=
  let (participantId, entry) := kv in
  newScore <- calculateTrustScore entry ;;
  if negb (newScore =? e_trustScore entry) then
    logActivity ;;;
    ret (participantId, set_trustScore entry newScore)
  else ret (participantId, entry).

Definition updateTrustScores (entries : list (string * TrustRegistryEntry))
  : M (list (string * TrustRegistryEntry)) :=
  mapM updateTrustScore entries.

(** [processExpiredEntries]: one reading [now] before the loop. *)
Definition processExpiredEntry (now : Date) (kv : string * TrustRegistryEntry)
  : M (string * TrustRegistryEntry) :=
  let (participantId, entry) := kv in
  if match e_expirationDate entry with Some d => d <? now | None => false end
     && bool_decide (e_status entry = TrustStatus.TRUSTED)
  then
    logActivity ;;;
    ret (participantId, set_status entry TrustStatus.SUSPENDED)
  else ret (participantId, entry).

Definition processExpiredEntries (entries : list (string * TrustRegistryEntry))
  : M (list (string * TrustRegistryEntry)) :=
  now <- newDate clock ;;
  mapM (processExpiredEntry now) entries.

Definition executeProcess (r : TrustRegistryProvider)
  : M (Result * TrustRegistryProvider) :=
  let r := set_processStatus r ProcessStatus.IN_PROGRESS in
  logActivity ;;;
  integrityCheck <- validateRegistryIntegrity r ;;
  if negb (success integrityCheck) then
    ret (integrityCheck, set_processStatus r ProcessStatus.FAILED)
  else
    entries1 <- updateTrustScores (trustEntries r) ;;
    entries2 <- processExpiredEntries entries1 ;;
    let r := set_processStatus (set_trustEntries r entries2) ProcessStatus.COMPLETED in
    logActivity ;;;
    t <- newDate clock ;;
    ret ({| success := true; message := "Trust registry validated successfully";
            data := Some (SweepData (registryId r) (JsMap.size (trustEntries r))
                            (governanceFramework r));
            errors := None; timestamp := t |}, r).

Definition registerParticipant (r : TrustRegistryProvider) (entry : TrustRegistryEntry)
  : M (Result * TrustRegistryProvider) :=
  if negb (validateInput entry) then
    t <- newDate clock ;;
    ret ({| success := false; message := "Invalid trust registry entry data";
            data := None; errors := None; timestamp := t |}, r)
  else if JsMap.has (trustEntries r) (e_participantId entry) then
    t <- newDate clock ;;
    ret ({| success := false; message := "Participant already registered";
            data := None; errors := None; timestamp := t |}, r)
  else
    certificationValidation <- validateCertifications (e_certifications entry) ;;
    if negb (success certificationValidation) then ret (certificationValidation, r)
    else
      score <- calculateTrustScore entry ;;
      let entry := set_trustScore entry score in
      let r := set_trustEntries r
                 (JsMap.set (trustEntries r) (e_participantId entry) entry) in
      logActivity ;;;
      t <- newDate clock ;;
      ret ({| success := true; message := "Participant registered successfully";
              data := Some (RegisteredData (e_participantId entry) (e_trustScore entry));
              errors := None; timestamp := t |}, r).

Definition performTrustVerification (entry : TrustRegistryEntry)
    (request : TrustVerificationRequest) : M TrustVerificationResult :=
  let passed : list string := [] in
  let failed : list string := [] in
  let warnings : list string := [] in
  let (passed, failed) :=
    if bool_decide (e_status entry = TrustStatus.TRUSTED)
    then (passed ++ ["Trust status verification"%string], failed)
    else (passed, failed ++ ["Trust status is " +:+ TrustStatus.toString (e_status entry)]) in
  activeCerts <- filterM isActiveCert (e_certifications entry) ;;
  let (passed, failed) :=
    if (0 <? length activeCerts)%nat
    then (passed ++ ["Active certifications found"%string], failed)
    else (passed, failed ++ ["No active certifications"%string]) in
  let '(passed, failed, warnings) :=
    if 70 <=? e_trustScore entry
    then (passed ++ ["Trust score meets threshold"%string], failed, warnings)
    else if 50 <=? e_trustScore entry
    then (passed, failed, warnings ++ ["Trust score below recommended threshold"%string])
    else (passed, failed ++ ["Trust score too low"%string], warnings) in
  let trustStatus := TrustStatus.TRUSTED in
  let trustStatus :=
    if (0 <? length failed)%nat then TrustStatus.PROVISIONAL else trustStatus in
  let trustStatus :=
    if negb (bool_decide (e_status entry = TrustStatus.TRUSTED))
    then e_status entry else trustStatus in
  verificationDate <- newDate clock ;;
  validFrom <- newDate clock ;;
  now <- newDate clock ;;
  ret {| vr_participantId := e_participantId entry;
         vr_trustStatus := trustStatus;
         vr_trustScore := e_trustScore entry;
         vr_verificationDate := verificationDate;
         vr_verificationDetails :=
           {| criteriaChecked := passed ++ failed ++ warnings;
              passed := passed; failed := failed; warnings := warnings |};
         vr_validity :=
           {| validFrom := validFrom; validUntil := now + 24 * 60 * 60 * 1000 |} |}.

Definition verifyTrust (r : TrustRegistryProvider) (request : TrustVerificationRequest)
  : M (Result * TrustRegistryProvider) :=
  match JsMap.get (trustEntries r) (rq_participantId request) with
  | None =>
      t <- newDate clock ;;
      ret ({| success := false; message := "Participant not found in trust registry";
              data := None; errors := None; timestamp := t |}, r)
  | Some entry =>
      verificationResult <- performTrustVerification entry request ;;
      let history := verificationHistory r in
      let history :=
        match history !! rq_participantId request with
        | None => <[rq_participantId request := []]> history
        | Some _ => history
        end in
      let history :=
        alter (fun l => l ++ [verificationResult]) (rq_participantId request) history in
      let r := set_verificationHistory r history in
      logActivity ;;;
      t <- newDate clock ;;
      ret ({| success := true; message := "Trust verification completed";
              data := Some (VerificationData verificationResult);
              errors := None; timestamp := t |}, r)
  end.

Definition updateParticipantStatus (r : TrustRegistryProvider) (participantId : string)
    (status : TrustStatus.t) (reason : string) : M (Result * TrustRegistryProvider) :=
  match JsMap.get (trustEntries r) participantId with
  | None =>
      t <- newDate clock ;;
      ret ({| success := false; message := "Participant not found";
              data := None; errors := None; timestamp := t |}, r)
  | Some entry =>
      let previousStatus := e_status entry in
      let entry := set_status entry status in
      now <- newDate clock ;;
      let entry := set_lastVerified entry now in
      score <- calculateTrustScore entry ;;
      let entry := set_trustScore entry score in
      let r := set_trustEntries r (JsMap.set (trustEntries r) participantId entry) in
      logActivity ;;;
      t <- newDate clock ;;
      ret ({| success := true; message := "Participant status updated successfully";
              data := Some (StatusData participantId previousStatus status
                              (e_trustScore entry));
              errors := None; timestamp := t |}, r)
  end.
End WithClock.

(** The registry states that the public operations produce from a newly
    constructed provider, whatever the clock does. *)
Inductive reachable : TrustRegistryProvider -> Prop :=
| reach_new registryId name gf al :
    reachable (constructor registryId name gf al)
| reach_executeProcess clock k r :
    reachable r -> reachable (snd (fst (executeProcess clock r k)))
| reach_registerParticipant clock k r entry :
    reachable r -> reachable (snd (fst (registerParticipant clock r entry k)))
| reach_verifyTrust clock k r request :
    reachable r -> reachable (snd (fst (verifyTrust clock r request k)))
| reach_updateParticipantStatus clock k r participantId status reason :
    reachable r ->
    reachable (snd (fst (updateParticipantStatus clock r participantId status reason k))).

(** The score formula in the words of the specification, at one instant
    [now]. *)
Definition statusBonus (s : TrustStatus.t) : Z :=
  match s with
  | TrustStatus.TRUSTED => 30
  | TrustStatus.PROVISIONAL => 10
  | TrustStatus.SUSPENDED => -20
  | TrustStatus.REVOKED => -50
  | _ => 0
  end.

Definition assuranceBonus (l : AssuranceLevel.t) : Z :=
  match l with
  | AssuranceLevel.LOA4 => 20
  | AssuranceLevel.LOA3 => 15
  | AssuranceLevel.LOA2 => 10
  | AssuranceLevel.LOA1 => 5
  end.

(** ACTIVE, and no expiration date or an expiration date after [now]. *)
Definition activeAt (now : Date) (cert : TrustCertification) : bool :=
  bool_decide (tc_status cert = CertStatus.ACTIVE)
  && match tc_expirationDate cert with
     | None => true
     | Some d => now <? d
     end.

Definition activeCertCount (now : Date) (entry : TrustRegistryEntry) : Z :=
  Z.of_nat (length (List.filter (activeAt now) (e_certifications entry))).

Definition wholeDaysSince (now d : Date) : Z := (now - d) / 86400000.

Definition clamp (lo hi x : Z) : Z := Z.max lo (Z.min hi x).

Definition score_spec (now : Date) (entry : TrustRegistryEntry) : Z :=
  clamp 0 100
    (50
     + statusBonus (e_status entry)
     + assuranceBonus (e_assuranceLevel entry)
     + Z.min (5 * activeCertCount now entry) 20
     + (if 365 <? wholeDaysSince now (e_registrationDate entry) then 5 else 0)
     - (if 90 <? wholeDaysSince now (e_lastVerified entry) then 5 else 0)).

(** The verification outcome in the words of the specification: start
    from TRUSTED, downgrade to PROVISIONAL when [failed] is not empty,
    then let a persisted status other than TRUSTED override. *)
Definition trustStatus_spec (failed : list string) (persisted : TrustStatus.t)
  : TrustStatus.t :=
  let s := TrustStatus.TRUSTED in
  let s := match failed with [] => s | _ :: _ => TrustStatus.PROVISIONAL end in
  if bool_decide (persisted <> TrustStatus.TRUSTED) then persisted else s.

(** An optional date that lies strictly before [now]. *)
Definition expiredAt (now : Date) (d : option Date) : bool :=
  match d with
  | Some d => d <? now
  | None => false
  end.

(** What [processExpiredEntries] does to one entry at the instant [now]
    it reads: a TRUSTED entry whose expiration date lies before [now]
    becomes SUSPENDED, every other entry stays as it is. *)
Definition demoted (now : Date) (e : TrustRegistryEntry) : TrustRegistryEntry :=
  if expiredAt now (e_expirationDate e)
     && bool_decide (e_status e = TrustStatus.TRUSTED)
  then set_status e TrustStatus.SUSPENDED else e.

(** The three kinds of integrity issue, at one instant [now]: an expired
    entry, an expired certification, an out-of-range trust score. *)
Definition integrityIssueAt (now : Date) (entry : TrustRegistryEntry) : bool :=
  expiredAt now (e_expirationDate entry)
  || existsb (fun cert => expiredAt now (tc_expirationDate cert)) (e_certifications entry)
  || ((e_trustScore entry <? 0) || (100 <? e_trustScore entry)).

(** Search criteria with the [minTrustScore] field replaced. *)
Definition with_minTrustScore (criteria : SearchCriteria) (m : option Z) : SearchCriteria :=
  {| sc_type := sc_type criteria; sc_status := sc_status criteria;
     sc_assuranceLevel := sc_assuranceLevel criteria; sc_minTrustScore := m |}.

End Registry.

(** ** The capability providers that the orchestrator constructs

    Of each provider class the orchestrator uses the constructor and
    [getConformanceCriteria]; a provider is the record of the fields its
    constructor sets (its collections start empty and the orchestrator
    never touches them). *)

Module AuthenticationServiceProvider.
Record t := {
  participantId : string;
  name : string;
  assuranceLevel : AssuranceLevel.t
}.

Definition constructor (participantId name : string) (assuranceLevel : AssuranceLevel.t) : t :=
  {| participantId := participantId; name := name; assuranceLevel := assuranceLevel |}.

Definition getConformanceCriteria (p : t) : list ConformanceCriteria :=
  [
    {| cc_id := "AUTH-CC-01";
       cc_description := "Credential Service Provider maintains secure credential lifecycle";
       cc_assuranceLevel := assuranceLevel p;
       cc_riskLevel := RiskLevel.HIGH;
       cc_isRequired := true;
       cc_mitigationStrategies :=
         [ "Implement secure key management";
           "Regular security audits";
           "Multi-factor authentication for administrative access" ]%string |};
    {| cc_id := "AUTH-CC-02";
       cc_description := "Authentication processes protect against replay attacks";
       cc_assuranceLevel := assuranceLevel p;
       cc_riskLevel := RiskLevel.MEDIUM;
       cc_isRequired := true;
       cc_mitigationStrategies :=
         [ "Use time-based tokens";
           "Implement nonce validation";
           "Session timeout controls" ]%string |};
    {| cc_id := "AUTH-CC-03";
       cc_description := "Biometric authenticators meet specified accuracy requirements";
       cc_assuranceLevel := assuranceLevel p;
       cc_riskLevel := RiskLevel.MEDIUM;
       cc_isRequired := false;
       cc_mitigationStrategies :=
         [ "Regular calibration of biometric systems";
           "Fallback authentication methods";
           "Anti-spoofing measures" ]%string |}
  ].
End AuthenticationServiceProvider.

Module IdentityProvider.
Record t := {
  providerId : string;
  name : string;
  assuranceLevel : AssuranceLevel.t
}.

Definition constructor (providerId name : string) (assuranceLevel : AssuranceLevel.t) : t :=
  {| providerId := providerId; name := name; assuranceLevel := assuranceLevel |}.

Definition getConformanceCriteria (p : t) : list ConformanceCriteria :=
  [
    {| cc_id := "VP-CC-01";
       cc_description := "Identity Provider implements comprehensive identity proofing process";
       cc_assuranceLevel := assuranceLevel p;
       cc_riskLevel := RiskLevel.HIGH;
       cc_isRequired := true;
       cc_mitigationStrategies :=
         [ "Multi-source evidence validation";
           "Biometric verification when appropriate";
           "Regular process audits" ]%string |};
    {| cc_id := "VP-CC-02";
       cc_description := "Evidence validation includes authenticity and integrity checks";
       cc_assuranceLevel := assuranceLevel p;
       cc_riskLevel := RiskLevel.HIGH;
       cc_isRequired := true;
       cc_mitigationStrategies :=
         [ "Document security feature verification";
           "Cross-reference with authoritative sources";
           "Fraud detection algorithms" ]%string |};
    {| cc_id := "VP-CC-03";
       cc_description := "Identity resolution prevents duplicate enrollments";
       cc_assuranceLevel := assuranceLevel p;
       cc_riskLevel := RiskLevel.MEDIUM;
       cc_isRequired := true;
       cc_mitigationStrategies :=
         [ "Comprehensive database searches";
           "Biometric deduplication";
           "Identity attribute correlation" ]%string |}
  ].
End IdentityProvider.

Module PrivacyServiceProvider.
Record t := {
  providerId : string;
  name : string
}.

Definition constructor (providerId name : string) : t :=
  {| providerId := providerId; name := name |}.

Definition getConformanceCriteria (p : t) : list ConformanceCriteria :=
  [
    {| cc_id := "PRIV-CC-01";
       cc_description := "Organization implements all PIPEDA principles";
       cc_assuranceLevel := AssuranceLevel.LOA3;
       cc_riskLevel := RiskLevel.HIGH;
       cc_isRequired := true;
       cc_mitigationStrategies :=
         [ "Regular privacy impact assessments";
           "Staff privacy training";
           "Privacy by design implementation" ]%string |};
    {| cc_id := "PRIV-CC-02";
       cc_description := "Consent mechanisms are clear, meaningful, and auditable";
       cc_assuranceLevel := AssuranceLevel.LOA2;
       cc_riskLevel := RiskLevel.MEDIUM;
       cc_isRequired := true;
       cc_mitigationStrategies :=
         [ "Plain language consent forms";
           "Granular consent options";
           "Consent audit trails" ]%string |};
    {| cc_id := "PRIV-CC-03";
       cc_description := "Data minimization practices are implemented";
       cc_assuranceLevel := AssuranceLevel.LOA2;
       cc_riskLevel := RiskLevel.MEDIUM;
       cc_isRequired := true;
       cc_mitigationStrategies :=
         [ "Purpose limitation controls";
           "Automated data deletion";
           "Regular data inventory reviews" ]%string |}
  ].
End PrivacyServiceProvider.

Module SecurityLevel.
Inductive t := BASIC | ENHANCED | HIGH | CRITICAL.
End SecurityLevel.

Module InfrastructureServiceProvider.
Record t := {
  providerId : string;
  processId : string;
  name : string;
  description : string;
  status : ProcessStatus.t;
  assuranceLevel : AssuranceLevel.t;
  securityLevel : SecurityLevel.t
}.

Definition constructor (providerId name : string) (securityLevel : SecurityLevel.t)
    (assuranceLevel : AssuranceLevel.t) : t :=
  {| providerId := providerId;
     processId := "INFRA-" +:+ providerId;
     name := name;
     description := "PCTF Infrastructure Service Provider";
     status := ProcessStatus.PENDING;
     assuranceLevel := assuranceLevel;
     securityLevel := securityLevel |}.

Definition getConformanceCriteria (p : t) : list ConformanceCriteria :=
  [
    {| cc_id := "INFRA-001";
       cc_description := "Infrastructure components must meet minimum security standards";
       cc_assuranceLevel := assuranceLevel p;
       cc_riskLevel := RiskLevel.HIGH;
       cc_isRequired := true;
       cc_mitigationStrategies :=
         [ "Implement multi-layered security controls";
           "Regular security assessments and audits";
           "Continuous monitoring and alerting" ]%string |};
    {| cc_id := "INFRA-002";
       cc_description := "Infrastructure must maintain 99.9% availability";
       cc_assuranceLevel := assuranceLevel p;
       cc_riskLevel := RiskLevel.MEDIUM;
       cc_isRequired := true;
       cc_mitigationStrategies :=
         [ "Implement redundancy and failover mechanisms";
           "Regular backup and disaster recovery testing";
           "Performance monitoring and capacity planning" ]%string |};
    {| cc_id := "INFRA-003";
       cc_description := "All infrastructure changes must be logged and auditable";
       cc_assuranceLevel := assuranceLevel p;
       cc_riskLevel := RiskLevel.MEDIUM;
       cc_isRequired := true;
       cc_mitigationStrategies :=
         [ "Comprehensive audit logging";
           "Change management processes";
           "Regular compliance reviews" ]%string |}
  ].
End InfrastructureServiceProvider.

Module WalletType.
Inductive t := MOBILE | WEB | HARDWARE | CLOUD | HYBRID.
End WalletType.

Module SecurityFeature.
Inductive t :=
| BIOMETRIC_AUTH
| MULTI_FACTOR_AUTH
| HARDWARE_SECURITY_MODULE
| SECURE_ENCLAVE
| END_TO_END_ENCRYPTION.
End SecurityFeature.

Module DigitalWalletProvider.
Record t := {
  processId : string;
  name : string;
  description : string;
  status : ProcessStatus.t;
  assuranceLevel : AssuranceLevel.t;
  walletId : string;
  walletType : WalletType.t;
  ownerId : string;
  securityFeatures : list SecurityFeature.t;
  isLocked : bool
}.

Definition getDefaultSecurityFeatures (walletType : WalletType.t) : list SecurityFeature.t :=
  let features := [SecurityFeature.END_TO_END_ENCRYPTION] in
  match walletType with
  | WalletType.HARDWARE => features ++ [SecurityFeature.HARDWARE_SECURITY_MODULE]
  | WalletType.MOBILE =>
      features ++ [SecurityFeature.BIOMETRIC_AUTH; SecurityFeature.SECURE_ENCLAVE]
  | WalletType.WEB | WalletType.CLOUD => features ++ [SecurityFeature.MULTI_FACTOR_AUTH]
  | WalletType.HYBRID =>
      features ++ [SecurityFeature.MULTI_FACTOR_AUTH; SecurityFeature.BIOMETRIC_AUTH]
  end.

Definition constructor (walletId ownerId : string) (walletType : WalletType.t)
    (name : string) (assuranceLevel : AssuranceLevel.t) : t :=
  {| processId := "WALLET-" +:+ walletId;
     name := name;
     description := "PCTF Digital Wallet Provider";
     status := ProcessStatus.PENDING;
     assuranceLevel := assuranceLevel;
     walletId := walletId;
     walletType := walletType;
     ownerId := ownerId;
     securityFeatures := getDefaultSecurityFeatures walletType;
     isLocked := true |}.

Definition getConformanceCriteria (p : t) : list ConformanceCriteria :=
  [
    {| cc_id := "WALLET-001";
       cc_description := "Digital wallet must implement strong authentication mechanisms";
       cc_assuranceLevel := assuranceLevel p;
       cc_riskLevel := RiskLevel.HIGH;
       cc_isRequired := true;
       cc_mitigationStrategies :=
         [ "Multi-factor authentication required";
           "Biometric authentication where supported";
           "Hardware security module integration" ]%string |};
    {| cc_id := "WALLET-002";
       cc_description := "Credentials must be stored with end-to-end encryption";
       cc_assuranceLevel := assuranceLevel p;
       cc_riskLevel := RiskLevel.HIGH;
       cc_isRequired := true;
       cc_mitigationStrategies :=
         [ "AES-256 encryption for credential storage";
           "Key derivation from user authentication";
           "Secure key management practices" ]%string |};
    {| cc_id := "WALLET-003";
       cc_description := "All wallet operations must be logged and auditable";
       cc_assuranceLevel := assuranceLevel p;
       cc_riskLevel := RiskLevel.MEDIUM;
       cc_isRequired := true;
       cc_mitigationStrategies :=
         [ "Comprehensive audit logging";
           "Tamper-evident log storage";
           "Regular log review and analysis" ]%string |}
  ].
End DigitalWalletProvider.

(** ** shared/framework.ts: class PCTFFramework *)

Record AssessedCriterion := {
  ac_criterionId : string;
  ac_description : string;
  ac_isConformant : bool;
  ac_evidence : string;
  ac_lastAssessed : Date
}.

Record ComponentConformanceResult := {
  componentName : string;
  isConformant : bool;
  assessedCriteria : list AssessedCriterion;
  cr_assessmentDate : Date
}.

Record ConformanceAssessmentResult := {
  car_participantId : string;
  car_assessmentDate : Date;
  overallConformance : bool;
  componentResults : list ComponentConformanceResult
}.

(** The [data] payloads of the orchestrator's results. *)
Inductive FrameworkData :=
| ParticipantData (participantId : string)
| ConformanceData (conformanceResults : ConformanceAssessmentResult).

(** The state of a [PCTFFramework] instance: the participant directory
    and one map per provider kind. *)
Record PCTFFramework := {
  frameworkId : string;
  version : string;
  participants : list (string * PCTFParticipant);
  authenticationProviders : gmap string AuthenticationServiceProvider.t;
  identityProviders : gmap string IdentityProvider.t;
  privacyProviders : gmap string PrivacyServiceProvider.t;
  infrastructureProviders : gmap string InfrastructureServiceProvider.t;
  walletProviders : gmap string DigitalWalletProvider.t;
  trustRegistries : gmap string TrustRegistryProvider
}.

Module Framework.

Definition Result := ProcessResult FrameworkData.

(** [constructor(frameworkId, version = '1.0.0')] *)
Definition constructor (frameworkId : string) (version : option string) : PCTFFramework :=
  {| frameworkId := frameworkId;
     version := default "1.0.0"%string version;
     participants := [];
     authenticationProviders := ∅;
     identityProviders := ∅;
     privacyProviders := ∅;
     infrastructureProviders := ∅;
     walletProviders := ∅;
     trustRegistries := ∅ |}.

Definition getAuthenticationProvider (fw : PCTFFramework) (participantId : string) :=
  authenticationProviders fw !! participantId.
Definition getIdentityProvider (fw : PCTFFramework) (participantId : string) :=
  identityProviders fw !! participantId.
Definition getPrivacyProvider (fw : PCTFFramework) (participantId : string) :=
  privacyProviders fw !! participantId.
Definition getInfrastructureProvider (fw : PCTFFramework) (participantId : string) :=
  infrastructureProviders fw !! participantId.
Definition getWalletProvider (fw : PCTFFramework) (participantId : string) :=
  walletProviders fw !! participantId.
Definition getTrustRegistry (fw : PCTFFramework) (participantId : string) :=
  trustRegistries fw !! participantId.

Definition getParticipants (fw : PCTFFramework) : list PCTFParticipant :=
  JsMap.values (participants fw).

Definition getParticipantsByType (fw : PCTFFramework) (type : ParticipantType.t)
  : list PCTFParticipant :=
  List.filter (fun p => bool_decide (p_type p = type)) (JsMap.values (participants fw)).

(** [initializeServiceProviders]: the switch on the participant's type. *)
Definition initializeServiceProviders (fw : PCTFFramework) (participant : PCTFParticipant)
  : PCTFFramework :=
  let id := p_participantId participant in
  match p_type participant with
  | ParticipantType.AUTHENTICATION_SERVICE_PROVIDER
  | ParticipantType.CREDENTIAL_SERVICE_PROVIDER =>
      let authProvider :=
        AuthenticationServiceProvider.constructor id (p_name participant)
          (p_certificationLevel participant) in
      {| frameworkId := frameworkId fw; version := version fw;
         participants := participants fw;
         authenticationProviders := <[id := authProvider]> (authenticationProviders fw);
         identityProviders := identityProviders fw;
         privacyProviders := privacyProviders fw;
         infrastructureProviders := infrastructureProviders fw;
         walletProviders := walletProviders fw;
         trustRegistries := trustRegistries fw |}
  | ParticipantType.IDENTITY_PROVIDER =>
      let identityProvider :=
        IdentityProvider.constructor id (p_name participant)
          (p_certificationLevel participant) in
      {| frameworkId := frameworkId fw; version := version fw;
         participants := participants fw;
         authenticationProviders := authenticationProviders fw;
         identityProviders := <[id := identityProvider]> (identityProviders fw);
         privacyProviders := privacyProviders fw;
         infrastructureProviders := infrastructureProviders fw;
         walletProviders := walletProviders fw;
         trustRegistries := trustRegistries fw |}
  | ParticipantType.WALLET_PROVIDER =>
      let walletProvider :=
        DigitalWalletProvider.constructor ("WALLET-" +:+ id) id WalletType.CLOUD
          (p_name participant) (p_certificationLevel participant) in
      {| frameworkId := frameworkId fw; version := version fw;
         participants := participants fw;
         authenticationProviders := authenticationProviders fw;
         identityProviders := identityProviders fw;
         privacyProviders := privacyProviders fw;
         infrastructureProviders := infrastructureProviders fw;
         walletProviders := <[id := walletProvider]> (walletProviders fw);
         trustRegistries := trustRegistries fw |}
  | ParticipantType.TRUST_REGISTRY =>
      let trustRegistry :=
        Registry.constructor id (p_name participant) (Some "DIACC-PCTF"%string)
          (Some (p_certificationLevel participant)) in
      {| frameworkId := frameworkId fw; version := version fw;
         participants := participants fw;
         authenticationProviders := authenticationProviders fw;
         identityProviders := identityProviders fw;
         privacyProviders := privacyProviders fw;
         infrastructureProviders := infrastructureProviders fw;
         walletProviders := walletProviders fw;
         trustRegistries := <[id := trustRegistry]> (trustRegistries fw) |}
  | ParticipantType.ISSUER
  | ParticipantType.VERIFIER
  | ParticipantType.RELYING_PARTY =>
      let privacyProvider := PrivacyServiceProvider.constructor id (p_name participant) in
      let infrastructure :=
        if bool_decide (p_certificationLevel participant = AssuranceLevel.LOA3)
           || bool_decide (p_certificationLevel participant = AssuranceLevel.LOA4)
        then
          let infraProvider :=
            InfrastructureServiceProvider.constructor id (p_name participant)
              SecurityLevel.ENHANCED (p_certificationLevel participant) in
          <[id := infraProvider]> (infrastructureProviders fw)
        else infrastructureProviders fw in
      {| frameworkId := frameworkId fw; version := version fw;
         participants := participants fw;
         authenticationProviders := authenticationProviders fw;
         identityProviders := identityProviders fw;
         privacyProviders := <[id := privacyProvider]> (privacyProviders fw);
         infrastructureProviders := infrastructure;
         walletProviders := walletProviders fw;
         trustRegistries := trustRegistries fw |}
  end.

Definition set_participants (fw : PCTFFramework) (m : list (string * PCTFParticipant))
  : PCTFFramework :=
  {| frameworkId := frameworkId fw; version := version fw;
     participants := m;
     authenticationProviders := authenticationProviders fw;
     identityProviders := identityProviders fw;
     privacyProviders := privacyProviders fw;
     infrastructureProviders := infrastructureProviders fw;
     walletProviders := walletProviders fw;
     trustRegistries := trustRegistries fw |}.

Section WithClock.
Variable clock : Clock.

Definition validateParticipant (fw : PCTFFramework) (participant : PCTFParticipant)
  : M Result :=
  (* [participant.type] is an enum member, truthy for every value. *)
  if negb (truthy (p_participantId participant)) || negb (truthy (p_name participant)) then
    t <- newDate clock ;;
    ret {| success := false; message := "Missing required participant information";
           data := None; errors := None; timestamp := t |}
  else if JsMap.has (participants fw) (p_participantId participant) then
    t <- newDate clock ;;
    ret {| success := false; message := "Participant already registered";
           data := None; errors := None; timestamp := t |}
  else
    t <- newDate clock ;;
    ret {| success := true; message := "Participant validation successful";
           data := None; errors := None; timestamp := t |}.

Definition registerParticipant (fw : PCTFFramework) (participant : PCTFParticipant)
  : M (Result * PCTFFramework) :=
  validation <- validateParticipant fw participant ;;
  if negb (success validation) then ret (validation, fw)
  else
    let fw := set_participants fw
                (JsMap.set (participants fw) (p_participantId participant) participant) in
    let fw := initializeServiceProviders fw participant in
    t <- newDate clock ;;
    ret ({| success := true; message := "Participant registered successfully";
            data := Some (ParticipantData (p_participantId participant));
            errors := None; timestamp := t |}, fw).

Definition assessCriterion (criterion : ConformanceCriteria) : M AssessedCriterion :=
  lastAssessed <- newDate clock ;;
  ret {| ac_criterionId := cc_id criterion;
         ac_description := cc_description criterion;
         ac_isConformant := true;
         ac_evidence := "Conformance verified through automated testing";
         ac_lastAssessed := lastAssessed |}.

Definition assessComponentConformance (componentName : string)
    (criteria : list ConformanceCriteria) : M ComponentConformanceResult :=
  assessedCriteria <- mapM assessCriterion criteria ;;
  let overallConformance := forallb ac_isConformant assessedCriteria in
  assessmentDate <- newDate clock ;;
  ret {| componentName := componentName;
         isConformant := overallConformance;
         assessedCriteria := assessedCriteria;
         cr_assessmentDate := assessmentDate |}.

(** One of the six blocks of [assessConformance]: when the provider is
    present, assess its catalog, push the result and fold its flag
    into [overallConformance]. *)
Definition assessIfPresent {P : Type} (provider : option P) (componentName : string)
    (getCriteria : P -> list ConformanceCriteria)
    (conformanceResults : ConformanceAssessmentResult) : M ConformanceAssessmentResult :=
  match provider with
  | Some p =>
      result <- assessComponentConformance componentName (getCriteria p) ;;
      ret {| car_participantId := car_participantId conformanceResults;
             car_assessmentDate := car_assessmentDate conformanceResults;
             overallConformance :=
               overallConformance conformanceResults && isConformant result;
             componentResults := componentResults conformanceResults ++ [result] |}
  | None => ret conformanceResults
  end.

Definition assessConformance (fw : PCTFFramework) (participantId : string) : M Result :=
  match JsMap.get (participants fw) participantId with
  | None =>
      t <- newDate clock ;;
      ret {| success := false; message := "Participant not found";
             data := None; errors := None; timestamp := t |}
  | Some participant =>
      assessmentDate <- newDate clock ;;
      let conformanceResults :=
        {| car_participantId := participantId;
           car_assessmentDate := assessmentDate;
           overallConformance := true;
           componentResults := [] |} in
      conformanceResults <-
        assessIfPresent (authenticationProviders fw !! participantId) "Authentication"
          AuthenticationServiceProvider.getConformanceCriteria conformanceResults ;;
      conformanceResults <-
        assessIfPresent (identityProviders fw !! participantId) "VerifiedPerson"
          IdentityProvider.getConformanceCriteria conformanceResults ;;
      conformanceResults <-
        assessIfPresent (privacyProviders fw !! participantId) "Privacy"
          PrivacyServiceProvider.getConformanceCriteria conformanceResults ;;
      conformanceResults <-
        assessIfPresent (infrastructureProviders fw !! participantId) "Infrastructure"
          InfrastructureServiceProvider.getConformanceCriteria conformanceResults ;;
      conformanceResults <-
        assessIfPresent (walletProviders fw !! participantId) "DigitalWallet"
          DigitalWalletProvider.getConformanceCriteria conformanceResults ;;
      conformanceResults <-
        assessIfPresent (trustRegistries fw !! participantId) "TrustRegistry"
          Registry.getConformanceCriteria conformanceResults ;;
      t <- newDate clock ;;
      ret {| success := true; message := "Conformance assessment completed";
             data := Some (ConformanceData conformanceResults);
             errors := None; timestamp := t |}
  end.
End WithClock.

(** The orchestrator states that [registerParticipant] produces from a
    newly constructed framework. *)
Inductive reachable : PCTFFramework -> Prop :=
| reach_new frameworkId version :
    reachable (constructor frameworkId version)
| reach_registerParticipant clock k fw participant :
    reachable fw -> reachable (snd (fst (registerParticipant clock fw participant k))).

(** The types that the dispatch gives a Privacy provider. *)
Definition privacyType (p : PCTFParticipant) : Prop :=
  p_type p = ParticipantType.ISSUER
  \/ p_type p = ParticipantType.VERIFIER
  \/ p_type p = ParticipantType.RELYING_PARTY.

(** The certification levels that add an Infrastructure provider. *)
Definition highAssurance (p : PCTFParticipant) : Prop :=
  p_certificationLevel p = AssuranceLevel.LOA3
  \/ p_certificationLevel p = AssuranceLevel.LOA4.

(** No provider map holds the id. *)
Definition noProviders (fw : PCTFFramework) (id : string) : Prop :=
  authenticationProviders fw !! id = None
  /\ identityProviders fw !! id = None
  /\ privacyProviders fw !! id = None
  /\ infrastructureProviders fw !! id = None
  /\ walletProviders fw !! id = None
  /\ trustRegistries fw !! id = None.

(** The provider kinds in the order in which [assessConformance] visits
    their maps, with the flag saying whether each map holds the id. *)
Definition presentComponents (fw : PCTFFramework) (participantId : string)
  : list (string * bool) :=
  [ ("Authentication"%string, bool_decide (is_Some (authenticationProviders fw !! participantId)));
    ("VerifiedPerson"%string, bool_decide (is_Some (identityProviders fw !! participantId)));
    ("Privacy"%string, bool_decide (is_Some (privacyProviders fw !! participantId)));
    ("Infrastructure"%string, bool_decide (is_Some (infrastructureProviders fw !! participantId)));
    ("DigitalWallet"%string, bool_decide (is_Some (walletProviders fw !! participantId)));
    ("TrustRegistry"%string, bool_decide (is_Some (trustRegistries fw !! participantId))) ].

Definition expectedComponentNames (fw : PCTFFramework) (participantId : string)
  : list string :=
  map fst (List.filter snd (presentComponents fw participantId)).

(** The attachments of the dispatch table's last row, for a participant
    [p] of type ISSUER, VERIFIER or RELYING_PARTY: a Privacy provider,
    an Infrastructure provider exactly at LOA3 and LOA4, and no provider
    of another kind. *)
Definition privacyDispatch (fw : PCTFFramework) (p : PCTFParticipant) : Prop :=
  let id := p_participantId p in
  getPrivacyProvider fw id = Some (PrivacyServiceProvider.constructor id (p_name p))
  /\ (is_Some (getInfrastructureProvider fw id) <-> highAssurance p)
  /\ (highAssurance p ->
      getInfrastructureProvider fw id
      = Some (InfrastructureServiceProvider.constructor id (p_name p)
                SecurityLevel.ENHANCED (p_certificationLevel p)))
  /\ getAuthenticationProvider fw id = None
  /\ getIdentityProvider fw id = None
  /\ getWalletProvider fw id = None
  /\ getTrustRegistry fw id = None
  /\ expectedComponentNames fw id
     = if bool_decide (p_certificationLevel p = AssuranceLevel.LOA3)
          || bool_decide (p_certificationLevel p = AssuranceLevel.LOA4)
       then ["Privacy"; "Infrastructure"]%string
       else ["Privacy"]%string.

End Framework.

(** ** Sample data

    Concrete clocks, entries and registries on which the operations are
    evaluated. *)

Module Sample.

(** A clock that stands still at [now]. *)
Definition frozen (now : Date) : Clock := fun _ => now.

(** 2024-01-01T00:00:00Z and one day later, in milliseconds. *)
Definition t0 : Date := 1704067200000.
Definition t1 : Date := t0 + 86400000.

Definition contact : TrustRegistryContactInfo :=
  {| organizationName := "Example Org"; contactPerson := "A. Person";
     email := "contact@example.org"; phone := None;
     address := {| street := "1 Main St"; city := "Ottawa"; province := "ON";
                   postalCode := "K1A 0A1"; country := "CA" |};
     website := None |}.

Definition cert : TrustCertification :=
  {| tc_certificationId := "CERT-1"; tc_issuingAuthority := "DIACC";
     tc_certificationStandard := "PCTF"; tc_issuanceDate := t0 - 86400000;
     tc_expirationDate := None; tc_scope := []; tc_status := CertStatus.ACTIVE |}.

(** An LOA3 entry with one active certification, registered and last
    verified at [t0], with the given status, expiration date and score. *)
Definition entry (id : string) (st : TrustStatus.t) (expiration : option Date) (score : Z)
  : TrustRegistryEntry :=
  {| e_participantId := id; e_name := "Participant"; e_type := ParticipantType.ISSUER;
     e_status := st; e_assuranceLevel := AssuranceLevel.LOA3;
     e_certifications := [cert];
     e_registrationDate := t0; e_lastVerified := t0;
     e_expirationDate := expiration; e_trustScore := score;
     e_governanceFramework := "DIACC-PCTF";
     e_contactInformation := contact; e_publicKeys := [] |}.

Definition emptyRegistry : TrustRegistryProvider :=
  Registry.constructor "REG-1" "Registry" None None.

(** A registry holding one entry under its id. *)
Definition registryWith (e : TrustRegistryEntry) : TrustRegistryProvider :=
  set_trustEntries emptyRegistry [(e_participantId e, e)].

Definition request (id : string) : TrustVerificationRequest :=
  {| rq_participantId := id; rq_requestedBy := "verifier";
     rq_verificationScope := []; rq_requestDate := t1 |}.

Definition participant (id : string) (type : ParticipantType.t) (level : AssuranceLevel.t)
  : PCTFParticipant :=
  {| p_participantId := id; p_name := "Participant"; p_type := type;
     p_certificationLevel := level; p_isActive := true; p_registrationDate := t0 |}.

Definition emptyFramework : PCTFFramework := Framework.constructor "FW-1" None.

(** The orchestrator after the registration of one participant at [t0]. *)
Definition frameworkWith (p : PCTFParticipant) : PCTFFramework :=
  snd (fst (Framework.registerParticipant (frozen t0) emptyFramework p 0%nat)).

End Sample.

(** ** Specification-side views of the registry operations

    Pure descriptions, at one instant [now], of what the registry
    operations decide and write; the properties relate them to the
    embedded code. *)

Module RegistrySpec.

(** A certification that [validateCertifications] accepts at [now]: its
    [certificationId] and [issuingAuthority] are not empty and it is not
    expired. *)
Definition certificationOk (now : Date) (cert : TrustCertification) : bool :=
  truthy (tc_certificationId cert)
  && truthy (tc_issuingAuthority cert)
  && negb (Registry.expiredAt now (tc_expirationDate cert)).

(** The entry that a sweep at [now] leaves for [e]: the score
    recomputed, everything else as it was. *)
Definition rescored (now : Date) (kv : string * TrustRegistryEntry)
  : string * TrustRegistryEntry :=
  (fst kv, set_trustScore (snd kv) (Registry.score_spec now (snd kv))).

(** An entry that meets every criterion that is given. *)
Definition matches (criteria : SearchCriteria) (entry : TrustRegistryEntry) : Prop :=
  (forall t, sc_type criteria = Some t -> e_type entry = t)
  /\ (forall s, sc_status criteria = Some s -> e_status entry = s)
  /\ (forall l, sc_assuranceLevel criteria = Some l -> e_assuranceLevel entry = l)
  /\ (forall m, sc_minTrustScore criteria = Some m -> m = 0 \/ m <= e_trustScore entry).

(** No criterion at all. *)
Definition anyEntry : SearchCriteria :=
  {| sc_type := None; sc_status := None; sc_assuranceLevel := None;
     sc_minTrustScore := None |}.

(** The invariant of the registry's map: the keys are distinct, and
    every entry is stored under its own [participantId] and has the
    fields that [validateInput] requires. *)
Definition wellKeyed (entries : list (string * TrustRegistryEntry)) : Prop :=
  NoDup (map fst entries)
  /\ Forall (fun kv => e_participantId (snd kv) = fst kv
                       /\ Registry.validateInput (snd kv) = true) entries.

(** The invariant of the verification history: a history exists only
    for a registered participant, is not empty, and holds results that
    carry that participant's id. *)
Definition historyOf (r : TrustRegistryProvider) : Prop :=
  forall id h,
    verificationHistory r !! id = Some h ->
    h <> []
    /\ is_Some (Registry.getTrustEntry r id)
    /\ Forall (fun vr => vr_participantId vr = id) h.

End RegistrySpec.

(** Two [participantId, entry] pairs with the same key, id and name:
    what the loops of the sweep keep of each pair. *)
Definition sameIdentity (x y : string * TrustRegistryEntry) : Prop :=
  fst y = fst x
  /\ e_participantId (snd y) = e_participantId (snd x)
  /\ e_name (snd y) = e_name (snd x).

(** ** shared/framework.ts: ecosystem validation and status report *)

Record ComponentCoverage := {
  cov_authentication : nat;
  cov_identityProviders : nat;
  cov_privacyProviders : nat
}.

Record EcosystemValidationResult := {
  ev_timestamp : Date;
  ev_participantCount : nat;
  ev_activeParticipants : nat;
  ev_componentCoverage : ComponentCoverage;
  ev_interoperabilityIssues : list string
}.

Record ParticipantSummary := {
  ps_total : nat;
  ps_active : nat;
  ps_byType : list (ParticipantType.t * nat)
}.

Record ComponentSummary := {
  cs_authenticationProviders : nat;
  cs_identityProviders : nat;
  cs_privacyProviders : nat;
  cs_infrastructureProviders : nat;
  cs_walletProviders : nat;
  cs_trustRegistries : nat
}.

Record FrameworkStatusReport := {
  sr_frameworkId : string;
  sr_version : string;
  sr_generatedAt : Date;
  sr_participantSummary : ParticipantSummary;
  sr_componentSummary : ComponentSummary;
  sr_complianceStatus : string
}.

Module Ecosystem.

(** [Object.values(ParticipantType)]: the members in declaration order. *)
Definition participantTypes : list ParticipantType.t :=
  [ ParticipantType.CREDENTIAL_SERVICE_PROVIDER;
    ParticipantType.AUTHENTICATION_SERVICE_PROVIDER;
    ParticipantType.IDENTITY_PROVIDER;
    ParticipantType.VERIFIER;
    ParticipantType.ISSUER;
    ParticipantType.WALLET_PROVIDER;
    ParticipantType.TRUST_REGISTRY;
    ParticipantType.RELYING_PARTY ].

(** [counts[type]++] on the record of counts, an object whose keys are
    the types in the order of their initialisation. *)
Fixpoint increment (type : ParticipantType.t) (counts : list (ParticipantType.t * nat))
  : list (ParticipantType.t * nat) :=
  match counts with
  | [] => []
  | (t, n) :: rest =>
      if bool_decide (t = type) then (t, S n) :: rest
      else (t, n) :: increment type rest
  end.

(** [counts[type]]. *)
Fixpoint countOf (type : ParticipantType.t) (counts : list (ParticipantType.t * nat))
  : option nat :=
  match counts with
  | [] => None
  | (t, n) :: rest => if bool_decide (t = type) then Some n else countOf type rest
  end.

Definition getParticipantCountByType (participants : list PCTFParticipant)
  : list (ParticipantType.t * nat) :=
  let counts := map (fun type => (type, 0%nat)) participantTypes in
  fold_left (fun counts p => increment (p_type p) counts) participants counts.

Definition checkInteroperability (fw : PCTFFramework) : list string :=
  let issues : list string := [] in
  let issues :=
    if (size (identityProviders fw) =? 0)%nat
    then issues ++ ["No identity providers registered"%string] else issues in
  let issues :=
    if (size (authenticationProviders fw) =? 0)%nat
    then issues ++ ["No authentication providers registered"%string] else issues in
  issues.

Section WithClock.
Variable clock : Clock.

Definition validateEcosystem (fw : PCTFFramework)
  : M (ProcessResult EcosystemValidationResult) :=
  timestamp0 <- newDate clock ;;
  let activeParticipants :=
    length (List.filter p_isActive (JsMap.values (participants fw))) in
  let componentCoverage :=
    {| cov_authentication := size (authenticationProviders fw);
       cov_identityProviders := size (identityProviders fw);
       cov_privacyProviders := size (privacyProviders fw) |} in
  let interoperabilityIssues := checkInteroperability fw in
  let validationResults :=
    {| ev_timestamp := timestamp0;
       ev_participantCount := JsMap.size (participants fw);
       ev_activeParticipants := activeParticipants;
       ev_componentCoverage := componentCoverage;
       ev_interoperabilityIssues := interoperabilityIssues |} in
  let isValid :=
    (0 <? activeParticipants)%nat && (length interoperabilityIssues =? 0)%nat in
  t <- newDate clock ;;
  ret {| success := isValid;
         message := if isValid then "Ecosystem validation successful"
                    else "Ecosystem validation issues found";
         data := Some validationResults;
         errors := None;
         timestamp := t |}.

Definition generateStatusReport (fw : PCTFFramework) : M FrameworkStatusReport :=
  let participants := JsMap.values (participants fw) in
  generatedAt <- newDate clock ;;
  ret {| sr_frameworkId := frameworkId fw;
         sr_version := version fw;
         sr_generatedAt := generatedAt;
         sr_participantSummary :=
           {| ps_total := length participants;
              ps_active := length (List.filter p_isActive participants);
              ps_byType := getParticipantCountByType participants |};
         sr_componentSummary :=
           {| cs_authenticationProviders := size (authenticationProviders fw);
              cs_identityProviders := size (identityProviders fw);
              cs_privacyProviders := size (privacyProviders fw);
              cs_infrastructureProviders := size (infrastructureProviders fw);
              cs_walletProviders := size (walletProviders fw);
              cs_trustRegistries := size (trustRegistries fw) |};
         sr_complianceStatus := "IN_PROGRESS" |}.
End WithClock.

End Ecosystem.

(** ** Specification-side views of the orchestrator *)

Module FrameworkSpec.

(** The dispatch table: the component kinds attached to a participant,
    by type and certification level, in the order of the provider
    maps. *)
Definition dispatchTable (p : PCTFParticipant) : list string :=
  match p_type p with
  | ParticipantType.AUTHENTICATION_SERVICE_PROVIDER
  | ParticipantType.CREDENTIAL_SERVICE_PROVIDER => ["Authentication"%string]
  | ParticipantType.IDENTITY_PROVIDER => ["VerifiedPerson"%string]
  | ParticipantType.WALLET_PROVIDER => ["DigitalWallet"%string]
  | ParticipantType.TRUST_REGISTRY => ["TrustRegistry"%string]
  | ParticipantType.ISSUER
  | ParticipantType.VERIFIER
  | ParticipantType.RELYING_PARTY =>
      match p_certificationLevel p with
      | AssuranceLevel.LOA3 | AssuranceLevel.LOA4 => ["Privacy"; "Infrastructure"]%string
      | _ => ["Privacy"%string]
      end
  end.

(** The number of participants of a list that satisfy [f]. *)
Definition countIf (f : PCTFParticipant -> bool) (l : list PCTFParticipant) : nat :=
  length (List.filter f l).

Definition hasType (type : ParticipantType.t) (p : PCTFParticipant) : bool :=
  bool_decide (p_type p = type).

(** The participants that the dispatch gives a provider of each kind. *)
Definition getsAuthentication (p : PCTFParticipant) : bool :=
  hasType ParticipantType.AUTHENTICATION_SERVICE_PROVIDER p
  || hasType ParticipantType.CREDENTIAL_SERVICE_PROVIDER p.

Definition getsPrivacy (p : PCTFParticipant) : bool :=
  hasType ParticipantType.ISSUER p
  || hasType ParticipantType.VERIFIER p
  || hasType ParticipantType.RELYING_PARTY p.

Definition getsInfrastructure (p : PCTFParticipant) : bool :=
  getsPrivacy p
  && (bool_decide (p_certificationLevel p = AssuranceLevel.LOA3)
      || bool_decide (p_certificationLevel p = AssuranceLevel.LOA4)).

(** The invariant of the directory: distinct keys, each participant
    under its own id, ids and names not empty. *)
Definition wellKeyed (directory : list (string * PCTFParticipant)) : Prop :=
  NoDup (map fst directory)
  /\ Forall (fun kv => p_participantId (snd kv) = fst kv
                       /\ fst kv <> ""%string
                       /\ p_name (snd kv) <> ""%string) directory.

End FrameworkSpec.

(** A component result as [assessComponentConformance] makes it from a
    catalog of three criteria: conformant, with three assessed
    criteria that are all marked conformant. *)
Definition conformantComponent (c : ComponentConformanceResult) : Prop :=
  isConformant c = true
  /\ length (assessedCriteria c) = 3%nat
  /\ Forall (fun ac => ac_isConformant ac = true) (assessedCriteria c).

(** ** digital-wallet: class DigitalWalletProvider (PCTF12), the wallet
    operations

    [DigitalWalletProvider.t] above is the record of the fields that the
    constructor sets.  The class has two more fields, the credential map
    and the activity log, both empty after construction;
    [DigitalWallet.t] is the whole object, and the methods of the class
    are functions on it.  Further conventions:
    - [Math.random().toString(36).substr(2, 9)] in an activity identifier
      is a draw from an oracle [random]; a draw takes the next index of
      the effect sequence, like a reading of the clock, so that every
      interleaving of readings and draws is a choice of [clock] and
      [random];
    - the argument of [unlockWallet] is typed [any]; it is [None] for
      [null] or [undefined] and otherwise an object whose [type] and
      [value] are strings;
    - the values of [claims] are strings;
    - [Array.prototype.sort] is stable. *)

Module CredentialStatus.
Inductive t := ACTIVE | SUSPENDED | REVOKED | EXPIRED.
#[global] Instance CredentialStatus_eq_dec : EqDecision t.
Proof. solve_decision. Defined.

Definition toString (s : t) : string :=
  match s with
  | ACTIVE => "ACTIVE"
  | SUSPENDED => "SUSPENDED"
  | REVOKED => "REVOKED"
  | EXPIRED => "EXPIRED"
  end.

(** [status.toLowerCase()] *)
Definition toLowerCase (s : t) : string :=
  match s with
  | ACTIVE => "active"
  | SUSPENDED => "suspended"
  | REVOKED => "revoked"
  | EXPIRED => "expired"
  end.
End CredentialStatus.

Record CredentialProof := {
  cp_type : string;
  cp_created : Date;
  cp_verificationMethod : string;
  cp_signature : string;
  cp_nonce : option string
}.

Record CredentialMetadata := {
  cm_schemaId : string;
  cm_version : string;
  cm_trustFramework : string;
  cm_assuranceLevel : AssuranceLevel.t;
  cm_revocationMethod : option string
}.

Record DigitalCredential := {
  dc_credentialId : string;
  dc_issuer : string;
  dc_subject : string;
  dc_type : list string;
  dc_issuanceDate : Date;
  dc_expirationDate : option Date;
  dc_status : CredentialStatus.t;
  dc_claims : list (string * string);
  dc_proof : CredentialProof;
  dc_metadata : CredentialMetadata
}.

Definition set_credentialStatus (c : DigitalCredential) (s : CredentialStatus.t)
  : DigitalCredential :=
  {| dc_credentialId := dc_credentialId c; dc_issuer := dc_issuer c;
     dc_subject := dc_subject c; dc_type := dc_type c;
     dc_issuanceDate := dc_issuanceDate c; dc_expirationDate := dc_expirationDate c;
     dc_status := s; dc_claims := dc_claims c; dc_proof := dc_proof c;
     dc_metadata := dc_metadata c |}.

Module WalletOperation.
Inductive t :=
| STORE_CREDENTIAL
| RETRIEVE_CREDENTIAL
| PRESENT_CREDENTIAL
| REVOKE_CREDENTIAL
| BACKUP_WALLET
| RESTORE_WALLET.
#[global] Instance WalletOperation_eq_dec : EqDecision t.
Proof. solve_decision. Defined.
End WalletOperation.

(** The literal type ['SUCCESS' | 'FAILURE']. *)
Module ActivityResult.
Inductive t := SUCCESS | FAILURE.
#[global] Instance ActivityResult_eq_dec : EqDecision t.
Proof. solve_decision. Defined.
End ActivityResult.

(** [userAgent] and [ipAddress] are never set by the class. *)
Record WalletActivity := {
  wa_activityId : string;
  wa_operation : WalletOperation.t;
  wa_credentialId : option string;
  wa_timestamp : Date;
  wa_result : ActivityResult.t;
  wa_details : string
}.

Record AuthenticationProof := {
  ap_type : string;
  ap_value : string
}.

(** The [data] of the wallet's results. *)
Inductive WalletData :=
| StoredData (credentialId : string)
| RetrievedData (credential : DigitalCredential)
| PresentationData (credentials : list DigitalCredential) (presentationId : string)
| IssuesData (issues : list string)
| WalletSummaryData (walletId : string) (walletType : WalletType.t)
    (credentialCount : nat) (securityFeatures : list SecurityFeature.t).

#[global] Instance SecurityFeature_eq_dec : EqDecision SecurityFeature.t.
Proof. solve_decision. Defined.

#[global] Instance WalletType_eq_dec : EqDecision WalletType.t.
Proof. solve_decision. Defined.

Module DigitalWallet.

Record t := {
  provider : DigitalWalletProvider.t;
  credentials : list (string * DigitalCredential);
  activityLog : list WalletActivity
}.

Definition Result := ProcessResult WalletData.

Definition constructor (walletId ownerId : string) (walletType : WalletType.t)
    (name : string) (assuranceLevel : AssuranceLevel.t) : t :=
  {| provider :=
       DigitalWalletProvider.constructor walletId ownerId walletType name assuranceLevel;
     credentials := [];
     activityLog := [] |}.

Definition isLocked (w : t) : bool := DigitalWalletProvider.isLocked (provider w).
Definition status (w : t) : ProcessStatus.t := DigitalWalletProvider.status (provider w).
Definition assuranceLevel (w : t) : AssuranceLevel.t :=
  DigitalWalletProvider.assuranceLevel (provider w).
Definition securityFeatures (w : t) : list SecurityFeature.t :=
  DigitalWalletProvider.securityFeatures (provider w).
Definition walletType (w : t) : WalletType.t :=
  DigitalWalletProvider.walletType (provider w).
Definition walletId (w : t) : string := DigitalWalletProvider.walletId (provider w).

Definition set_provider (w : t) (p : DigitalWalletProvider.t) : t :=
  {| provider := p; credentials := credentials w; activityLog := activityLog w |}.

Definition set_walletStatus (w : t) (s : ProcessStatus.t) : t :=
  let p := provider w in
  set_provider w
    {| DigitalWalletProvider.processId := DigitalWalletProvider.processId p;
       DigitalWalletProvider.name := DigitalWalletProvider.name p;
       DigitalWalletProvider.description := DigitalWalletProvider.description p;
       DigitalWalletProvider.status := s;
       DigitalWalletProvider.assuranceLevel := DigitalWalletProvider.assuranceLevel p;
       DigitalWalletProvider.walletId := DigitalWalletProvider.walletId p;
       DigitalWalletProvider.walletType := DigitalWalletProvider.walletType p;
       DigitalWalletProvider.ownerId := DigitalWalletProvider.ownerId p;
       DigitalWalletProvider.securityFeatures := DigitalWalletProvider.securityFeatures p;
       DigitalWalletProvider.isLocked := DigitalWalletProvider.isLocked p |}.

Definition set_isLocked (w : t) (b : bool) : t :=
  let p := provider w in
  set_provider w
    {| DigitalWalletProvider.processId := DigitalWalletProvider.processId p;
       DigitalWalletProvider.name := DigitalWalletProvider.name p;
       DigitalWalletProvider.description := DigitalWalletProvider.description p;
       DigitalWalletProvider.status := DigitalWalletProvider.status p;
       DigitalWalletProvider.assuranceLevel := DigitalWalletProvider.assuranceLevel p;
       DigitalWalletProvider.walletId := DigitalWalletProvider.walletId p;
       DigitalWalletProvider.walletType := DigitalWalletProvider.walletType p;
       DigitalWalletProvider.ownerId := DigitalWalletProvider.ownerId p;
       DigitalWalletProvider.securityFeatures := DigitalWalletProvider.securityFeatures p;
       DigitalWalletProvider.isLocked := b |}.

Definition set_credentials (w : t) (m : list (string * DigitalCredential)) : t :=
  {| provider := provider w; credentials := m; activityLog := activityLog w |}.

Definition set_activityLog (w : t) (l : list WalletActivity) : t :=
  {| provider := provider w; credentials := credentials w; activityLog := l |}.

(** [validateInput(input)]: the input is neither [null] nor [undefined]. *)
Definition validateInput {A : Type} (input : option A) : bool :=
  match input with Some _ => true | None => false end.

(** [features.includes(f)] *)
Definition includes (f : SecurityFeature.t) (features : list SecurityFeature.t) : bool :=
  existsb (fun g => bool_decide (g = f)) features.

(** [authenticationProof && authenticationProof.type &&
    authenticationProof.value], as the condition it is used for. *)
Definition validateAuthentication (authenticationProof : option AuthenticationProof) : bool :=
  match authenticationProof with
  | Some proof => truthy (ap_type proof) && truthy (ap_value proof)
  | None => false
  end.

(** [getAllCredentials] *)
Definition getAllCredentials (w : t) : list DigitalCredential :=
  List.filter (fun cred => bool_decide (dc_status cred = CredentialStatus.ACTIVE))
    (JsMap.values (credentials w)).

(** [activityLog.sort((a, b) => b.timestamp.getTime() -
    a.timestamp.getTime())]: descending by time stamp; activities with
    equal time stamps keep their order. *)
Fixpoint insertByTime (a : WalletActivity) (l : list WalletActivity) : list WalletActivity :=
  match l with
  | [] => [a]
  | b :: l' =>
      if wa_timestamp a <? wa_timestamp b then b :: insertByTime a l' else a :: l
  end.

Definition sortByTime (l : list WalletActivity) : list WalletActivity :=
  fold_right insertByTime [] l.

(** [activities.slice(0, limit)] for an integer [limit]: a negative
    [limit] counts from the end. *)
Definition slice0 {A : Type} (l : list A) (limit : Z) : list A :=
  if limit <? 0
  then take (Z.to_nat (Z.max (Z.of_nat (length l) + limit) 0)) l
  else take (Z.to_nat limit) l.

(** [getActivityLog(limit?)]; [sort] works in place, so the call also
    reorders the log that the wallet holds. *)
Definition getActivityLog (w : t) (limit : option Z) : list WalletActivity * t :=
  let activities := sortByTime (activityLog w) in
  let w := set_activityLog w activities in
  (match limit with
   | Some n => if n =? 0 then activities else slice0 activities n
   | None => activities
   end, w).

Section WithEffects.
Variable clock : Clock.
Variable random : nat -> string.

(** [Math.random().toString(36).substr(2, 9)] *)
Definition draw : M string := fun k => (random k, S k).

Definition logActivity : M unit :=
  _ <- newDate clock ;; ret tt.

Definition logWalletActivity (w : t) (operation : WalletOperation.t)
    (credentialId : option string) (result : ActivityResult.t) (details : string) : M t :=
  ms <- newDate clock ;;
  suffix <- draw ;;
  t <- newDate clock ;;
  let activity :=
    {| wa_activityId := "ACT-" +:+ pretty ms +:+ "-" +:+ suffix;
       wa_operation := operation;
       wa_credentialId := credentialId;
       wa_timestamp := t;
       wa_result := result;
       wa_details := details |} in
  let w := set_activityLog w (activityLog w ++ [activity]) in
  logActivity ;;;
  ret w.

Definition verifyCredentialProof (credential : DigitalCredential) : M Result :=
  if negb (truthy (cp_signature (dc_proof credential)))
     || negb (truthy (cp_verificationMethod (dc_proof credential)))
  then
    t <- newDate clock ;;
    ret {| success := false; message := "Invalid credential proof";
           data := None; errors := None; timestamp := t |}
  else
    t <- newDate clock ;;
    ret {| success := true; message := "Credential proof verified";
           data := None; errors := None; timestamp := t |}.

Definition validateSecurity (w : t) : M Result :=
  let i1 :=
    if (bool_decide (assuranceLevel w = AssuranceLevel.LOA3)
        || bool_decide (assuranceLevel w = AssuranceLevel.LOA4))
       && (negb (includes SecurityFeature.MULTI_FACTOR_AUTH (securityFeatures w))
           && negb (includes SecurityFeature.BIOMETRIC_AUTH (securityFeatures w)))
    then ["High assurance levels require multi-factor or biometric authentication"]
    else [] in
  let i2 :=
    if negb (includes SecurityFeature.END_TO_END_ENCRYPTION (securityFeatures w))
    then ["End-to-end encryption is required"]
    else [] in
  let securityIssues := (i1 ++ i2)%list in
  if (0 <? length securityIssues)%nat then
    t <- newDate clock ;;
    ret {| success := false; message := "Security validation failed";
           data := None; errors := Some securityIssues; timestamp := t |}
  else
    t <- newDate clock ;;
    ret {| success := true; message := "Security validation passed";
           data := None; errors := None; timestamp := t |}.

(** The body of the loop of [validateCredentials], for one
    [credentialId, credential] pair of the map: the pair after the body
    and the issues it pushes.  [new Date()] is evaluated only for a
    credential that has an expiration date. *)
Definition validateCredential (kv : string * DigitalCredential)
  : M ((string * DigitalCredential) * list string) :=
  let (credentialId, credential) := kv in
  expired <- match dc_expirationDate credential with
             | Some d => now <- newDate clock ;; ret (d <? now)
             | None => ret false
             end ;;
  let credential' :=
    if expired then set_credentialStatus credential CredentialStatus.EXPIRED
    else credential in
  let i1 :=
    if expired then ["Credential " +:+ credentialId +:+ " has expired"] else [] in
  let i2 :=
    if negb (truthy (cp_signature (dc_proof credential)))
    then ["Credential " +:+ credentialId +:+ " has invalid proof"]
    else [] in
  ret ((credentialId, credential'), (i1 ++ i2)%list).

Definition validateCredentials (w : t) : M (Result * t) :=
  rs <- mapM validateCredential (credentials w) ;;
  let w := set_credentials w (map fst rs) in
  let issues := concat (map snd rs) in
  (if (0 <? length issues)%nat then logActivity else ret tt) ;;;
  t <- newDate clock ;;
  ret ({| success := true;
          message := "Credential validation completed with "
                       +:+ pretty (length issues) +:+ " issues";
          data := Some (IssuesData issues); errors := None; timestamp := t |}, w).

Definition executeProcess (w : t) : M (Result * t) :=
  let w := set_walletStatus w ProcessStatus.IN_PROGRESS in
  logActivity ;;;
  securityValidation <- validateSecurity w ;;
  if negb (success securityValidation) then
    ret (securityValidation, set_walletStatus w ProcessStatus.FAILED)
  else
    cv <- validateCredentials w ;;
    let (credentialValidation, w) := cv in
    if negb (success credentialValidation) then
      ret (credentialValidation, set_walletStatus w ProcessStatus.FAILED)
    else
      let w := set_walletStatus w ProcessStatus.COMPLETED in
      logActivity ;;;
      t <- newDate clock ;;
      ret ({| success := true; message := "Digital wallet validated successfully";
              data := Some (WalletSummaryData (walletId w) (walletType w)
                              (JsMap.size (credentials w)) (securityFeatures w));
              errors := None; timestamp := t |}, w).

Definition unlockWallet (w : t) (authenticationProof : option AuthenticationProof)
  : M (Result * t) :=
  if negb (validateInput authenticationProof) then
    t <- newDate clock ;;
    ret ({| success := false; message := "Invalid authentication proof";
            data := None; errors := None; timestamp := t |}, w)
  else if negb (validateAuthentication authenticationProof) then
    w <- logWalletActivity w WalletOperation.RETRIEVE_CREDENTIAL None
           ActivityResult.FAILURE "Authentication failed" ;;
    t <- newDate clock ;;
    ret ({| success := false; message := "Authentication failed";
            data := None; errors := None; timestamp := t |}, w)
  else
    let w := set_isLocked w false in
    w <- logWalletActivity w WalletOperation.RETRIEVE_CREDENTIAL None
           ActivityResult.SUCCESS "Wallet unlocked" ;;
    t <- newDate clock ;;
    ret ({| success := true; message := "Wallet unlocked successfully";
            data := None; errors := None; timestamp := t |}, w).

Definition storeCredential (w : t) (credential : DigitalCredential) : M (Result * t) :=
  if isLocked w then
    t <- newDate clock ;;
    ret ({| success := false; message := "Wallet is locked";
            data := None; errors := None; timestamp := t |}, w)
  else if negb (validateInput (Some credential)) then
    t <- newDate clock ;;
    ret ({| success := false; message := "Invalid credential data";
            data := None; errors := None; timestamp := t |}, w)
  else
    proofValidation <- verifyCredentialProof credential ;;
    if negb (success proofValidation) then
      w <- logWalletActivity w WalletOperation.STORE_CREDENTIAL
             (Some (dc_credentialId credential)) ActivityResult.FAILURE
             "Proof verification failed" ;;
      ret (proofValidation, w)
    else
      let w := set_credentials w
                 (JsMap.set (credentials w) (dc_credentialId credential) credential) in
      w <- logWalletActivity w WalletOperation.STORE_CREDENTIAL
             (Some (dc_credentialId credential)) ActivityResult.SUCCESS
             "Credential stored" ;;
      t <- newDate clock ;;
      ret ({| success := true; message := "Credential stored successfully";
              data := Some (StoredData (dc_credentialId credential));
              errors := None; timestamp := t |}, w).

Definition retrieveCredential (w : t) (credentialId : string) : M (Result * t) :=
  if isLocked w then
    t <- newDate clock ;;
    ret ({| success := false; message := "Wallet is locked";
            data := None; errors := None; timestamp := t |}, w)
  else
    match JsMap.get (credentials w) credentialId with
    | None =>
        w <- logWalletActivity w WalletOperation.RETRIEVE_CREDENTIAL (Some credentialId)
               ActivityResult.FAILURE "Credential not found" ;;
        t <- newDate clock ;;
        ret ({| success := false; message := "Credential not found";
                data := None; errors := None; timestamp := t |}, w)
    | Some credential =>
        if negb (bool_decide (dc_status credential = CredentialStatus.ACTIVE)) then
          w <- logWalletActivity w WalletOperation.RETRIEVE_CREDENTIAL (Some credentialId)
                 ActivityResult.FAILURE
                 ("Credential status: " +:+ CredentialStatus.toString (dc_status credential)) ;;
          t <- newDate clock ;;
          ret ({| success := false;
                  message := "Credential is "
                               +:+ CredentialStatus.toLowerCase (dc_status credential);
                  data := None; errors := None; timestamp := t |}, w)
        else
          w <- logWalletActivity w WalletOperation.RETRIEVE_CREDENTIAL (Some credentialId)
                 ActivityResult.SUCCESS "Credential retrieved" ;;
          t <- newDate clock ;;
          ret ({| success := true; message := "Credential retrieved successfully";
                  data := Some (RetrievedData credential);
                  errors := None; timestamp := t |}, w)
    end.

(** The body of the loop of [presentCredentials] for one identifier:
    the credential it pushes, or the error it pushes. *)
Definition presentOne (w : t) (credentialId : string) : DigitalCredential + string :=
  match JsMap.get (credentials w) credentialId with
  | None => inr ("Credential " +:+ credentialId +:+ " not found")
  | Some credential =>
      if negb (bool_decide (dc_status credential = CredentialStatus.ACTIVE))
      then inr ("Credential " +:+ credentialId +:+ " is "
                  +:+ CredentialStatus.toLowerCase (dc_status credential))
      else inl credential
  end.

(** [credentialIds.join(',')] *)
Fixpoint join (l : list string) : string :=
  match l with
  | [] => ""
  | [x] => x
  | x :: l' => x +:+ "," +:+ join l'
  end.

(** [presentCredentials(credentialIds, presentationRequest)]; the
    request is not used. *)
Definition presentCredentials (w : t) (credentialIds : list string) : M (Result * t) :=
  if isLocked w then
    t <- newDate clock ;;
    ret ({| success := false; message := "Wallet is locked";
            data := None; errors := None; timestamp := t |}, w)
  else
    let outcomes := map (presentOne w) credentialIds in
    let presentedCredentials := omap (fun o => match o with inl c => Some c | inr _ => None end)
                                  outcomes in
    let errors := omap (fun o => match o with inl _ => None | inr e => Some e end)
                    outcomes in
    if (0 <? length errors)%nat then
      t <- newDate clock ;;
      ret ({| success := false; message := "Credential presentation failed";
              data := None; errors := Some errors; timestamp := t |}, w)
    else
      w <- logWalletActivity w WalletOperation.PRESENT_CREDENTIAL
             (Some (join credentialIds)) ActivityResult.SUCCESS "Credentials presented" ;;
      ms <- newDate clock ;;
      t <- newDate clock ;;
      ret ({| success := true; message := "Credentials presented successfully";
              data := Some (PresentationData presentedCredentials ("PRES-" +:+ pretty ms));
              errors := None; timestamp := t |}, w).

End WithEffects.

(** The operations of a wallet, and the wallets that a sequence of
    operations on a constructed wallet can produce. *)
Inductive reachable : t -> Prop :=
| reach_constructor walletId ownerId walletType name assuranceLevel :
    reachable (constructor walletId ownerId walletType name assuranceLevel)
| reach_executeProcess clock w k :
    reachable w -> reachable (snd (fst (executeProcess clock w k)))
| reach_unlockWallet clock random w proof k :
    reachable w -> reachable (snd (fst (unlockWallet clock random w proof k)))
| reach_storeCredential clock random w credential k :
    reachable w -> reachable (snd (fst (storeCredential clock random w credential k)))
| reach_retrieveCredential clock random w credentialId k :
    reachable w -> reachable (snd (fst (retrieveCredential clock random w credentialId k)))
| reach_presentCredentials clock random w credentialIds k :
    reachable w -> reachable (snd (fst (presentCredentials clock random w credentialIds k)))
| reach_getActivityLog w limit :
    reachable w -> reachable (snd (getActivityLog w limit)).

End DigitalWallet.

(** ** Specification-side views of the wallet *)

Module WalletSpec.

(** An authentication proof that unlocks: an object with a non-empty
    type and a non-empty value. *)
Definition unlocks (proof : option AuthenticationProof) : Prop :=
  exists p, proof = Some p /\ ap_type p <> "" /\ ap_value p <> "".

(** A credential that the wallet accepts for storage: its proof has a
    signature and a verification method. *)
Definition wellProved (c : DigitalCredential) : Prop :=
  cp_signature (dc_proof c) <> "" /\ cp_verificationMethod (dc_proof c) <> "".

(** The stored credential can be handed out. *)
Definition available (w : DigitalWallet.t) (credentialId : string) : bool :=
  match JsMap.get (DigitalWallet.credentials w) credentialId with
  | Some c => bool_decide (dc_status c = CredentialStatus.ACTIVE)
  | None => false
  end.

(** The credential has an expiration date before [now]. *)
Definition expiredAt (now : Date) (c : DigitalCredential) : bool :=
  match dc_expirationDate c with
  | Some d => d <? now
  | None => false
  end.

(** What the credential check of [executeProcess] makes of a credential
    at [now]. *)
Definition checkedAt (now : Date) (c : DigitalCredential) : DigitalCredential :=
  if expiredAt now c then set_credentialStatus c CredentialStatus.EXPIRED else c.

(** The configuration that the security check of [executeProcess]
    rejects. *)
Definition insecure (w : DigitalWallet.t) : bool :=
  bool_decide (DigitalWallet.walletType w = WalletType.HARDWARE)
  && (bool_decide (DigitalWallet.assuranceLevel w = AssuranceLevel.LOA3)
      || bool_decide (DigitalWallet.assuranceLevel w = AssuranceLevel.LOA4)).

(** Every key of the credential map is the identifier of its
    credential. *)
Definition wellKeyed (w : DigitalWallet.t) : Prop :=
  Forall (fun kv => fst kv = dc_credentialId (snd kv)) (DigitalWallet.credentials w).

(** The activity records a failed attempt to unlock. *)
Definition failedUnlock (a : WalletActivity) : Prop :=
  wa_operation a = WalletOperation.RETRIEVE_CREDENTIAL
  /\ wa_credentialId a = None
  /\ wa_result a = ActivityResult.FAILURE.

(** The requested identifiers that cannot be presented. *)
Definition offending (w : DigitalWallet.t) (credentialIds : list string) : list string :=
  List.filter (fun id => negb (available w id)) credentialIds.

(** No activity is followed by a more recent one. *)
Fixpoint newestFirst (l : list WalletActivity) : Prop :=
  match l with
  | [] => True
  | a :: l' => Forall (fun b => wa_timestamp b <= wa_timestamp a) l' /\ newestFirst l'
  end.

(** The activities with time stamp [t], in the order of the list. *)
Definition stampedAt (t : Date) (l : list WalletActivity) : list WalletActivity :=
  List.filter (fun a => wa_timestamp a =? t) l.

End WalletSpec.

(** ** Sample wallets *)

Module WalletSample.

Definition noDraw : nat -> string := fun _ => "k3x9q2m1z".

Definition proof : CredentialProof :=
  {| cp_type := "RsaSignature2018"; cp_created := Sample.t0;
     cp_verificationMethod := "https://example.com/keys/1";
     cp_signature := "sample-signature"; cp_nonce := None |}.

Definition metadata : CredentialMetadata :=
  {| cm_schemaId := "https://schema.org/Person"; cm_version := "1.0";
     cm_trustFramework := "DIACC-PCTF"; cm_assuranceLevel := AssuranceLevel.LOA2;
     cm_revocationMethod := None |}.

Definition credential (id : string) (st : CredentialStatus.t) (expiration : option Date)
  : DigitalCredential :=
  {| dc_credentialId := id; dc_issuer := "ASP-001"; dc_subject := "USER-001";
     dc_type := ["IdentityCredential"]; dc_issuanceDate := Sample.t0;
     dc_expirationDate := expiration; dc_status := st;
     dc_claims := [("name", "John Doe")]; dc_proof := proof; dc_metadata := metadata |}.

Definition auth : option AuthenticationProof :=
  Some {| ap_type := "biometric"; ap_value := "valid-proof" |}.

Definition locked : DigitalWallet.t :=
  DigitalWallet.constructor "WALLET-001" "OWNER-1" WalletType.CLOUD "Wallet"
    AssuranceLevel.LOA2.

(** The wallet after a successful unlock at [t0]. *)
Definition unlocked : DigitalWallet.t :=
  snd (fst (DigitalWallet.unlockWallet (Sample.frozen Sample.t0) noDraw locked auth 0%nat)).

(** The unlocked wallet after storing one credential at [t0]. *)
Definition holding (c : DigitalCredential) : DigitalWallet.t :=
  snd (fst (DigitalWallet.storeCredential (Sample.frozen Sample.t0) noDraw unlocked c 0%nat)).

End WalletSample.

(** * Properties *)

(** ** The clock monad and the list traversals *)

Ltac unfold_M := unfold bind, ret, newDate in *.

Lemma bind_run {A B : Type} (m : M A) (f : A -> M B) (k : nat) :
  bind m f k = f (fst (m k)) (snd (m k)).
Proof. unfold bind. destruct (m k). reflexivity. Qed.

Lemma filterM_ticks {A : Type} (p : A -> M bool) (l : list A) (k : nat) :
  (forall x j, (j <= snd (p x j))%nat) ->
  (k <= snd (filterM p l k))%nat.
Proof.
  intros Hp. revert k.
  induction l as [|x l IH]; intros k; cbn [filterM]; unfold_M; cbn.
  - lia.
  - specialize (Hp x k). destruct (p x k) as [b k1]. cbn in Hp.
    specialize (IH k1). destruct (filterM p l k1) as [r k2]. cbn in *. lia.
Qed.

(** A property that [f] establishes for each element holds of the whole
    result of [mapM f]. *)
Lemma mapM_Forall {A B : Type} (f : A -> M B) (Q : B -> Prop) (l : list A) (k : nat) :
  (forall x j, Q (fst (f x j))) ->
  Forall Q (fst (mapM f l k)).
Proof.
  intros Hf. revert k.
  induction l as [|x l IH]; intros k; cbn [mapM]; unfold_M; cbn.
  - constructor.
  - specialize (Hf x k). destruct (f x k) as [y k1]. specialize (IH k1).
    destruct (mapM f l k1) as [r k2]. cbn in *. constructor; assumption.
Qed.

(** [mapM f] relates the elements pairwise. *)
Lemma mapM_Forall2 {A B : Type} (f : A -> M B) (R : A -> B -> Prop) (l : list A) (k : nat) :
  (forall x j, R x (fst (f x j))) ->
  Forall2 R l (fst (mapM f l k)).
Proof.
  intros Hf. revert k.
  induction l as [|x l IH]; intros k; cbn [mapM]; unfold_M; cbn.
  - constructor.
  - specialize (Hf x k). destruct (f x k) as [y k1]. specialize (IH k1).
    destruct (mapM f l k1) as [r k2]. cbn in *. constructor; assumption.
Qed.

(** ** The scoring function *)

Section Scoring.
Variable clock : Clock.

Lemma isActiveCert_ticks cert j :
  (j <= snd (Registry.isActiveCert clock cert j))%nat.
Proof.
  unfold Registry.isActiveCert. case_bool_decide; unfold_M; cbn; [|lia].
  destruct (tc_expirationDate cert); cbn; lia.
Qed.

(** While the clock stands at [now], the monadic filter of the code is
    the filter by "ACTIVE and not expired at [now]". *)
Lemma activeCerts_frozen now certs k :
  (forall i, (k <= i)%nat -> clock i = now) ->
  fst (filterM (Registry.isActiveCert clock) certs k)
  = List.filter (Registry.activeAt now) certs.
Proof.
  revert k. induction certs as [|c certs IH]; intros k Hfrozen; cbn [filterM List.filter].
  - reflexivity.
  - unfold bind at 1.
    pose proof (isActiveCert_ticks c k) as Hk.
    assert (Hc : fst (Registry.isActiveCert clock c k) = Registry.activeAt now c).
    { unfold Registry.isActiveCert, Registry.activeAt.
      case_bool_decide; cbn; [|reflexivity].
      destruct (tc_expirationDate c); unfold_M; cbn; [|reflexivity].
      rewrite Hfrozen by lia. reflexivity. }
    destruct (Registry.isActiveCert clock c k) as [b k1]. cbn in Hk, Hc. subst b.
    unfold bind at 1.
    assert (IH' := IH k1 (fun i Hi => Hfrozen i ltac:(lia))).
    destruct (filterM (Registry.isActiveCert clock) certs k1) as [r k2].
    cbn in IH'. subst r. unfold ret. cbn.
    destruct (Registry.activeAt now c); reflexivity.
Qed.

Lemma calculateTrustScore_range entry k :
  0 <= fst (Registry.calculateTrustScore clock entry k) <= 100.
Proof.
  unfold Registry.calculateTrustScore. unfold_M.
  destruct (filterM _ _ k) as [activeCerts k1]. cbn. lia.
Qed.
End Scoring.

(** C1: while the clock stands at the instant [now], the score that
    [calculateTrustScore] returns for an entry is the specification's
    formula: 50, plus the status bonus, plus the assurance bonus, plus
    min(5 * activeCertCount, 20), plus 5 when the whole days since
    registration exceed 365, minus 5 when the whole days since the last
    verification exceed 90, clamped to [0, 100]. *)
Theorem calculateTrustScore_formula (clock : Clock) (now : Date)
    (entry : TrustRegistryEntry) (k : nat) :
  (forall i, (k <= i)%nat -> clock i = now) ->
  fst (Registry.calculateTrustScore clock entry k) = Registry.score_spec now entry.
Proof.
  intros Hfrozen.
  unfold Registry.calculateTrustScore, Registry.score_spec, Registry.activeCertCount,
    Registry.wholeDaysSince, Registry.clamp.
  unfold bind at 1.
  pose proof (activeCerts_frozen clock now (e_certifications entry) k Hfrozen) as Hcerts.
  pose proof (filterM_ticks (Registry.isActiveCert clock) (e_certifications entry) k
                (isActiveCert_ticks clock)) as Hk.
  destruct (filterM (Registry.isActiveCert clock) (e_certifications entry) k)
    as [activeCerts k1].
  cbn in Hcerts, Hk. subst activeCerts. unfold_M. cbn.
  rewrite !Hfrozen by lia.
  change Registry.MS_PER_DAY with 86400000.
  set (n := Z.of_nat _).
  destruct (e_status entry), (e_assuranceLevel entry);
    cbn [Registry.statusBonus Registry.assuranceBonus];
    destruct (365 <? _), (90 <? _); f_equal; lia.
Qed.

Lemma calculateTrustScore_formula_witness :
  (forall i, (0 <= i)%nat -> Sample.frozen Sample.t1 i = Sample.t1)
  /\ fst (Registry.calculateTrustScore (Sample.frozen Sample.t1)
            (Sample.entry "P1" TrustStatus.TRUSTED None 0) 0%nat)
     = Registry.score_spec Sample.t1 (Sample.entry "P1" TrustStatus.TRUSTED None 0).
Proof.
  split; [intros; reflexivity|].
  apply calculateTrustScore_formula. intros; reflexivity.
Defined.

(** ** The insertion-ordered map *)

Section JsMapFacts.
Context {V : Type}.
Implicit Types (m : list (string * V)) (k : string) (v : V).

Lemma get_set_eq m k v : JsMap.get (JsMap.set m k v) k = Some v.
Proof.
  induction m as [|[k' v'] m IH]; cbn.
  - rewrite String.eqb_refl. reflexivity.
  - destruct (String.eqb_spec k' k) as [->|Hne]; cbn.
    + rewrite String.eqb_refl. reflexivity.
    + destruct (String.eqb_spec k' k); [contradiction|]. exact IH.
Qed.

Lemma get_set_ne m k k' v : k <> k' -> JsMap.get (JsMap.set m k v) k' = JsMap.get m k'.
Proof.
  intros Hkk'. induction m as [|[k0 v0] m IH]; cbn.
  - destruct (String.eqb_spec k k'); [contradiction|]. reflexivity.
  - destruct (String.eqb_spec k0 k) as [->|Hne]; cbn.
    + destruct (String.eqb_spec k k'); [contradiction|]. reflexivity.
    + rewrite IH. reflexivity.
Qed.

Lemma get_Some_In m k v : JsMap.get m k = Some v -> In (k, v) m.
Proof.
  induction m as [|[k' v'] m IH]; cbn; [discriminate|].
  destruct (String.eqb_spec k' k) as [->|Hne]; intros H.
  - injection H as ->. left. reflexivity.
  - right. apply IH, H.
Qed.

Lemma set_Forall (Q : string * V -> Prop) m k v :
  Forall Q m -> (forall k', Q (k', v)) -> Forall Q (JsMap.set m k v).
Proof.
  intros Hm Hv. induction Hm as [|[k' v'] m Hx Hm IH]; cbn.
  - constructor; [apply Hv | constructor].
  - destruct (String.eqb k' k); constructor; auto.
Qed.

Lemma get_Forall (Q : string * V -> Prop) m k v :
  Forall Q m -> JsMap.get m k = Some v -> Q (k, v).
Proof.
  intros Hm Hget. apply get_Some_In in Hget.
  rewrite Forall_forall in Hm. apply Hm. apply list_elem_of_In. exact Hget.
Qed.
End JsMapFacts.

Lemma mapM_Forall_preserved {A : Type} (f : A -> M A) (Q : A -> Prop) (l : list A) (k : nat) :
  (forall x j, Q x -> Q (fst (f x j))) ->
  Forall Q l -> Forall Q (fst (mapM f l k)).
Proof.
  intros Hf Hl. revert k.
  induction Hl as [|x l Hx Hl IH]; intros k; cbn [mapM]; unfold_M; cbn.
  - constructor.
  - specialize (Hf x k Hx). destruct (f x k) as [y k1]. specialize (IH k1).
    destruct (mapM f l k1) as [r k2]. cbn in *. constructor; assumption.
Qed.

(** ** The clamp invariant of the stored scores *)

Lemma updateTrustScores_range clock entries k :
  Forall scoreInRange (fst (Registry.updateTrustScores clock entries k)).
Proof.
  apply mapM_Forall. intros [id e] j.
  unfold Registry.updateTrustScore, scoreInRange. rewrite bind_run.
  pose proof (calculateTrustScore_range clock e j) as Hr.
  destruct (Registry.calculateTrustScore clock e j) as [newScore j1]. cbn in Hr.
  cbn [fst snd].
  destruct (Z.eqb_spec newScore (e_trustScore e)) as [Heq|Hne]; cbn.
  - rewrite <- Heq. exact Hr.
  - exact Hr.
Qed.

Lemma processExpiredEntries_range clock entries k :
  Forall scoreInRange entries ->
  Forall scoreInRange (fst (Registry.processExpiredEntries clock entries k)).
Proof.
  intros H. unfold Registry.processExpiredEntries. unfold_M. cbn.
  apply mapM_Forall_preserved; [|exact H].
  intros [id e] j He. unfold Registry.processExpiredEntry, scoreInRange in *.
  destruct (_ && _); cbn; exact He.
Qed.

(** ** What each registry operation does to the state *)

Lemma registerParticipant_cases clock r entry k :
  let out := fst (Registry.registerParticipant clock r entry k) in
  (success (fst out) = false /\ snd out = r)
  \/ (success (fst out) = true
      /\ Registry.validateInput entry = true
      /\ JsMap.has (trustEntries r) (e_participantId entry) = false
      /\ exists score,
           0 <= score <= 100
           /\ data (fst out) = Some (RegisteredData (e_participantId entry) score)
           /\ snd out = set_trustEntries r
                          (JsMap.set (trustEntries r) (e_participantId entry)
                             (set_trustScore entry score))).
Proof.
  unfold Registry.registerParticipant.
  destruct (Registry.validateInput entry) eqn:Hvalid; cbn [negb].
  2: { left. unfold_M. cbn. auto. }
  destruct (JsMap.has _ _) eqn:Hhas.
  { left. unfold_M. cbn. auto. }
  rewrite bind_run.
  destruct (success (fst (Registry.validateCertifications clock _ k))) eqn:Hcv; cbn [negb].
  2: { left. unfold ret. cbn. auto. }
  right. rewrite bind_run.
  pose proof (calculateTrustScore_range clock entry
                (snd (Registry.validateCertifications clock (e_certifications entry) k)))
    as Hr.
  destruct (Registry.calculateTrustScore clock entry _) as [score k2]. cbn in Hr.
  unfold Registry.logActivity. unfold_M. cbn.
  repeat split; eauto.
Qed.

Lemma updateParticipantStatus_cases clock r participantId newStatus reason k :
  let out := fst (Registry.updateParticipantStatus clock r participantId newStatus reason k) in
  (success (fst out) = false /\ snd out = r
   /\ JsMap.get (trustEntries r) participantId = None)
  \/ (success (fst out) = true
      /\ exists entry score,
           JsMap.get (trustEntries r) participantId = Some entry
           /\ 0 <= score <= 100
           /\ data (fst out)
              = Some (StatusData participantId (e_status entry) newStatus score)
           /\ snd out = set_trustEntries r
                          (JsMap.set (trustEntries r) participantId
                             (set_trustScore
                                (set_lastVerified (set_status entry newStatus) (clock k))
                                score))).
Proof.
  unfold Registry.updateParticipantStatus.
  destruct (JsMap.get (trustEntries r) participantId) as [entry|] eqn:Hget.
  2: { left. unfold_M. cbn. auto. }
  right. rewrite bind_run. cbn [newDate fst snd]. rewrite bind_run.
  pose proof (calculateTrustScore_range clock
                (set_lastVerified (set_status entry newStatus) (clock k)) (S k)) as Hr.
  destruct (Registry.calculateTrustScore clock _ (S k)) as [score k2]. cbn in Hr.
  unfold Registry.logActivity. unfold_M. cbn.
  split; [reflexivity|]. exists entry, score. auto.
Qed.

Lemma verifyTrust_entries clock r request k :
  trustEntries (snd (fst (Registry.verifyTrust clock r request k))) = trustEntries r.
Proof.
  unfold Registry.verifyTrust.
  destruct (JsMap.get _ _) as [entry|]; [|reflexivity].
  rewrite bind_run. unfold Registry.logActivity. unfold_M. reflexivity.
Qed.

Lemma validateRegistryIntegrity_result clock r k :
  let issues := fst (Registry.integrityIssues clock (trustEntries r) k) in
  let res := fst (Registry.validateRegistryIntegrity clock r k) in
  (issues = [] /\ success res = true)
  \/ (issues <> [] /\ success res = false /\ errors res = Some issues).
Proof.
  cbn zeta. unfold Registry.validateRegistryIntegrity. rewrite bind_run.
  destruct (fst (Registry.integrityIssues clock (trustEntries r) k)) as [|issue issues].
  - left. unfold_M. cbn. auto.
  - right. unfold Registry.logActivity. unfold_M. cbn. repeat split. discriminate.
Qed.

Lemma executeProcess_cases clock r k :
  let out := fst (Registry.executeProcess clock r k) in
  (success (fst out) = false
   /\ snd out = set_processStatus r ProcessStatus.FAILED
   /\ fst (Registry.integrityIssues clock (trustEntries r) (S k)) <> []
   /\ errors (fst out) = Some (fst (Registry.integrityIssues clock (trustEntries r) (S k))))
  \/ (success (fst out) = true
      /\ fst (Registry.integrityIssues clock (trustEntries r) (S k)) = []
      /\ verificationHistory (snd out) = verificationHistory r
      /\ exists k1 k2,
           trustEntries (snd out)
           = fst (Registry.processExpiredEntries clock
                    (fst (Registry.updateTrustScores clock (trustEntries r) k1)) k2)).
Proof.
  unfold Registry.executeProcess.
  rewrite bind_run. cbn [Registry.logActivity bind newDate ret fst snd].
  rewrite bind_run.
  pose proof (validateRegistryIntegrity_result clock
                (set_processStatus r ProcessStatus.IN_PROGRESS) (S k)) as Hres.
  cbn zeta in Hres. cbn [trustEntries set_processStatus] in Hres.
  destruct Hres as [(Hnil & Hsucc)|(Hissues & Hsucc & Herr)]; rewrite Hsucc; cbn [negb].
  - right. rewrite !bind_run. unfold Registry.logActivity. unfold_M. cbn.
    split; [reflexivity|]. split; [exact Hnil|]. split; [reflexivity|]. eauto.
  - left. unfold ret. cbn. auto.
Qed.

Lemma reachable_scores_in_range r :
  Registry.reachable r -> Forall scoreInRange (trustEntries r).
Proof.
  induction 1 as [registryId name gf al
                 | clock k r Hr IH
                 | clock k r entry Hr IH
                 | clock k r request Hr IH
                 | clock k r participantId newStatus reason Hr IH].
  - constructor.
  - destruct (executeProcess_cases clock r k) as [(_ & -> & _)|(_ & _ & _ & k1 & k2 & ->)].
    + exact IH.
    + apply processExpiredEntries_range, updateTrustScores_range.
  - destruct (registerParticipant_cases clock r entry k)
      as [(_ & ->)|(_ & _ & _ & score & Hs & _ & ->)].
    + exact IH.
    + cbn [trustEntries set_trustEntries]. apply set_Forall; [exact IH|].
      intros k'. exact Hs.
  - rewrite verifyTrust_entries. exact IH.
  - destruct (updateParticipantStatus_cases clock r participantId newStatus reason k)
      as [(_ & -> & _)|(_ & entry & score & _ & Hs & _ & ->)].
    + exact IH.
    + cbn [trustEntries set_trustEntries]. apply set_Forall; [exact IH|].
      intros k'. exact Hs.
Qed.

(** C2: the scoring function returns a value in [0, 100] for every
    entry and every clock; the entry stored by a successful
    [registerParticipant] and the entry rewritten by a successful
    [updateParticipantStatus] carry a score in [0, 100]; after the
    sweep's score update, and after a successful sweep, every entry
    does; and every entry of every registry state that the public
    operations produce does. *)
Theorem trustScore_clamp_invariant :
  (forall clock entry k,
     0 <= fst (Registry.calculateTrustScore clock entry k) <= 100)
  /\ (forall clock r entry k,
        let out := fst (Registry.registerParticipant clock r entry k) in
        success (fst out) = true ->
        exists e, Registry.getTrustEntry (snd out) (e_participantId entry) = Some e
                  /\ 0 <= e_trustScore e <= 100)
  /\ (forall clock r participantId newStatus reason k,
        let out := fst (Registry.updateParticipantStatus clock r participantId
                          newStatus reason k) in
        success (fst out) = true ->
        exists e, Registry.getTrustEntry (snd out) participantId = Some e
                  /\ e_status e = newStatus
                  /\ 0 <= e_trustScore e <= 100)
  /\ (forall clock entries k,
        Forall scoreInRange (fst (Registry.updateTrustScores clock entries k)))
  /\ (forall clock r k,
        let out := fst (Registry.executeProcess clock r k) in
        success (fst out) = true ->
        Forall scoreInRange (trustEntries (snd out)))
  /\ (forall r, Registry.reachable r ->
        forall participantId e,
          Registry.getTrustEntry r participantId = Some e ->
          0 <= e_trustScore e <= 100).
Proof.
  split; [exact calculateTrustScore_range|].
  split.
  { intros clock r entry k out Hsucc. subst out.
    destruct (registerParticipant_cases clock r entry k)
      as [(Hf & _)|(_ & _ & _ & score & Hs & _ & Hout)]; [congruence|].
    rewrite Hout. unfold Registry.getTrustEntry. cbn [trustEntries set_trustEntries].
    rewrite get_set_eq. eexists. split; [reflexivity|]. exact Hs. }
  split.
  { intros clock r participantId newStatus reason k out Hsucc. subst out.
    destruct (updateParticipantStatus_cases clock r participantId newStatus reason k)
      as [(Hf & _)|(_ & entry & score & _ & Hs & _ & Hout)]; [congruence|].
    rewrite Hout. unfold Registry.getTrustEntry. cbn [trustEntries set_trustEntries].
    rewrite get_set_eq. eexists. split; [reflexivity|]. split; [reflexivity|]. exact Hs. }
  split; [exact updateTrustScores_range|].
  split.
  { intros clock r k out Hsucc. subst out.
    destruct (executeProcess_cases clock r k)
      as [(Hf & _)|(_ & _ & _ & k1 & k2 & ->)]; [congruence|].
    apply processExpiredEntries_range, updateTrustScores_range. }
  intros r Hr participantId e Hget.
  apply (get_Forall scoreInRange _ _ _ (reachable_scores_in_range r Hr) Hget).
Qed.

Lemma trustScore_clamp_invariant_witness :
  let out := fst (Registry.registerParticipant (Sample.frozen Sample.t1)
                    Sample.emptyRegistry (Sample.entry "P1" TrustStatus.TRUSTED None 0)
                    0%nat) in
  success (fst out) = true
  /\ exists e, Registry.getTrustEntry (snd out) "P1" = Some e
               /\ 0 <= e_trustScore e <= 100.
Proof.
  split; [reflexivity|].
  apply (proj1 (proj2 trustScore_clamp_invariant) (Sample.frozen Sample.t1)
           Sample.emptyRegistry (Sample.entry "P1" TrustStatus.TRUSTED None 0) 0%nat).
  reflexivity.
Defined.

(** ** The verification decision *)

Lemma performTrustVerification_trustStatus clock entry request k :
  let vr := fst (Registry.performTrustVerification clock entry request k) in
  vr_trustStatus vr
  = Registry.trustStatus_spec (failed (vr_verificationDetails vr)) (e_status entry).
Proof.
  unfold Registry.performTrustVerification, Registry.trustStatus_spec.
  case_bool_decide as Hst;
    rewrite bind_run;
    destruct (0 <? length (fst (filterM _ _ k)))%nat;
    destruct (70 <=? e_trustScore entry);
    destruct (50 <=? e_trustScore entry);
    unfold_M; cbn;
    repeat case_bool_decide; try reflexivity; try contradiction; try congruence.
Qed.

(** C3: for an entry that [verifyTrust] finds, the call succeeds and the
    [trustStatus] of the result it returns is: TRUSTED, downgraded to
    PROVISIONAL when the result's [failed] list is not empty, then
    replaced by the persisted [entry.status] when that is not TRUSTED.
    So a persisted status other than TRUSTED always is the result, and a
    SUSPENDED entry verifies as SUSPENDED whatever its score and
    certifications. *)
Theorem verifyTrust_trustStatus clock r request k entry :
  Registry.getTrustEntry r (rq_participantId request) = Some entry ->
  let res := fst (fst (Registry.verifyTrust clock r request k)) in
  success res = true
  /\ exists vr,
       data res = Some (VerificationData vr)
       /\ vr_trustStatus vr
          = Registry.trustStatus_spec (failed (vr_verificationDetails vr)) (e_status entry)
       /\ (e_status entry <> TrustStatus.TRUSTED -> vr_trustStatus vr = e_status entry)
       /\ (e_status entry = TrustStatus.SUSPENDED ->
           vr_trustStatus vr = TrustStatus.SUSPENDED).
Proof.
  unfold Registry.getTrustEntry. intros Hget. cbn zeta.
  unfold Registry.verifyTrust. rewrite Hget. rewrite bind_run.
  pose proof (performTrustVerification_trustStatus clock entry request k) as Hvr.
  cbn zeta in Hvr.
  set (vr := fst (Registry.performTrustVerification clock entry request k)) in *.
  unfold Registry.logActivity. unfold_M. cbn.
  split; [reflexivity|]. exists vr. split; [reflexivity|]. split; [exact Hvr|].
  assert (Hover : e_status entry <> TrustStatus.TRUSTED -> vr_trustStatus vr = e_status entry).
  { intros Hne. rewrite Hvr. unfold Registry.trustStatus_spec.
    case_bool_decide; [reflexivity | contradiction]. }
  split; [exact Hover|].
  intros Hs. rewrite Hover; [exact Hs | congruence].
Qed.

Lemma verifyTrust_trustStatus_witness :
  Registry.getTrustEntry
    (Sample.registryWith (Sample.entry "P1" TrustStatus.SUSPENDED None 100)) "P1"
  = Some (Sample.entry "P1" TrustStatus.SUSPENDED None 100)
  /\ let res := fst (fst (Registry.verifyTrust (Sample.frozen Sample.t1)
                            (Sample.registryWith
                               (Sample.entry "P1" TrustStatus.SUSPENDED None 100))
                            (Sample.request "P1") 0%nat)) in
     success res = true
     /\ exists vr,
          data res = Some (VerificationData vr)
          /\ vr_trustStatus vr
             = Registry.trustStatus_spec (failed (vr_verificationDetails vr))
                 TrustStatus.SUSPENDED
          /\ (TrustStatus.SUSPENDED <> TrustStatus.TRUSTED ->
              vr_trustStatus vr = TrustStatus.SUSPENDED)
          /\ (TrustStatus.SUSPENDED = TrustStatus.SUSPENDED ->
              vr_trustStatus vr = TrustStatus.SUSPENDED).
Proof.
  split; [reflexivity|].
  apply (verifyTrust_trustStatus (Sample.frozen Sample.t1)
           (Sample.registryWith (Sample.entry "P1" TrustStatus.SUSPENDED None 100))
           (Sample.request "P1") 0%nat
           (Sample.entry "P1" TrustStatus.SUSPENDED None 100)).
  reflexivity.
Defined.

(** ** The integrity gate of the sweep *)

Lemma mapM_ticks {A B : Type} (f : A -> M B) (l : list A) (k : nat) :
  (forall x j, (j <= snd (f x j))%nat) ->
  (k <= snd (mapM f l k))%nat.
Proof.
  intros Hf. revert k.
  induction l as [|x l IH]; intros k; cbn [mapM].
  - cbn. lia.
  - rewrite !bind_run. cbn [ret snd].
    specialize (Hf x k). specialize (IH (snd (f x k))). lia.
Qed.

(** When [f] reports something for every element that [hit] selects,
    and some element of [l] is selected, the concatenated reports of
    [mapM f l] are not empty. *)
Lemma mapM_concat_nonempty {A B : Type} (f : A -> M (list B)) (hit : A -> bool)
    (l : list A) (k : nat) :
  (forall x j, (j <= snd (f x j))%nat) ->
  (forall x j, (k <= j)%nat -> hit x = true -> fst (f x j) <> []) ->
  existsb hit l = true ->
  concat (fst (mapM f l k)) <> [].
Proof.
  intros Hticks. revert k.
  induction l as [|x l IH]; intros k Hhit Hex; cbn [existsb] in Hex; [discriminate|].
  cbn [mapM]. rewrite !bind_run. cbn [ret fst concat].
  destruct (hit x) eqn:Hx.
  - specialize (Hhit x k (le_n k) Hx).
    destruct (fst (f x k)); [contradiction | discriminate].
  - cbn in Hex. intros Happ. apply app_eq_nil in Happ as [_ Hrest].
    revert Hrest. apply IH; [|exact Hex].
    intros y j Hj. apply Hhit. specialize (Hticks x k). lia.
Qed.

Section IntegrityCheck.
Variable clock : Clock.

Lemma expiredCertIssue_ticks id cert j :
  (j <= snd (Registry.expiredCertIssue clock id cert j))%nat.
Proof.
  unfold Registry.expiredCertIssue. destruct (tc_expirationDate cert); unfold_M; cbn; lia.
Qed.

Lemma entryIssues_ticks kv j :
  (j <= snd (Registry.entryIssues clock kv j))%nat.
Proof.
  destruct kv as [id e]. unfold Registry.entryIssues. rewrite !bind_run. cbn [ret snd].
  pose proof (mapM_ticks (Registry.expiredCertIssue clock id) (e_certifications e)) as Hm.
  match goal with |- (_ <= snd (mapM _ _ ?k1))%nat =>
    specialize (Hm k1 (expiredCertIssue_ticks id)); assert (j <= k1)%nat; [|lia] end.
  destruct (e_expirationDate e); unfold_M; cbn; lia.
Qed.

Lemma entryIssues_nonempty now id e j :
  (forall i, (j <= i)%nat -> clock i = now) ->
  Registry.integrityIssueAt now e = true ->
  fst (Registry.entryIssues clock (id, e) j) <> [].
Proof.
  intros Hfrozen Hissue. unfold Registry.entryIssues. rewrite !bind_run. cbn [ret fst].
  unfold Registry.integrityIssueAt in Hissue.
  apply orb_true_iff in Hissue as [Hissue|Hscore].
  - apply orb_true_iff in Hissue as [Hentry|Hcert].
    + unfold Registry.expiredAt in Hentry.
      destruct (e_expirationDate e) as [d|]; [|discriminate].
      unfold_M. cbn. rewrite Hfrozen by lia. rewrite Hentry. discriminate.
    + intros Happ. apply app_eq_nil in Happ as [_ Happ].
      apply app_eq_nil in Happ as [Hcerts _]. revert Hcerts.
      apply (mapM_concat_nonempty _
               (fun cert => Registry.expiredAt now (tc_expirationDate cert)));
        [apply expiredCertIssue_ticks | | exact Hcert].
      intros cert i Hi Hexp. unfold Registry.expiredCertIssue, Registry.expiredAt in *.
      destruct (tc_expirationDate cert) as [d|]; [|discriminate].
      unfold_M. cbn. rewrite Hfrozen.
      * rewrite Hexp. discriminate.
      * destruct (e_expirationDate e); cbn in Hi; lia.
  - rewrite Hscore. intros Happ. apply app_eq_nil in Happ as [_ Happ].
    apply app_eq_nil in Happ as [_ Happ]. discriminate.
Qed.

Lemma integrityIssues_nonempty now entries k :
  (forall i, (k <= i)%nat -> clock i = now) ->
  (exists id e, In (id, e) entries /\ Registry.integrityIssueAt now e = true) ->
  fst (Registry.integrityIssues clock entries k) <> [].
Proof.
  intros Hfrozen (id & e & Hin & Hissue).
  unfold Registry.integrityIssues. rewrite bind_run. cbn [ret fst].
  apply (mapM_concat_nonempty _ (fun kv => Registry.integrityIssueAt now (snd kv))).
  - apply entryIssues_ticks.
  - intros [id' e'] j Hj Hhit. apply (entryIssues_nonempty now); [|exact Hhit].
    intros i Hi. apply Hfrozen. lia.
  - apply existsb_exists. exists (id, e). split; [exact Hin | exact Hissue].
Qed.
End IntegrityCheck.

(** C5: when the integrity check of a sweep finds an issue, the sweep
    returns a failure that lists the issues, and neither the entries
    nor the verification history change: no score is recomputed and no
    status is demoted.  At an instant [now] at which the clock stands,
    an expired entry, an expired certification or an out-of-range score
    is such an issue. *)
Theorem executeProcess_integrity_gate clock r k :
  let out := fst (Registry.executeProcess clock r k) in
  let unchanged :=
    success (fst out) = false
    /\ (exists issues, errors (fst out) = Some issues /\ issues <> [])
    /\ trustEntries (snd out) = trustEntries r
    /\ verificationHistory (snd out) = verificationHistory r
    /\ snd out = set_processStatus r ProcessStatus.FAILED in
  (fst (Registry.integrityIssues clock (trustEntries r) (S k)) <> [] -> unchanged)
  /\ (forall now,
        (forall i, (k <= i)%nat -> clock i = now) ->
        (exists id e, In (id, e) (trustEntries r)
                      /\ Registry.integrityIssueAt now e = true) ->
        unchanged).
Proof.
  cbn zeta.
  assert (Hgen : fst (Registry.integrityIssues clock (trustEntries r) (S k)) <> [] ->
                 success (fst (fst (Registry.executeProcess clock r k))) = false
                 /\ (exists issues,
                       errors (fst (fst (Registry.executeProcess clock r k))) = Some issues
                       /\ issues <> [])
                 /\ trustEntries (snd (fst (Registry.executeProcess clock r k)))
                    = trustEntries r
                 /\ verificationHistory (snd (fst (Registry.executeProcess clock r k)))
                    = verificationHistory r
                 /\ snd (fst (Registry.executeProcess clock r k))
                    = set_processStatus r ProcessStatus.FAILED).
  { intros Hissues.
    destruct (executeProcess_cases clock r k)
      as [(Hfail & Hout & _ & Herr)|(_ & Hnil & _)]; [|contradiction].
    rewrite Hout. repeat split; eauto. }
  split; [exact Hgen|].
  intros now Hfrozen Hex. apply Hgen.
  apply (integrityIssues_nonempty clock now); [|exact Hex].
  intros i Hi. apply Hfrozen. lia.
Qed.

Lemma executeProcess_integrity_gate_witness :
  let r := Sample.registryWith (Sample.entry "P1" TrustStatus.REVOKED (Some Sample.t0) 100) in
  let out := fst (Registry.executeProcess (Sample.frozen Sample.t1) r 0%nat) in
  success (fst out) = false /\ trustEntries (snd out) = trustEntries r.
Proof.
  cbn zeta.
  destruct (proj2 (executeProcess_integrity_gate (Sample.frozen Sample.t1)
                     (Sample.registryWith
                        (Sample.entry "P1" TrustStatus.REVOKED (Some Sample.t0) 100))
                     0%nat) Sample.t1) as (Hfail & _ & Hentries & _).
  - intros i Hi. reflexivity.
  - exists "P1"%string, (Sample.entry "P1" TrustStatus.REVOKED (Some Sample.t0) 100).
    split; [left; reflexivity | reflexivity].
  - split; [exact Hfail | exact Hentries].
Defined.

(** ** The expiry step of the sweep *)

Lemma processExpiredEntries_demotes clock entries k :
  Forall2 (fun x y => y = (fst x, Registry.demoted (clock k) (snd x)))
    entries (fst (Registry.processExpiredEntries clock entries k)).
Proof.
  unfold Registry.processExpiredEntries. rewrite bind_run. cbn [newDate fst snd].
  apply mapM_Forall2. intros [id e] j.
  unfold Registry.processExpiredEntry, Registry.demoted, Registry.expiredAt. cbn [fst snd].
  destruct (_ && _); unfold Registry.logActivity; unfold_M; reflexivity.
Qed.

Lemma updateTrustScores_keeps_status clock entries k :
  Forall2 (fun x y => e_status (snd y) = e_status (snd x)
                      /\ e_expirationDate (snd y) = e_expirationDate (snd x))
    entries (fst (Registry.updateTrustScores clock entries k)).
Proof.
  apply mapM_Forall2. intros [id e] j.
  unfold Registry.updateTrustScore. rewrite bind_run.
  destruct (negb _); unfold Registry.logActivity; unfold_M; cbn; auto.
Qed.

(** X12. While the clock stands still, no sweep changes the status of any
    entry: an entry that the expiry step would demote makes the
    integrity check fail first. *)
Lemma executeProcess_frozen_keeps_statuses clock now r k :
  (forall i, clock i = now) ->
  map (fun kv => e_status (snd kv))
    (trustEntries (snd (fst (Registry.executeProcess clock r k))))
  = map (fun kv => e_status (snd kv)) (trustEntries r).
Proof.
  intros Hfrozen.
  destruct (executeProcess_cases clock r k)
    as [(_ & -> & _)|(_ & Hnil & _ & k1 & k2 & ->)]; [reflexivity|].
  assert (Hok : Forall (fun kv => Registry.integrityIssueAt now (snd kv) = false)
                  (trustEntries r)).
  { apply Forall_forall. intros [id e] Hin. apply list_elem_of_In in Hin. cbn [snd].
    destruct (Registry.integrityIssueAt now e) eqn:Hissue; [|reflexivity].
    exfalso. revert Hnil. apply (integrityIssues_nonempty clock now); [auto|].
    exists id, e. auto. }
  pose proof (updateTrustScores_keeps_status clock (trustEntries r) k1) as H1.
  pose proof (processExpiredEntries_demotes clock
                (fst (Registry.updateTrustScores clock (trustEntries r) k1)) k2) as H2.
  rewrite Hfrozen in H2.
  revert H1 H2 Hok.
  generalize (fst (Registry.processExpiredEntries clock
                     (fst (Registry.updateTrustScores clock (trustEntries r) k1)) k2)).
  generalize (fst (Registry.updateTrustScores clock (trustEntries r) k1)).
  generalize (trustEntries r).
  intros l l1 l2 H1. revert l2.
  induction H1 as [|x y l l1 [Hst Hexp] H1 IH]; intros l2 H2 Hok;
    inversion H2; subst; clear H2; [reflexivity|].
  inversion Hok as [|? ? Hx Hl]; subst. cbn [map fst snd]. f_equal; [|apply IH; assumption].
  unfold Registry.demoted. rewrite Hexp.
  unfold Registry.integrityIssueAt in Hx.
  apply orb_false_iff in Hx as [Hx _]. apply orb_false_iff in Hx as [Hx _].
  rewrite Hx. cbn. exact Hst.
Qed.

(** C4: the sweep at the instant [t1] on a registry whose only entry is
    TRUSTED and expired at [t0 < t1].  The integrity check reports the
    expired entry, the sweep fails and the entry is still TRUSTED; the
    expiry step [processExpiredEntries], had it run on the same
    entries, would have made the entry SUSPENDED. *)
Lemma executeProcess_expired_trusted_stays_trusted :
  let r := Sample.registryWith (Sample.entry "P1" TrustStatus.TRUSTED (Some Sample.t0) 100) in
  let out := fst (Registry.executeProcess (Sample.frozen Sample.t1) r 0%nat) in
  success (fst out) = false
  /\ errors (fst out) = Some ["Entry P1 has expired"%string]
  /\ e_status <$> Registry.getTrustEntry (snd out) "P1" = Some TrustStatus.TRUSTED
  /\ e_status <$> JsMap.get
                    (fst (Registry.processExpiredEntries (Sample.frozen Sample.t1)
                            (trustEntries r) 0%nat)) "P1"
     = Some TrustStatus.SUSPENDED.
Proof. vm_compute. repeat split. Qed.

(** ** The frame of verification *)

(** Verification at [t1] of an entry last verified at [t0]: the call
    succeeds with a result dated [t1], and the stored entry's
    [lastVerified] still is [t0], not the verification time. *)
Lemma verifyTrust_lastVerified_not_updated :
  let r := Sample.registryWith (Sample.entry "P1" TrustStatus.TRUSTED None 100) in
  let out := fst (Registry.verifyTrust (Sample.frozen Sample.t1) r
                    (Sample.request "P1") 0%nat) in
  success (fst out) = true
  /\ (exists vr, data (fst out) = Some (VerificationData vr)
                 /\ vr_verificationDate vr = Sample.t1)
  /\ e_lastVerified <$> Registry.getTrustEntry (snd out) "P1" = Some Sample.t0
  /\ e_lastVerified <$> Registry.getTrustEntry (snd out) "P1" <> Some Sample.t1.
Proof.
  cbn zeta. split; [reflexivity|]. split.
  - eexists. split; reflexivity.
  - split; [reflexivity|]. vm_compute. discriminate.
Qed.

(** C6, amended: a successful [verifyTrust] on an existing entry appends
    the result it returns at the end of that participant's history,
    leaves the earlier elements and the histories of the other
    participants as they were, and changes no entry: every field of the
    verified entry, [lastVerified] included, is as before. *)
Theorem verifyTrust_appends_history clock r request k entry :
  Registry.getTrustEntry r (rq_participantId request) = Some entry ->
  let out := fst (Registry.verifyTrust clock r request k) in
  let id := rq_participantId request in
  success (fst out) = true
  /\ (exists vr,
        data (fst out) = Some (VerificationData vr)
        /\ Registry.getVerificationHistory (snd out) id
           = Registry.getVerificationHistory r id ++ [vr])
  /\ (forall id', id' <> id ->
        Registry.getVerificationHistory (snd out) id'
        = Registry.getVerificationHistory r id')
  /\ trustEntries (snd out) = trustEntries r
  /\ Registry.getTrustEntry (snd out) id = Some entry
  /\ snd out = set_verificationHistory r (verificationHistory (snd out)).
Proof.
  unfold Registry.getTrustEntry. intros Hget. cbn zeta.
  unfold Registry.verifyTrust. rewrite Hget. rewrite bind_run.
  set (vr := fst (Registry.performTrustVerification clock entry request k)).
  unfold Registry.logActivity. unfold_M. cbn [fst snd success data].
  unfold Registry.getVerificationHistory. cbn [verificationHistory set_verificationHistory].
  split; [reflexivity|]. split.
  { exists vr. split; [reflexivity|].
    rewrite lookup_alter_eq.
    destruct (verificationHistory r !! rq_participantId request) as [h|] eqn:Hh.
    - rewrite Hh. reflexivity.
    - rewrite lookup_insert_eq. reflexivity. }
  split.
  { intros id' Hne. rewrite lookup_alter_ne by congruence.
    destruct (verificationHistory r !! rq_participantId request); [reflexivity|].
    rewrite lookup_insert_ne by congruence. reflexivity. }
  split; [reflexivity|]. split; [exact Hget | reflexivity].
Qed.

Lemma verifyTrust_appends_history_witness :
  let r := Sample.registryWith (Sample.entry "P1" TrustStatus.TRUSTED None 100) in
  let out := fst (Registry.verifyTrust (Sample.frozen Sample.t1) r
                    (Sample.request "P1") 0%nat) in
  Registry.getTrustEntry r "P1" = Some (Sample.entry "P1" TrustStatus.TRUSTED None 100)
  /\ trustEntries (snd out) = trustEntries r.
Proof.
  cbn zeta. split; [reflexivity|].
  apply (verifyTrust_appends_history (Sample.frozen Sample.t1)
           (Sample.registryWith (Sample.entry "P1" TrustStatus.TRUSTED None 100))
           (Sample.request "P1") 0%nat
           (Sample.entry "P1" TrustStatus.TRUSTED None 100)).
  reflexivity.
Defined.

(** ** Duplicate registration *)

(** C7: when the registry already holds an entry under the id of the
    submitted entry, [registerParticipant] fails and the provider state
    is the same as before, so the stored entry is unmodified; the
    failure is the duplicate one, "Participant already registered",
    whenever the submitted entry has the required fields. *)
Theorem registerParticipant_duplicate clock r entry k :
  JsMap.has (trustEntries r) (e_participantId entry) = true ->
  let out := fst (Registry.registerParticipant clock r entry k) in
  success (fst out) = false
  /\ snd out = r
  /\ Registry.getTrustEntry (snd out) (e_participantId entry)
     = Registry.getTrustEntry r (e_participantId entry)
  /\ (Registry.validateInput entry = true ->
      message (fst out) = "Participant already registered"%string).
Proof.
  intros Hhas. cbn zeta. unfold Registry.registerParticipant. rewrite Hhas.
  destruct (Registry.validateInput entry); cbn [negb]; unfold_M; cbn;
    repeat split; auto; discriminate.
Qed.

Lemma registerParticipant_duplicate_witness :
  let r := Sample.registryWith (Sample.entry "P1" TrustStatus.PROVISIONAL None 75) in
  let out := fst (Registry.registerParticipant (Sample.frozen Sample.t1) r
                    (Sample.entry "P1" TrustStatus.TRUSTED None 0) 0%nat) in
  JsMap.has (trustEntries r) "P1" = true
  /\ success (fst out) = false
  /\ snd out = r.
Proof.
  cbn zeta. split; [reflexivity|].
  destruct (registerParticipant_duplicate (Sample.frozen Sample.t1)
              (Sample.registryWith (Sample.entry "P1" TrustStatus.PROVISIONAL None 75))
              (Sample.entry "P1" TrustStatus.TRUSTED None 0) 0%nat)
    as (Hfail & Hsame & _); [reflexivity|].
  split; [exact Hfail | exact Hsame].
Defined.

(** ** Searching with a minimum trust score *)

(** C10: a [minTrustScore] of zero filters nothing: the search returns
    the same entries, in the same order, as with [minTrustScore]
    omitted.  A non-zero threshold keeps, of those entries, the ones
    whose score is not below it; on a registry whose scores are not
    negative this excludes an entry only when the threshold is strictly
    positive. *)
Theorem searchTrustRegistry_minTrustScore r criteria :
  Registry.searchTrustRegistry r (Registry.with_minTrustScore criteria (Some 0))
  = Registry.searchTrustRegistry r (Registry.with_minTrustScore criteria None)
  /\ (forall m, m <> 0 ->
        Registry.searchTrustRegistry r (Registry.with_minTrustScore criteria (Some m))
        = List.filter (fun entry => negb (e_trustScore entry <? m))
            (Registry.searchTrustRegistry r (Registry.with_minTrustScore criteria None)))
  /\ (forall m, m <= 0 ->
        Forall scoreInRange (trustEntries r) ->
        Registry.searchTrustRegistry r (Registry.with_minTrustScore criteria (Some m))
        = Registry.searchTrustRegistry r (Registry.with_minTrustScore criteria None)).
Proof.
  unfold Registry.searchTrustRegistry, JsMap.values.
  cbn [Registry.with_minTrustScore sc_type sc_status sc_assuranceLevel sc_minTrustScore
       Registry.belowMin].
  split; [reflexivity|]. split.
  - intros m Hm. apply Z.eqb_neq in Hm. rewrite Hm. cbn [negb andb].
    induction (trustEntries r) as [|[id e] l IH]; cbn [map List.filter snd]; [reflexivity|].
    destruct (Registry.mismatch (sc_type criteria) (e_type e)); [exact IH|].
    destruct (Registry.mismatch (sc_status criteria) (e_status e)); [exact IH|].
    destruct (Registry.mismatch (sc_assuranceLevel criteria) (e_assuranceLevel e));
      [exact IH|].
    cbn [List.filter]. destruct (e_trustScore e <? m); cbn [negb]; [exact IH|].
    f_equal. exact IH.
  - intros m Hm Hrange.
    induction Hrange as [|[id e] l He Hl IH]; cbn [map List.filter snd]; [reflexivity|].
    unfold scoreInRange in He. cbn [snd] in He.
    replace (e_trustScore e <? m) with false by (symmetry; apply Z.ltb_ge; lia).
    rewrite andb_false_r. rewrite IH. reflexivity.
Qed.

Lemma searchTrustRegistry_minTrustScore_witness :
  let r := Sample.registryWith (Sample.entry "P1" TrustStatus.TRUSTED None 40) in
  let none := {| sc_type := None; sc_status := None; sc_assuranceLevel := None;
                 sc_minTrustScore := None |} in
  Forall scoreInRange (trustEntries r)
  /\ Registry.searchTrustRegistry r (Registry.with_minTrustScore none (Some (-5)))
     = [Sample.entry "P1" TrustStatus.TRUSTED None 40]
  /\ Registry.searchTrustRegistry r (Registry.with_minTrustScore none (Some 0))
     = [Sample.entry "P1" TrustStatus.TRUSTED None 40]
  /\ Registry.searchTrustRegistry r (Registry.with_minTrustScore none (Some 50)) = [].
Proof.
  cbn zeta.
  assert (Hrange : Forall scoreInRange
                     (trustEntries
                        (Sample.registryWith (Sample.entry "P1" TrustStatus.TRUSTED None 40)))).
  { repeat constructor; cbn; lia. }
  split; [exact Hrange|]. split.
  - rewrite (proj2 (proj2 (searchTrustRegistry_minTrustScore
                             (Sample.registryWith
                                (Sample.entry "P1" TrustStatus.TRUSTED None 40))
                             {| sc_type := None; sc_status := None;
                                sc_assuranceLevel := None; sc_minTrustScore := None |}))
               (-5) ltac:(lia) Hrange).
    reflexivity.
  - split; reflexivity.
Defined.

(** ** The orchestrator: registration and dispatch *)

Lemma framework_registerParticipant_cases clock fw participant k :
  let out := fst (Framework.registerParticipant clock fw participant k) in
  (success (fst out) = false /\ snd out = fw)
  \/ (success (fst out) = true
      /\ JsMap.get (participants fw) (p_participantId participant) = None
      /\ snd out = Framework.initializeServiceProviders
                     (Framework.set_participants fw
                        (JsMap.set (participants fw) (p_participantId participant)
                           participant))
                     participant).
Proof.
  cbn zeta. unfold Framework.registerParticipant, Framework.validateParticipant.
  rewrite bind_run.
  destruct (negb (truthy (p_participantId participant)) || negb (truthy (p_name participant))).
  { left. unfold_M. cbn. auto. }
  unfold JsMap.has.
  destruct (JsMap.get (participants fw) (p_participantId participant)) eqn:Hget.
  { left. unfold_M. cbn. auto. }
  right. unfold_M. cbn. auto.
Qed.

Lemma initializeServiceProviders_participants fw participant :
  participants (Framework.initializeServiceProviders fw participant) = participants fw.
Proof.
  unfold Framework.initializeServiceProviders. destruct (p_type participant); reflexivity.
Qed.

(** Registration touches the provider maps at the participant's id only. *)
Lemma initializeServiceProviders_lookup_other fw participant id :
  id <> p_participantId participant ->
  let fw' := Framework.initializeServiceProviders fw participant in
  authenticationProviders fw' !! id = authenticationProviders fw !! id
  /\ identityProviders fw' !! id = identityProviders fw !! id
  /\ privacyProviders fw' !! id = privacyProviders fw !! id
  /\ infrastructureProviders fw' !! id = infrastructureProviders fw !! id
  /\ walletProviders fw' !! id = walletProviders fw !! id
  /\ trustRegistries fw' !! id = trustRegistries fw !! id.
Proof.
  intros Hne. cbn zeta. unfold Framework.initializeServiceProviders.
  destruct (p_type participant); cbn;
    try destruct (bool_decide _ || bool_decide _);
    rewrite ?lookup_insert_ne by congruence; repeat split; reflexivity.
Qed.

Lemma initializeServiceProviders_other fw participant id :
  id <> p_participantId participant ->
  Framework.noProviders fw id ->
  Framework.noProviders (Framework.initializeServiceProviders fw participant) id.
Proof.
  intros Hne (Ha & Hi & Hp & Hn & Hw & Ht).
  destruct (initializeServiceProviders_lookup_other fw participant id Hne)
    as (Ea & Ei & Ep & En & Ew & Et).
  unfold Framework.noProviders. rewrite Ea, Ei, Ep, En, Ew, Et. repeat split; assumption.
Qed.

(** In a reachable orchestrator state, a provider is attached only
    under the id of a registered participant. *)
Lemma reachable_providers_registered fw :
  Framework.reachable fw ->
  forall id, JsMap.get (participants fw) id = None -> Framework.noProviders fw id.
Proof.
  induction 1 as [frameworkId version | clock k fw participant Hfw IH]; intros id Hid.
  - unfold Framework.noProviders. cbn. rewrite !lookup_empty. repeat split.
  - destruct (framework_registerParticipant_cases clock fw participant k)
      as [(_ & Hsame)|(_ & Hnew & Hout)]; cbn zeta in *.
    + rewrite Hsame in *. apply IH, Hid.
    + rewrite Hout in *. rewrite initializeServiceProviders_participants in Hid.
      cbn [participants Framework.set_participants] in Hid.
      destruct (String.eqb_spec (p_participantId participant) id) as [Heq|Hne].
      * subst id. rewrite get_set_eq in Hid. discriminate.
      * rewrite get_set_ne in Hid by exact Hne.
        apply initializeServiceProviders_other; [congruence|].
        apply (IH id Hid).
Qed.

(** The dispatch on a participant's type, for an id that has no
    provider yet. *)
Lemma initializeServiceProviders_privacy fw participant :
  Framework.noProviders fw (p_participantId participant) ->
  Framework.privacyType participant ->
  Framework.privacyDispatch (Framework.initializeServiceProviders fw participant)
    participant.
Proof.
  intros (Ha & Hi & Hp & Hn & Hw & Ht) Htype.
  unfold Framework.privacyDispatch, Framework.highAssurance,
    Framework.getPrivacyProvider, Framework.getInfrastructureProvider,
    Framework.getAuthenticationProvider, Framework.getIdentityProvider,
    Framework.getWalletProvider, Framework.getTrustRegistry,
    Framework.expectedComponentNames, Framework.presentComponents,
    Framework.initializeServiceProviders.
  destruct Htype as [->|[->| ->]];
    cbn [privacyProviders infrastructureProviders authenticationProviders
         identityProviders walletProviders trustRegistries];
    rewrite Ha, Hi, Hw, Ht, lookup_insert_eq;
    destruct (p_certificationLevel participant);
    rewrite ?(bool_decide_eq_true_2 _ eq_refl);
    rewrite ?bool_decide_eq_false_2 by discriminate;
    cbn [orb];
    rewrite ?lookup_insert_eq, ?Hn;
    unfold is_Some;
    (repeat split; try reflexivity;
     try (intros [?|?]; discriminate);
     try (intros [? ?]; discriminate);
     try (intros _;
          first [reflexivity | left; reflexivity | right; reflexivity
                | eexists; reflexivity])).
Qed.

(** The attachments of a registered participant stay as the dispatch
    made them: the directory key is the participant's id, and a
    participant of a Privacy type has the Privacy row's providers. *)
Lemma reachable_dispatch fw :
  Framework.reachable fw ->
  forall id p,
    JsMap.get (participants fw) id = Some p ->
    p_participantId p = id
    /\ (Framework.privacyType p -> Framework.privacyDispatch fw p).
Proof.
  induction 1 as [frameworkId version | clock k fw participant Hfw IH]; intros id p Hget.
  - discriminate.
  - destruct (framework_registerParticipant_cases clock fw participant k)
      as [(_ & Hsame)|(_ & Hnew & Hout)]; cbn zeta in *.
    + rewrite Hsame in *. apply IH, Hget.
    + rewrite Hout in *. rewrite initializeServiceProviders_participants in Hget.
      cbn [participants Framework.set_participants] in Hget.
      destruct (String.eqb_spec (p_participantId participant) id) as [Heq|Hne].
      * subst id. rewrite get_set_eq in Hget. injection Hget as <-.
        split; [reflexivity|].
        apply initializeServiceProviders_privacy.
        apply (reachable_providers_registered fw Hfw _ Hnew).
      * rewrite get_set_ne in Hget by exact Hne.
        destruct (IH id p Hget) as [Hid Hdisp]. split; [exact Hid|].
        intros Htype. specialize (Hdisp Htype).
        destruct (initializeServiceProviders_lookup_other
                    (Framework.set_participants fw
                       (JsMap.set (participants fw) (p_participantId participant)
                          participant))
                    participant (p_participantId p) ltac:(congruence))
          as (Ea & Ei & Ep & En & Ew & Et).
        cbn [authenticationProviders identityProviders privacyProviders
             infrastructureProviders walletProviders trustRegistries
             Framework.set_participants] in Ea, Ei, Ep, En, Ew, Et.
        unfold Framework.privacyDispatch, Framework.getPrivacyProvider,
          Framework.getInfrastructureProvider, Framework.getAuthenticationProvider,
          Framework.getIdentityProvider, Framework.getWalletProvider,
          Framework.getTrustRegistry, Framework.expectedComponentNames,
          Framework.presentComponents in *.
        rewrite Ea, Ei, Ep, En, Ew, Et. exact Hdisp.
Qed.

(** C8: a successful registration, in a reachable orchestrator state,
    of a participant of type ISSUER, VERIFIER or RELYING_PARTY attaches
    a Privacy provider under the participant's id, attaches an
    Infrastructure provider exactly when the certification level is
    LOA3 or LOA4, and attaches no provider of the four other kinds: the
    component kinds present for the id are Privacy alone below LOA3
    (an ISSUER at LOA2), and Privacy and Infrastructure from LOA3 on.
    Every participant of these types in the directory of a reachable
    state has exactly these attachments. *)
Theorem registerParticipant_dispatch fw :
  Framework.reachable fw ->
  (forall clock participant k,
     Framework.privacyType participant ->
     let out := fst (Framework.registerParticipant clock fw participant k) in
     success (fst out) = true ->
     Framework.privacyDispatch (snd out) participant)
  /\ (forall id p,
        JsMap.get (participants fw) id = Some p ->
        Framework.privacyType p ->
        p_participantId p = id /\ Framework.privacyDispatch fw p).
Proof.
  intros Hreach. split.
  - intros clock participant k Htype. cbn zeta. intros Hsucc.
    destruct (framework_registerParticipant_cases clock fw participant k)
      as [(Hfail & _)|(_ & Hnew & Hout)]; cbn zeta in *; [congruence|].
    rewrite Hout. apply initializeServiceProviders_privacy; [|exact Htype].
    apply (reachable_providers_registered fw Hreach _ Hnew).
  - intros id p Hget Htype. destruct (reachable_dispatch fw Hreach id p Hget) as [Hid Hdisp].
    split; [exact Hid | exact (Hdisp Htype)].
Qed.

Lemma registerParticipant_dispatch_witness :
  let out2 := fst (Framework.registerParticipant (Sample.frozen Sample.t0)
                     Sample.emptyFramework
                     (Sample.participant "P1" ParticipantType.ISSUER AssuranceLevel.LOA2)
                     0%nat) in
  let out3 := fst (Framework.registerParticipant (Sample.frozen Sample.t0)
                     Sample.emptyFramework
                     (Sample.participant "P1" ParticipantType.ISSUER AssuranceLevel.LOA3)
                     0%nat) in
  Framework.reachable Sample.emptyFramework
  /\ Framework.expectedComponentNames (snd out2) "P1" = ["Privacy"]%string
  /\ Framework.expectedComponentNames (snd out3) "P1" = ["Privacy"; "Infrastructure"]%string.
Proof.
  cbn zeta.
  pose proof (Framework.reach_new "FW-1" None) as Hreach.
  split; [exact Hreach|]. split.
  - destruct (proj1 (registerParticipant_dispatch Sample.emptyFramework Hreach)
                (Sample.frozen Sample.t0)
                (Sample.participant "P1" ParticipantType.ISSUER AssuranceLevel.LOA2) 0%nat)
      as (_ & _ & _ & _ & _ & _ & _ & Hnames).
    + left. reflexivity.
    + reflexivity.
    + exact Hnames.
  - destruct (proj1 (registerParticipant_dispatch Sample.emptyFramework Hreach)
                (Sample.frozen Sample.t0)
                (Sample.participant "P1" ParticipantType.ISSUER AssuranceLevel.LOA3) 0%nat)
      as (_ & _ & _ & _ & _ & _ & _ & Hnames).
    + left. reflexivity.
    + reflexivity.
    + exact Hnames.
Defined.

(** ** The orchestrator: conformance aggregation *)

(** One block of [assessConformance] appends the component's name when
    the provider is present, and keeps [overallConformance] the
    conjunction of the flags of the results collected so far. *)
Lemma assessIfPresent_spec clock {P : Type} (provider : option P) (name : string)
    (getCriteria : P -> list ConformanceCriteria) (cr : ConformanceAssessmentResult)
    (names : list string) (k : nat) :
  map componentName (componentResults cr) = names ->
  overallConformance cr = forallb isConformant (componentResults cr) ->
  let cr' := fst (Framework.assessIfPresent clock provider name getCriteria cr k) in
  map componentName (componentResults cr')
  = names ++ (if bool_decide (is_Some provider) then [name] else [])
  /\ overallConformance cr' = forallb isConformant (componentResults cr')
  /\ car_participantId cr' = car_participantId cr.
Proof.
  intros Hnames Hand. cbn zeta. unfold Framework.assessIfPresent.
  destruct provider as [p|].
  - rewrite bind_run. cbn [ret fst componentResults overallConformance car_participantId].
    rewrite map_app, forallb_app, Hnames, Hand. cbn [map forallb].
    rewrite andb_true_r.
    unfold Framework.assessComponentConformance. rewrite !bind_run.
    cbn [ret fst componentName]. auto.
  - cbn [ret fst]. rewrite app_nil_r. auto.
Qed.

(** C9: for a participant of the directory, [assessConformance]
    succeeds with one component result per provider map that holds the
    id, in the order Authentication, VerifiedPerson, Privacy,
    Infrastructure, DigitalWallet, TrustRegistry, and with
    [overallConformance] the conjunction of the [isConformant] flags of
    these results; with no provider attached the list is empty and
    [overallConformance] is true. *)
Theorem assessConformance_components clock fw participantId k participant :
  JsMap.get (participants fw) participantId = Some participant ->
  let res := fst (Framework.assessConformance clock fw participantId k) in
  success res = true
  /\ exists car,
       data res = Some (ConformanceData car)
       /\ car_participantId car = participantId
       /\ map componentName (componentResults car)
          = Framework.expectedComponentNames fw participantId
       /\ overallConformance car = forallb isConformant (componentResults car)
       /\ (Framework.noProviders fw participantId ->
           componentResults car = [] /\ overallConformance car = true).
Proof.
  intros Hget. cbn zeta. unfold Framework.assessConformance. rewrite Hget.
  rewrite bind_run. cbn [newDate fst snd].
  set (cr0 := {| car_participantId := participantId; car_assessmentDate := clock k;
                 overallConformance := true; componentResults := [] |}).
  assert (H0 : map componentName (componentResults cr0) = []) by reflexivity.
  assert (A0 : overallConformance cr0 = forallb isConformant (componentResults cr0))
    by reflexivity.
  rewrite bind_run.
  destruct (assessIfPresent_spec clock (authenticationProviders fw !! participantId)
              "Authentication" AuthenticationServiceProvider.getConformanceCriteria
              cr0 _ (S k) H0 A0) as (H1 & A1 & I1).
  rewrite bind_run.
  destruct (assessIfPresent_spec clock (identityProviders fw !! participantId)
              "VerifiedPerson" IdentityProvider.getConformanceCriteria
              _ _ (snd (Framework.assessIfPresent clock
                          (authenticationProviders fw !! participantId) "Authentication"
                          AuthenticationServiceProvider.getConformanceCriteria cr0 (S k)))
              H1 A1) as (H2 & A2 & I2).
  rewrite bind_run.
  match goal with |- context [Framework.assessIfPresent clock
                                (privacyProviders fw !! participantId) ?n ?g ?c ?j] =>
    destruct (assessIfPresent_spec clock (privacyProviders fw !! participantId)
                n g c _ j H2 A2) as (H3 & A3 & I3) end.
  rewrite bind_run.
  match goal with |- context [Framework.assessIfPresent clock
                                (infrastructureProviders fw !! participantId) ?n ?g ?c ?j] =>
    destruct (assessIfPresent_spec clock (infrastructureProviders fw !! participantId)
                n g c _ j H3 A3) as (H4 & A4 & I4) end.
  rewrite bind_run.
  match goal with |- context [Framework.assessIfPresent clock
                                (walletProviders fw !! participantId) ?n ?g ?c ?j] =>
    destruct (assessIfPresent_spec clock (walletProviders fw !! participantId)
                n g c _ j H4 A4) as (H5 & A5 & I5) end.
  rewrite bind_run.
  match goal with |- context [Framework.assessIfPresent clock
                                (trustRegistries fw !! participantId) ?n ?g ?c ?j] =>
    destruct (assessIfPresent_spec clock (trustRegistries fw !! participantId)
                n g c _ j H5 A5) as (H6 & A6 & I6) end.
  match goal with |- context [Framework.assessIfPresent clock
                                (trustRegistries fw !! participantId) ?n ?g ?c ?j] =>
    set (cr6 := fst (Framework.assessIfPresent clock
                       (trustRegistries fw !! participantId) n g c j)) in * end.
  cbn zeta in *.
  rewrite bind_run. cbn [newDate ret fst snd success data].
  split; [reflexivity|]. exists cr6. split; [reflexivity|].
  assert (Hexp : map componentName (componentResults cr6)
                 = Framework.expectedComponentNames fw participantId).
  { rewrite H6.
    unfold Framework.expectedComponentNames, Framework.presentComponents.
    destruct (bool_decide (is_Some (authenticationProviders fw !! participantId)));
      destruct (bool_decide (is_Some (identityProviders fw !! participantId)));
      destruct (bool_decide (is_Some (privacyProviders fw !! participantId)));
      destruct (bool_decide (is_Some (infrastructureProviders fw !! participantId)));
      destruct (bool_decide (is_Some (walletProviders fw !! participantId)));
      destruct (bool_decide (is_Some (trustRegistries fw !! participantId)));
      reflexivity. }
  split; [rewrite I6, I5, I4, I3, I2, I1; reflexivity|].
  split; [exact Hexp|]. split; [exact A6|].
  intros (Ha & Hi & Hp & Hn & Hw & Ht).
  assert (Hnil : componentResults cr6 = []).
  { apply (f_equal (@length string)) in Hexp. rewrite length_map in Hexp.
    unfold Framework.expectedComponentNames, Framework.presentComponents in Hexp.
    rewrite Ha, Hi, Hp, Hn, Hw, Ht in Hexp. cbn in Hexp.
    apply length_zero_iff_nil. exact Hexp. }
  split; [exact Hnil|]. rewrite A6, Hnil. reflexivity.
Qed.

Lemma assessConformance_components_witness :
  let p := Sample.participant "P1" ParticipantType.ISSUER AssuranceLevel.LOA3 in
  let res := fst (Framework.assessConformance (Sample.frozen Sample.t1)
                    (Sample.frameworkWith p) "P1" 0%nat) in
  JsMap.get (participants (Sample.frameworkWith p)) "P1" = Some p
  /\ success res = true
  /\ exists car,
       data res = Some (ConformanceData car)
       /\ map componentName (componentResults car) = ["Privacy"; "Infrastructure"]%string
       /\ overallConformance car = forallb isConformant (componentResults car).
Proof.
  cbn zeta. split; [reflexivity|].
  destruct (assessConformance_components (Sample.frozen Sample.t1)
              (Sample.frameworkWith
                 (Sample.participant "P1" ParticipantType.ISSUER AssuranceLevel.LOA3))
              "P1" 0%nat
              (Sample.participant "P1" ParticipantType.ISSUER AssuranceLevel.LOA3))
    as (Hsucc & car & Hdata & _ & Hnames & Hand & _); [reflexivity|].
  split; [exact Hsucc|]. exists car. split; [exact Hdata|].
  split; [rewrite Hnames; reflexivity | exact Hand].
Defined.

(** ** Evaluations on the sample data *)

(** The score of a TRUSTED LOA3 entry with one active certification:
    50 + 30 + 15 + 5, on the day after its registration. *)
Example score_trusted_loa3 :
  fst (Registry.calculateTrustScore (Sample.frozen Sample.t1)
         (Sample.entry "P1" TrustStatus.TRUSTED None 0) 0%nat) = 100.
Proof. reflexivity. Qed.

(** The same entry REVOKED, 400 days after its registration and last
    verification: 50 - 50 + 15 + 5 + 5 - 5. *)
Example score_revoked_stale :
  fst (Registry.calculateTrustScore (Sample.frozen (Sample.t0 + 400 * 86400000))
         (Sample.entry "P1" TrustStatus.REVOKED None 0) 0%nat) = 20.
Proof. reflexivity. Qed.

(** The decision table's first row: TRUSTED, one active certification,
    score 85: the result is TRUSTED with three passed criteria and none
    failed. *)
Example verification_all_passed :
  let vr := fst (Registry.performTrustVerification (Sample.frozen Sample.t1)
                   (Sample.entry "P1" TrustStatus.TRUSTED None 85)
                   (Sample.request "P1") 0%nat) in
  vr_trustStatus vr = TrustStatus.TRUSTED
  /\ length (passed (vr_verificationDetails vr)) = 3%nat
  /\ failed (vr_verificationDetails vr) = []
  /\ validUntil (vr_validity vr) = Sample.t1 + 86400000.
Proof. repeat split. Qed.

(** A TRUSTED entry with a score below 50 verifies as PROVISIONAL. *)
Example verification_low_score :
  vr_trustStatus
    (fst (Registry.performTrustVerification (Sample.frozen Sample.t1)
            (Sample.entry "P1" TrustStatus.TRUSTED None 40)
            (Sample.request "P1") 0%nat))
  = TrustStatus.PROVISIONAL.
Proof. reflexivity. Qed.

(** A sweep over a registry without issues succeeds and recomputes the
    score. *)
Example sweep_recomputes_score :
  let out := fst (Registry.executeProcess (Sample.frozen Sample.t1)
                    (Sample.registryWith (Sample.entry "P1" TrustStatus.TRUSTED None 0))
                    0%nat) in
  success (fst out) = true
  /\ e_trustScore <$> Registry.getTrustEntry (snd out) "P1" = Some 100.
Proof. vm_compute. repeat split. Qed.

(** The expiry step alone leaves a REVOKED expired entry as it is. *)
Example expiry_step_keeps_revoked :
  fst (Registry.processExpiredEntries (Sample.frozen Sample.t1)
         [("P1"%string, Sample.entry "P1" TrustStatus.REVOKED (Some Sample.t0) 100)] 0%nat)
  = [("P1"%string, Sample.entry "P1" TrustStatus.REVOKED (Some Sample.t0) 100)].
Proof. reflexivity. Qed.

(** The expiry step of a sweep demotes an entry only when the entry
    expires while the sweep runs: here the clock passes the expiration
    date [t0] between the integrity check and the expiry step. *)
Example sweep_demotes_during_run :
  let clock : Clock := fun i => if (i <? 5)%nat then Sample.t0 - 1 else Sample.t1 in
  let out := fst (Registry.executeProcess clock
                    (Sample.registryWith
                       (Sample.entry "P1" TrustStatus.TRUSTED (Some Sample.t0) 100))
                    0%nat) in
  success (fst out) = true
  /\ e_status <$> Registry.getTrustEntry (snd out) "P1" = Some TrustStatus.SUSPENDED.
Proof. vm_compute. repeat split. Qed.

(** * Further properties of the registry *)

(** ** More facts about the insertion-ordered map *)

Section JsMapOrder.
Context {V : Type}.
Implicit Types (m : list (string * V)) (k : string) (v : V).

Lemma set_absent m k v : JsMap.get m k = None -> JsMap.set m k v = m ++ [(k, v)].
Proof.
  induction m as [|[k' v'] m IH]; cbn; [reflexivity|].
  destruct (String.eqb k' k); [discriminate|]. intros H. rewrite IH by exact H. reflexivity.
Qed.

Lemma set_keys_present m k v :
  is_Some (JsMap.get m k) -> map fst (JsMap.set m k v) = map fst m.
Proof.
  induction m as [|[k' v'] m IH]; cbn.
  - intros [? ?]. discriminate.
  - destruct (String.eqb k' k); cbn; [reflexivity|]. intros H. rewrite IH by exact H.
    reflexivity.
Qed.

Lemma get_None_keys m k : JsMap.get m k = None -> ~ In k (map fst m).
Proof.
  induction m as [|[k' v'] m IH]; cbn; [tauto|].
  destruct (String.eqb_spec k' k) as [->|Hne]; [discriminate|].
  intros H [Heq|Hin]; [contradiction | exact (IH H Hin)].
Qed.

Lemma NoDup_snoc {A : Type} (l : list A) (x : A) :
  NoDup l -> ~ In x l -> NoDup (l ++ [x]).
Proof.
  intros Hnd Hx. apply NoDup_app. split; [exact Hnd|]. split.
  - intros y Hy Hy'. apply list_elem_of_In in Hy. apply list_elem_of_In in Hy'.
    destruct Hy' as [<-|[]]. exact (Hx Hy).
  - apply NoDup_cons. split; [|constructor]. intros H. apply list_elem_of_In in H.
    destruct H.
Qed.

Lemma set_keys_NoDup m k v : NoDup (map fst m) -> NoDup (map fst (JsMap.set m k v)).
Proof.
  intros Hnd. destruct (JsMap.get m k) eqn:Hget.
  - rewrite set_keys_present by eauto. exact Hnd.
  - rewrite set_absent by exact Hget. rewrite map_app. cbn.
    apply NoDup_snoc; [exact Hnd|]. apply get_None_keys, Hget.
Qed.

Lemma get_In_NoDup m k v : NoDup (map fst m) -> In (k, v) m -> JsMap.get m k = Some v.
Proof.
  induction m as [|[k' v'] m IH]; cbn; [tauto|].
  intros Hnd [Heq|Hin].
  - injection Heq as -> ->. rewrite String.eqb_refl. reflexivity.
  - apply NoDup_cons in Hnd as [Hnotin Hnd'].
    destruct (String.eqb_spec k' k) as [->|Hne].
    + exfalso. apply Hnotin. apply list_elem_of_In. apply (in_map fst) in Hin. exact Hin.
    + apply IH; assumption.
Qed.
End JsMapOrder.

(** ** Traversals while the clock stands still *)

Lemma mapM_concat_nil {A B : Type} (f : A -> M (list B)) (hit : A -> bool)
    (l : list A) (k : nat) :
  (forall x j, (j <= snd (f x j))%nat) ->
  (forall x j, (k <= j)%nat -> hit x = false -> fst (f x j) = []) ->
  existsb hit l = false ->
  concat (fst (mapM f l k)) = [].
Proof.
  intros Hticks. revert k.
  induction l as [|x l IH]; intros k Hmiss Hex; [reflexivity|].
  cbn [existsb] in Hex. apply orb_false_iff in Hex as [Hx Hl].
  cbn [mapM]. rewrite !bind_run. cbn [ret fst concat].
  rewrite (Hmiss x k (le_n k) Hx). cbn [app].
  apply IH; [|exact Hl]. intros y j Hj. apply Hmiss. specialize (Hticks x k). lia.
Qed.

(** While every reading equals what [g] assumes, [mapM f] is [map g]. *)
Lemma mapM_pure {A B : Type} (f : A -> M B) (g : A -> B) (l : list A) (k : nat) :
  (forall x j, (j <= snd (f x j))%nat) ->
  (forall x j, (k <= j)%nat -> fst (f x j) = g x) ->
  fst (mapM f l k) = map g l.
Proof.
  intros Hticks. revert k.
  induction l as [|x l IH]; intros k Hpure; [reflexivity|].
  cbn [mapM map]. rewrite !bind_run. cbn [ret fst].
  rewrite (Hpure x k (le_n k)). f_equal.
  apply IH. intros y j Hj. apply Hpure. specialize (Hticks x k). lia.
Qed.

Section Frozen.
Variable clock : Clock.
Variable now : Date.

Lemma calculateTrustScore_ticks entry j :
  (j <= snd (Registry.calculateTrustScore clock entry j))%nat.
Proof.
  unfold Registry.calculateTrustScore. rewrite bind_run.
  pose proof (filterM_ticks (Registry.isActiveCert clock) (e_certifications entry) j
                (isActiveCert_ticks clock)) as H.
  unfold_M. cbn. lia.
Qed.

Lemma certificationIssues_ticks cert j :
  (j <= snd (Registry.certificationIssues clock cert j))%nat.
Proof.
  unfold Registry.certificationIssues.
  destruct (tc_expirationDate cert); unfold_M; cbn; lia.
Qed.

Lemma certificationIssues_frozen cert j :
  (forall i, (j <= i)%nat -> clock i = now) ->
  fst (Registry.certificationIssues clock cert j) = []
  <-> RegistrySpec.certificationOk now cert = true.
Proof.
  intros Hfrozen.
  unfold Registry.certificationIssues, RegistrySpec.certificationOk, Registry.expiredAt.
  destruct (truthy (tc_certificationId cert)), (truthy (tc_issuingAuthority cert));
    destruct (tc_expirationDate cert) as [d|]; unfold_M; cbn;
    rewrite ?Hfrozen by lia; try destruct (d <? now); cbn;
    split; intros H; try reflexivity; try discriminate.
Qed.

(** At the instant [now], [validateCertifications] succeeds exactly when
    every certification is acceptable, and reports at least one error
    when it fails. *)
Lemma validateCertifications_frozen certs k :
  (forall i, (k <= i)%nat -> clock i = now) ->
  let res := fst (Registry.validateCertifications clock certs k) in
  success res = forallb (RegistrySpec.certificationOk now) certs
  /\ (success res = true -> message res = "Certification validation passed"%string)
  /\ (success res = false ->
      message res = "Certification validation failed"%string
      /\ exists issues, errors res = Some issues /\ issues <> []).
Proof.
  intros Hfrozen. cbn zeta. unfold Registry.validateCertifications. rewrite bind_run.
  destruct (forallb (RegistrySpec.certificationOk now) certs) eqn:Hall.
  - rewrite (mapM_concat_nil _ (fun c => negb (RegistrySpec.certificationOk now c))).
    + unfold_M. cbn. repeat split; try reflexivity; discriminate.
    + apply certificationIssues_ticks.
    + intros c j Hj Hc. apply negb_false_iff in Hc.
      apply certificationIssues_frozen; [|exact Hc]. intros i Hi. apply Hfrozen. lia.
    + apply not_true_is_false. intros Hex. apply existsb_exists in Hex as (c & Hin & Hc).
      rewrite forallb_forall in Hall. rewrite (Hall c Hin) in Hc. discriminate.
  - assert (Hne : concat (fst (mapM (Registry.certificationIssues clock) certs k)) <> []).
    { apply (mapM_concat_nonempty _ (fun c => negb (RegistrySpec.certificationOk now c))).
      - apply certificationIssues_ticks.
      - intros c j Hj Hc Hnil. apply negb_true_iff in Hc.
        apply certificationIssues_frozen in Hnil; [congruence|].
        intros i Hi. apply Hfrozen. lia.
      - apply not_false_is_true. intros Hex.
        assert (forallb (RegistrySpec.certificationOk now) certs = true); [|congruence].
        apply forallb_forall. intros c Hin.
        destruct (RegistrySpec.certificationOk now c) eqn:Hc; [reflexivity|].
        exfalso. apply not_true_iff_false in Hex. apply Hex.
        apply existsb_exists. exists c. rewrite Hc. auto. }
    destruct (concat _) as [|issue issues]; [contradiction|].
    unfold_M. cbn. split; [reflexivity|]. split; [discriminate|].
    intros _. split; [reflexivity|]. eexists. split; [reflexivity | discriminate].
Qed.
End Frozen.

(** The score at a standing clock, for use in the properties below. *)
Lemma calculateTrustScore_frozen clock now entry k :
  (forall i, (k <= i)%nat -> clock i = now) ->
  fst (Registry.calculateTrustScore clock entry k) = Registry.score_spec now entry.
Proof.
  intros Hfrozen.
  unfold Registry.calculateTrustScore, Registry.score_spec, Registry.activeCertCount,
    Registry.wholeDaysSince, Registry.clamp.
  rewrite bind_run.
  rewrite (activeCerts_frozen clock now (e_certifications entry) k Hfrozen).
  pose proof (filterM_ticks (Registry.isActiveCert clock) (e_certifications entry) k
                (isActiveCert_ticks clock)) as Hk.
  unfold_M. cbn [fst snd].
  rewrite !Hfrozen by lia.
  change Registry.MS_PER_DAY with 86400000.
  set (n := Z.of_nat _).
  destruct (e_status entry), (e_assuranceLevel entry);
    cbn [Registry.statusBonus Registry.assuranceBonus];
    destruct (365 <? _), (90 <? _); f_equal; lia.
Qed.

(** ** Registration in the registry *)

Lemma has_false_get {V : Type} (m : list (string * V)) (k : string) :
  JsMap.has m k = false -> JsMap.get m k = None.
Proof. unfold JsMap.has. destruct (JsMap.get m k); [discriminate | reflexivity]. Qed.

(** X1. A successful [registerParticipant] appends the submitted entry, with
    its [trustScore] replaced by the computed score that the result
    reports, at the end of the map; the entries already stored, their
    order and the verification history are untouched. *)
Theorem registerParticipant_stores clock r entry k :
  let out := fst (Registry.registerParticipant clock r entry k) in
  success (fst out) = true ->
  exists score,
    0 <= score <= 100
    /\ message (fst out) = "Participant registered successfully"%string
    /\ data (fst out) = Some (RegisteredData (e_participantId entry) score)
    /\ Registry.getTrustEntry r (e_participantId entry) = None
    /\ trustEntries (snd out)
       = trustEntries r ++ [(e_participantId entry, set_trustScore entry score)]
    /\ Registry.getTrustEntry (snd out) (e_participantId entry)
       = Some (set_trustScore entry score)
    /\ (forall id, id <> e_participantId entry ->
          Registry.getTrustEntry (snd out) id = Registry.getTrustEntry r id)
    /\ verificationHistory (snd out) = verificationHistory r.
Proof.
  cbn zeta. unfold Registry.registerParticipant, Registry.getTrustEntry.
  destruct (Registry.validateInput entry); cbn [negb].
  2: { unfold_M. cbn. discriminate. }
  destruct (JsMap.has _ _) eqn:Hhas.
  { unfold_M. cbn. discriminate. }
  apply has_false_get in Hhas.
  rewrite bind_run.
  destruct (success (fst (Registry.validateCertifications clock _ k))) eqn:Hcv; cbn [negb].
  2: { unfold ret. cbn. congruence. }
  rewrite bind_run.
  pose proof (calculateTrustScore_range clock entry
                (snd (Registry.validateCertifications clock (e_certifications entry) k)))
    as Hr.
  destruct (Registry.calculateTrustScore clock entry _) as [score k2]. cbn in Hr.
  unfold Registry.logActivity. unfold_M. cbn. intros _.
  exists score. split; [exact Hr|]. split; [reflexivity|]. split; [reflexivity|].
  split; [exact Hhas|]. split; [apply set_absent, Hhas|].
  split; [apply get_set_eq|]. split; [|reflexivity].
  intros id Hne. apply get_set_ne. congruence.
Qed.

Lemma registerParticipant_stores_witness :
  let out := fst (Registry.registerParticipant (Sample.frozen Sample.t1)
                    (Sample.registryWith (Sample.entry "P1" TrustStatus.TRUSTED None 100))
                    (Sample.entry "P2" TrustStatus.PROVISIONAL None 7) 0%nat) in
  success (fst out) = true
  /\ map fst (trustEntries (snd out)) = ["P1"; "P2"]%string.
Proof.
  cbn zeta. split; [reflexivity|].
  destruct (registerParticipant_stores (Sample.frozen Sample.t1)
              (Sample.registryWith (Sample.entry "P1" TrustStatus.TRUSTED None 100))
              (Sample.entry "P2" TrustStatus.PROVISIONAL None 7) 0%nat)
    as (score & _ & _ & _ & _ & Hentries & _); [reflexivity|].
  rewrite Hentries. reflexivity.
Defined.

(** X2. At an instant [now], [registerParticipant] succeeds exactly when
    the entry has the required fields, its id is new and every
    certification is acceptable; the three rejections are told apart by
    their messages and change nothing, a certification rejection lists
    its errors, and the score stored on success is the formula's value
    for the submitted entry, whatever [trustScore] was submitted. *)
Theorem registerParticipant_outcome clock now r entry k :
  (forall i, (k <= i)%nat -> clock i = now) ->
  let out := fst (Registry.registerParticipant clock r entry k) in
  let valid := Registry.validateInput entry in
  let known := JsMap.has (trustEntries r) (e_participantId entry) in
  let certsOk := forallb (RegistrySpec.certificationOk now) (e_certifications entry) in
  success (fst out) = valid && negb known && certsOk
  /\ message (fst out)
     = (if negb valid then "Invalid trust registry entry data"
        else if known then "Participant already registered"
        else if negb certsOk then "Certification validation failed"
        else "Participant registered successfully")%string
  /\ (success (fst out) = false -> snd out = r)
  /\ (valid = true -> known = false -> certsOk = false ->
      exists issues, errors (fst out) = Some issues /\ issues <> [])
  /\ (success (fst out) = true ->
      Registry.getTrustEntry (snd out) (e_participantId entry)
      = Some (set_trustScore entry (Registry.score_spec now entry))).
Proof.
  intros Hfrozen. cbn zeta. unfold Registry.registerParticipant, Registry.getTrustEntry.
  destruct (Registry.validateInput entry); cbn [negb andb].
  2: { unfold_M. cbn. repeat split; try reflexivity; discriminate. }
  destruct (JsMap.has _ _) eqn:Hhas; cbn [negb andb].
  { unfold_M. cbn. repeat split; try reflexivity; discriminate. }
  rewrite bind_run.
  destruct (validateCertifications_frozen clock now (e_certifications entry) k Hfrozen)
    as (Hsucc & Hpass & Hfail). cbn zeta in *.
  destruct (success (fst (Registry.validateCertifications clock _ k))) eqn:Hcv;
    cbn [negb]; rewrite <- Hsucc; cbn [negb].
  2: { unfold ret. cbn [fst snd]. destruct (Hfail eq_refl) as [Hmsg Herr].
       rewrite Hcv, Hmsg. repeat split; try reflexivity; try discriminate.
       intros _ _ _. exact Herr. }
  rewrite bind_run.
  assert (Hscore : fst (Registry.calculateTrustScore clock entry
                          (snd (Registry.validateCertifications clock
                                  (e_certifications entry) k)))
                   = Registry.score_spec now entry).
  { apply calculateTrustScore_frozen. intros i Hi. apply Hfrozen.
    unfold Registry.validateCertifications in Hi. rewrite bind_run in Hi.
    pose proof (mapM_ticks (Registry.certificationIssues clock) (e_certifications entry) k
                  (certificationIssues_ticks clock)) as Ht.
    destruct (0 <? _)%nat in Hi; unfold_M; cbn in Hi; lia. }
  destruct (Registry.calculateTrustScore clock entry _) as [score k2]. cbn in Hscore.
  subst score.
  unfold Registry.logActivity. unfold_M. cbn.
  repeat split; try reflexivity; try discriminate.
  intros _. apply get_set_eq.
Qed.

Lemma registerParticipant_outcome_witness :
  (forall i, (0 <= i)%nat -> Sample.frozen Sample.t1 i = Sample.t1)
  /\ Registry.getTrustEntry
       (snd (fst (Registry.registerParticipant (Sample.frozen Sample.t1)
                    Sample.emptyRegistry (Sample.entry "P1" TrustStatus.TRUSTED None 7)
                    0%nat))) "P1"
     = Some (Sample.entry "P1" TrustStatus.TRUSTED None 100).
Proof.
  split; [intros; reflexivity|].
  destruct (registerParticipant_outcome (Sample.frozen Sample.t1) Sample.t1
              Sample.emptyRegistry (Sample.entry "P1" TrustStatus.TRUSTED None 7) 0%nat)
    as (_ & _ & _ & _ & Hstored); [intros; reflexivity|].
  exact (Hstored eq_refl).
Defined.

(** ** Unknown participants *)

(** X3. [verifyTrust] and [updateParticipantStatus] on an id that the
    registry does not hold fail with their not-found messages and leave
    the provider as it was: no history is created and no entry is
    written. *)
Theorem unknown_participant_rejected clock r participantId k :
  Registry.getTrustEntry r participantId = None ->
  (forall request,
     rq_participantId request = participantId ->
     let out := fst (Registry.verifyTrust clock r request k) in
     success (fst out) = false
     /\ message (fst out) = "Participant not found in trust registry"%string
     /\ data (fst out) = None
     /\ snd out = r)
  /\ (forall newStatus reason,
        let out := fst (Registry.updateParticipantStatus clock r participantId
                          newStatus reason k) in
        success (fst out) = false
        /\ message (fst out) = "Participant not found"%string
        /\ data (fst out) = None
        /\ snd out = r).
Proof.
  unfold Registry.getTrustEntry. intros Hget. split.
  - intros request <-. cbn zeta. unfold Registry.verifyTrust. rewrite Hget.
    unfold_M. cbn. auto.
  - intros newStatus reason. cbn zeta. unfold Registry.updateParticipantStatus.
    rewrite Hget. unfold_M. cbn. auto.
Qed.

Lemma unknown_participant_rejected_witness :
  Registry.getTrustEntry Sample.emptyRegistry "P9" = None
  /\ snd (fst (Registry.verifyTrust (Sample.frozen Sample.t1) Sample.emptyRegistry
                 (Sample.request "P9") 0%nat))
     = Sample.emptyRegistry.
Proof.
  split; [reflexivity|].
  apply (proj1 (unknown_participant_rejected (Sample.frozen Sample.t1)
                  Sample.emptyRegistry "P9" 0%nat eq_refl) (Sample.request "P9") eq_refl).
Defined.

(** ** Status updates *)

(** X4. [updateParticipantStatus] on a stored entry always succeeds,
    whatever the old and the new status: it reports the previous
    status, writes the new status, sets [lastVerified] to the reading
    of the clock and recomputes the score from the entry so changed.
    The entry keeps its place in the map, and the other entries and
    the verification history are as before. *)
Theorem updateParticipantStatus_effect clock r participantId newStatus reason k entry :
  Registry.getTrustEntry r participantId = Some entry ->
  let out := fst (Registry.updateParticipantStatus clock r participantId newStatus reason k) in
  let touched := set_lastVerified (set_status entry newStatus) (clock k) in
  let score := fst (Registry.calculateTrustScore clock touched (S k)) in
  success (fst out) = true
  /\ data (fst out) = Some (StatusData participantId (e_status entry) newStatus score)
  /\ Registry.getTrustEntry (snd out) participantId = Some (set_trustScore touched score)
  /\ (forall id, id <> participantId ->
        Registry.getTrustEntry (snd out) id = Registry.getTrustEntry r id)
  /\ map fst (trustEntries (snd out)) = map fst (trustEntries r)
  /\ verificationHistory (snd out) = verificationHistory r.
Proof.
  unfold Registry.getTrustEntry. intros Hget. cbn zeta.
  unfold Registry.updateParticipantStatus. rewrite Hget.
  rewrite bind_run. cbn [newDate fst snd]. rewrite bind_run.
  unfold Registry.logActivity. unfold_M. cbn.
  split; [reflexivity|]. split; [reflexivity|]. split; [apply get_set_eq|].
  split; [intros id Hne; apply get_set_ne; congruence|].
  split; [apply set_keys_present; eauto | reflexivity].
Qed.

Lemma updateParticipantStatus_effect_witness :
  let r := Sample.registryWith (Sample.entry "P1" TrustStatus.TRUSTED None 100) in
  let out := fst (Registry.updateParticipantStatus (Sample.frozen Sample.t1) r "P1"
                    TrustStatus.REVOKED "audit" 0%nat) in
  Registry.getTrustEntry r "P1" = Some (Sample.entry "P1" TrustStatus.TRUSTED None 100)
  /\ data (fst out)
     = Some (StatusData "P1" TrustStatus.TRUSTED TrustStatus.REVOKED 20).
Proof.
  cbn zeta. split; [reflexivity|].
  destruct (updateParticipantStatus_effect (Sample.frozen Sample.t1)
              (Sample.registryWith (Sample.entry "P1" TrustStatus.TRUSTED None 100))
              "P1" TrustStatus.REVOKED "audit" 0%nat
              (Sample.entry "P1" TrustStatus.TRUSTED None 100) eq_refl)
    as (_ & Hdata & _).
  rewrite Hdata. reflexivity.
Defined.

(** ** Score bands *)

(** X5. The status fixes a band for the score that no other field can
    leave: a TRUSTED entry scores at least 80 and a PROVISIONAL one at
    least 60, a SUSPENDED entry scores between 30 and 75, a REVOKED one
    at most 45, an UNKNOWN one between 50 and 95.  So a recomputed
    score of a TRUSTED entry always meets the verification threshold of
    70, and that of a REVOKED entry never reaches 50. *)
Theorem calculateTrustScore_bands clock entry k :
  let score := fst (Registry.calculateTrustScore clock entry k) in
  match e_status entry with
  | TrustStatus.TRUSTED => 80 <= score <= 100
  | TrustStatus.PROVISIONAL => 60 <= score <= 100
  | TrustStatus.SUSPENDED => 30 <= score <= 75
  | TrustStatus.REVOKED => 0 <= score <= 45
  | TrustStatus.UNKNOWN => 50 <= score <= 95
  end.
Proof.
  cbn zeta. unfold Registry.calculateTrustScore. rewrite bind_run. unfold_M. cbn [fst snd].
  set (n := Z.of_nat _). assert (0 <= n) by (unfold n; lia).
  destruct (e_status entry), (e_assuranceLevel entry);
    destruct (365 <? _), (90 <? _); lia.
Qed.

(** ** The verification result *)

Lemma performTrustVerification_details clock now entry request k :
  (forall i, (k <= i)%nat -> clock i = now) ->
  let vr := fst (Registry.performTrustVerification clock entry request k) in
  let d := vr_verificationDetails vr in
  vr_participantId vr = e_participantId entry
  /\ vr_trustScore vr = e_trustScore entry
  /\ criteriaChecked d = passed d ++ failed d ++ warnings d
  /\ (length (passed d) + length (failed d) + length (warnings d) = 3)%nat
  /\ (failed d = [] <->
      e_status entry = TrustStatus.TRUSTED
      /\ 0 < Registry.activeCertCount now entry
      /\ 50 <= e_trustScore entry)
  /\ (warnings d <> [] <-> 50 <= e_trustScore entry < 70)
  /\ (vr_trustStatus vr = TrustStatus.TRUSTED <-> failed d = [])
  /\ (In "Trust score too low"%string (failed d) <-> e_trustScore entry < 50)
  /\ (In "No active certifications"%string (failed d) <->
      Registry.activeCertCount now entry = 0).
Proof.
  intros Hfrozen. cbn zeta. unfold Registry.performTrustVerification.
  unfold Registry.activeCertCount.
  case_bool_decide as Hst;
    rewrite bind_run; rewrite (activeCerts_frozen clock now _ k Hfrozen);
    destruct (List.filter (Registry.activeAt now) (e_certifications entry)) as [|c cs];
    cbn [length Nat.ltb Nat.leb];
    destruct (Z.leb_spec 70 (e_trustScore entry));
    destruct (Z.leb_spec 50 (e_trustScore entry));
    unfold_M; cbn [fst snd negb vr_participantId vr_trustScore vr_verificationDetails
                   vr_trustStatus criteriaChecked passed failed warnings app length];
    try (exfalso; lia);
    (split; [reflexivity|]); (split; [reflexivity|]); (split; [reflexivity|]);
    (split; [reflexivity|]);
    repeat split; intros;
      repeat match goal with
             | H : _ /\ _ |- _ => destruct H
             | H : In _ _ |- _ => cbn in H
             | H : _ \/ _ |- _ => destruct H
             | H : False |- _ => destruct H
             | H : TrustStatus.toString _ = _ |- _ =>
                 destruct (e_status entry); discriminate H
             end;
      try discriminate; try contradiction; try congruence; try lia; try reflexivity;
      try (cbn; tauto); try (destruct (e_status entry); congruence).
Qed.

Lemma verifyTrust_found clock r request k entry :
  Registry.getTrustEntry r (rq_participantId request) = Some entry ->
  let out := fst (Registry.verifyTrust clock r request k) in
  success (fst out) = true
  /\ message (fst out) = "Trust verification completed"%string
  /\ data (fst out)
     = Some (VerificationData
               (fst (Registry.performTrustVerification clock entry request k)))
  /\ trustEntries (snd out) = trustEntries r.
Proof.
  unfold Registry.getTrustEntry. intros Hget. cbn zeta.
  unfold Registry.verifyTrust. rewrite Hget. rewrite bind_run.
  unfold Registry.logActivity. unfold_M. cbn. auto.
Qed.

(** X6. At an instant [now], the result that [verifyTrust] returns for a
    stored entry judges the stored score (it is not recomputed) and
    files each of the three checks in exactly one of [passed], [failed]
    and [warnings].  The result is TRUSTED exactly when nothing failed,
    that is when the status is TRUSTED, some certification is active
    at [now] and the stored score is 50 or more; a score from 50 to 69
    only warns. *)
Theorem verifyTrust_decision clock now r request k entry :
  (forall i, (k <= i)%nat -> clock i = now) ->
  Registry.getTrustEntry r (rq_participantId request) = Some entry ->
  exists vr,
    data (fst (fst (Registry.verifyTrust clock r request k))) = Some (VerificationData vr)
    /\ vr_participantId vr = e_participantId entry
    /\ vr_trustScore vr = e_trustScore entry
    /\ criteriaChecked (vr_verificationDetails vr)
       = passed (vr_verificationDetails vr) ++ failed (vr_verificationDetails vr)
         ++ warnings (vr_verificationDetails vr)
    /\ length (criteriaChecked (vr_verificationDetails vr)) = 3%nat
    /\ (vr_trustStatus vr = TrustStatus.TRUSTED <->
        failed (vr_verificationDetails vr) = [])
    /\ (failed (vr_verificationDetails vr) = [] <->
        e_status entry = TrustStatus.TRUSTED
        /\ 0 < Registry.activeCertCount now entry
        /\ 50 <= e_trustScore entry)
    /\ (warnings (vr_verificationDetails vr) <> [] <-> 50 <= e_trustScore entry < 70).
Proof.
  intros Hfrozen Hget.
  destruct (verifyTrust_found clock r request k entry Hget) as (_ & _ & Hdata & _).
  destruct (performTrustVerification_details clock now entry request k Hfrozen)
    as (Hid & Hscore & Hchecked & Hlen & Hfailed & Hwarn & Htrusted & _).
  cbn zeta in *. eexists. split; [exact Hdata|].
  split; [exact Hid|]. split; [exact Hscore|]. split; [exact Hchecked|].
  split; [rewrite Hchecked, !length_app; lia|].
  split; [exact Htrusted|]. split; [exact Hfailed | exact Hwarn].
Qed.

Lemma verifyTrust_decision_witness :
  (forall i, (0 <= i)%nat -> Sample.frozen Sample.t1 i = Sample.t1)
  /\ exists vr,
       data (fst (fst (Registry.verifyTrust (Sample.frozen Sample.t1)
                         (Sample.registryWith
                            (Sample.entry "P1" TrustStatus.TRUSTED None 60))
                         (Sample.request "P1") 0%nat)))
       = Some (VerificationData vr)
       /\ vr_trustStatus vr = TrustStatus.TRUSTED
       /\ warnings (vr_verificationDetails vr) <> [].
Proof.
  split; [intros; reflexivity|].
  destruct (verifyTrust_decision (Sample.frozen Sample.t1) Sample.t1
              (Sample.registryWith (Sample.entry "P1" TrustStatus.TRUSTED None 60))
              (Sample.request "P1") 0%nat
              (Sample.entry "P1" TrustStatus.TRUSTED None 60))
    as (vr & Hdata & _ & _ & _ & _ & Htrusted & Hfailed & Hwarn);
    [intros; reflexivity | reflexivity |].
  exists vr. split; [exact Hdata|]. split.
  - apply Htrusted, Hfailed. split; [reflexivity|]. split; [reflexivity|]. cbn. lia.
  - apply Hwarn. cbn. lia.
Defined.

(** X7. The validity window of a verification result is made of three
    successive readings of the clock: the verification date, the start
    of the window, and the reading to which 24 hours are added for its
    end.  With a clock that does not run backwards the window opens no
    earlier than the verification date and lasts at least 24 hours;
    with a standing clock it lasts exactly 24 hours. *)
Theorem verifyTrust_validity clock r request k entry :
  Registry.getTrustEntry r (rq_participantId request) = Some entry ->
  exists vr j,
    data (fst (fst (Registry.verifyTrust clock r request k))) = Some (VerificationData vr)
    /\ (k <= j)%nat
    /\ vr_verificationDate vr = clock j
    /\ validFrom (vr_validity vr) = clock (S j)
    /\ validUntil (vr_validity vr) = clock (S (S j)) + 86400000
    /\ ((forall a b, (a <= b)%nat -> clock a <= clock b) ->
        vr_verificationDate vr <= validFrom (vr_validity vr)
        /\ validFrom (vr_validity vr) + 86400000 <= validUntil (vr_validity vr))
    /\ (forall now, (forall i, (k <= i)%nat -> clock i = now) ->
        vr_verificationDate vr = now
        /\ validFrom (vr_validity vr) = now
        /\ validUntil (vr_validity vr) = now + 86400000).
Proof.
  intros Hget.
  destruct (verifyTrust_found clock r request k entry Hget) as (_ & _ & Hdata & _).
  cbn zeta in Hdata. eexists.
  exists (snd (filterM (Registry.isActiveCert clock) (e_certifications entry) k)).
  split; [exact Hdata|].
  pose proof (filterM_ticks (Registry.isActiveCert clock) (e_certifications entry) k
                (isActiveCert_ticks clock)) as Hk.
  split; [exact Hk|].
  unfold Registry.performTrustVerification.
  case_bool_decide; rewrite bind_run;
    destruct (0 <? length _)%nat;
    destruct (70 <=? e_trustScore entry); destruct (50 <=? e_trustScore entry);
    unfold_M; cbn [fst snd vr_verificationDate vr_validity validFrom validUntil];
    (split; [reflexivity|]); (split; [reflexivity|]); (split; [reflexivity|]);
    (split; [intros Hmono; split;
             [apply Hmono; lia
             | apply Z.add_le_mono_r; apply Hmono; lia]
            | intros now Hfrozen; rewrite !Hfrozen by lia; auto]).
Qed.

Lemma verifyTrust_validity_witness :
  Registry.getTrustEntry
    (Sample.registryWith (Sample.entry "P1" TrustStatus.TRUSTED None 85)) "P1"
  = Some (Sample.entry "P1" TrustStatus.TRUSTED None 85)
  /\ exists vr,
       data (fst (fst (Registry.verifyTrust (Sample.frozen Sample.t1)
                         (Sample.registryWith
                            (Sample.entry "P1" TrustStatus.TRUSTED None 85))
                         (Sample.request "P1") 0%nat)))
       = Some (VerificationData vr)
       /\ validUntil (vr_validity vr) = Sample.t1 + 86400000.
Proof.
  split; [reflexivity|].
  destruct (verifyTrust_validity (Sample.frozen Sample.t1)
              (Sample.registryWith (Sample.entry "P1" TrustStatus.TRUSTED None 85))
              (Sample.request "P1") 0%nat
              (Sample.entry "P1" TrustStatus.TRUSTED None 85) eq_refl)
    as (vr & j & Hdata & _ & _ & _ & Huntil & _).
  exists vr. split; [exact Hdata|]. rewrite Huntil. reflexivity.
Defined.

(** ** Invariants of the reachable registry states *)

Lemma set_Forall_key {V : Type} (Q : string * V -> Prop) (m : list (string * V))
    (k : string) (v : V) :
  Forall Q m -> Q (k, v) -> Forall Q (JsMap.set m k v).
Proof.
  intros Hm Hv. induction Hm as [|[k' v'] m Hx Hm IH]; cbn.
  - constructor; [exact Hv | constructor].
  - destruct (String.eqb_spec k' k) as [->|Hne]; constructor; auto.
Qed.

Lemma get_is_Some_keys {V : Type} (m : list (string * V)) (k : string) :
  is_Some (JsMap.get m k) <-> In k (map fst m).
Proof.
  induction m as [|[k' v'] m IH]; cbn.
  - split; [intros [? ?]; discriminate | tauto].
  - destruct (String.eqb_spec k' k) as [->|Hne].
    + split; [auto | eauto].
    + rewrite IH. split; [auto | intros [?|?]; [contradiction | assumption]].
Qed.

Lemma sameIdentity_trans l l1 l2 :
  Forall2 sameIdentity l l1 -> Forall2 sameIdentity l1 l2 -> Forall2 sameIdentity l l2.
Proof.
  intros H1. revert l2.
  induction H1 as [|x y l l1 (Hk & Hid & Hname) H1 IH]; intros l2 H2;
    inversion H2 as [|? z ? l2' (Hk' & Hid' & Hname') H2']; subst; constructor.
  - unfold sameIdentity. repeat split; congruence.
  - apply IH, H2'.
Qed.

Lemma sweep_loops_sameIdentity clock entries k1 k2 :
  Forall2 sameIdentity entries
    (fst (Registry.processExpiredEntries clock
            (fst (Registry.updateTrustScores clock entries k1)) k2)).
Proof.
  apply (sameIdentity_trans _ (fst (Registry.updateTrustScores clock entries k1))).
  - apply mapM_Forall2. intros [id e] j. unfold Registry.updateTrustScore.
    rewrite bind_run. destruct (negb _); unfold Registry.logActivity; unfold_M;
      cbn; repeat split.
  - unfold Registry.processExpiredEntries. rewrite bind_run. cbn [newDate fst snd].
    apply mapM_Forall2. intros [id e] j. unfold Registry.processExpiredEntry.
    destruct (_ && _); unfold Registry.logActivity; unfold_M; cbn; repeat split.
Qed.

Lemma sameIdentity_wellKeyed l l' :
  Forall2 sameIdentity l l' -> RegistrySpec.wellKeyed l -> RegistrySpec.wellKeyed l'.
Proof.
  intros H [Hnd Hall].
  assert (Hkeys : map fst l' = map fst l).
  { induction H as [|x y l l' (Hk & _) H IH]; cbn; [reflexivity|]. rewrite Hk.
    f_equal. apply IH.
    - cbn in Hnd. apply NoDup_cons in Hnd. tauto.
    - inversion Hall; assumption. }
  split; [rewrite Hkeys; exact Hnd|].
  clear Hnd Hkeys. induction H as [|x y l l' (Hk & Hid & Hname) H IH]; constructor.
  - inversion Hall as [|? ? [Hx Hv] Hl]; subst. unfold Registry.validateInput in *.
    rewrite Hk, Hid, Hname. auto.
  - apply IH. inversion Hall; assumption.
Qed.

Lemma sameIdentity_keys l l' :
  Forall2 sameIdentity l l' -> map fst l' = map fst l.
Proof.
  induction 1 as [|x y l l' (Hk & _) H IH]; cbn; [reflexivity|]. rewrite Hk, IH.
  reflexivity.
Qed.

Lemma verifyTrust_history clock r request k entry :
  Registry.getTrustEntry r (rq_participantId request) = Some entry ->
  let out := fst (Registry.verifyTrust clock r request k) in
  let vr := fst (Registry.performTrustVerification clock entry request k) in
  verificationHistory (snd out) !! rq_participantId request
  = Some (Registry.getVerificationHistory r (rq_participantId request) ++ [vr])
  /\ (forall id, id <> rq_participantId request ->
        verificationHistory (snd out) !! id = verificationHistory r !! id).
Proof.
  unfold Registry.getTrustEntry. intros Hget. cbn zeta.
  unfold Registry.verifyTrust. rewrite Hget. rewrite bind_run.
  unfold Registry.logActivity. unfold_M. cbn [fst snd].
  unfold Registry.getVerificationHistory. cbn [verificationHistory set_verificationHistory].
  split.
  - rewrite lookup_alter_eq.
    destruct (verificationHistory r !! rq_participantId request) as [h|] eqn:Hh.
    + rewrite Hh. reflexivity.
    + rewrite lookup_insert_eq. reflexivity.
  - intros id Hne. rewrite lookup_alter_ne by congruence.
    destruct (verificationHistory r !! rq_participantId request); [reflexivity|].
    rewrite lookup_insert_ne by congruence. reflexivity.
Qed.

Lemma verifyTrust_missing clock r request k :
  Registry.getTrustEntry r (rq_participantId request) = None ->
  snd (fst (Registry.verifyTrust clock r request k)) = r.
Proof.
  unfold Registry.getTrustEntry, Registry.verifyTrust. intros ->. reflexivity.
Qed.

Lemma performTrustVerification_participantId clock entry request k :
  vr_participantId (fst (Registry.performTrustVerification clock entry request k))
  = e_participantId entry.
Proof.
  unfold Registry.performTrustVerification.
  case_bool_decide; rewrite bind_run; destruct (0 <? length _)%nat;
    destruct (70 <=? e_trustScore entry); destruct (50 <=? e_trustScore entry);
    unfold_M; reflexivity.
Qed.

Lemma reachable_invariants r :
  Registry.reachable r ->
  RegistrySpec.wellKeyed (trustEntries r) /\ RegistrySpec.historyOf r.
Proof.
  induction 1 as [registryId name gf al
                 | clock k r Hr [IHk IHh]
                 | clock k r entry Hr [IHk IHh]
                 | clock k r request Hr [IHk IHh]
                 | clock k r participantId newStatus reason Hr [IHk IHh]].
  - split.
    + split; cbn; constructor.
    + intros id h Hh. cbn in Hh. rewrite lookup_empty in Hh. discriminate.
  - destruct (executeProcess_cases clock r k)
      as [(_ & -> & _)|(_ & _ & Hhist & k1 & k2 & Hentries)].
    + split; [exact IHk | exact IHh].
    + pose proof (sweep_loops_sameIdentity clock (trustEntries r) k1 k2) as Hsame.
      rewrite <- Hentries in Hsame. split.
      * apply (sameIdentity_wellKeyed _ _ Hsame IHk).
      * intros id h Hh. rewrite Hhist in Hh. destruct (IHh id h Hh) as (Hne & Hsome & Hall).
        split; [exact Hne|]. split; [|exact Hall].
        unfold Registry.getTrustEntry in *. apply get_is_Some_keys.
        rewrite (sameIdentity_keys _ _ Hsame). apply get_is_Some_keys. exact Hsome.
  - destruct (registerParticipant_cases clock r entry k)
      as [(_ & ->)|(_ & Hvalid & Hhas & score & _ & _ & ->)].
    + split; [exact IHk | exact IHh].
    + cbn [trustEntries set_trustEntries]. split.
      * destruct IHk as [Hnd Hall]. split.
        -- apply set_keys_NoDup, Hnd.
        -- apply set_Forall_key; [exact Hall|]. cbn. split; [reflexivity | exact Hvalid].
      * intros id h Hh. cbn in Hh. destruct (IHh id h Hh) as (Hne & Hsome & Hall).
        split; [exact Hne|]. split; [|exact Hall].
        unfold Registry.getTrustEntry in *. cbn [trustEntries set_trustEntries].
        destruct (String.eqb_spec (e_participantId entry) id) as [<-|Hneq].
        -- rewrite get_set_eq. eauto.
        -- rewrite get_set_ne by exact Hneq. exact Hsome.
  - destruct (Registry.getTrustEntry r (rq_participantId request)) as [entry|] eqn:Hget.
    + destruct (verifyTrust_found clock r request k entry Hget) as (_ & _ & _ & Hentries).
      destruct (verifyTrust_history clock r request k entry Hget) as (Hthis & Hother).
      cbn zeta in *. split; [rewrite Hentries; exact IHk|].
      intros id h Hh. unfold Registry.getTrustEntry. rewrite Hentries.
      destruct (String.eqb_spec id (rq_participantId request)) as [->|Hneq].
      * rewrite Hthis in Hh. injection Hh as <-.
        split; [intros Hnil; apply app_eq_nil in Hnil as [_ ?]; discriminate|].
        split; [unfold Registry.getTrustEntry in Hget; eauto|].
        apply Forall_app. split.
        -- unfold Registry.getVerificationHistory.
           destruct (verificationHistory r !! rq_participantId request) as [h0|] eqn:Hh0;
             cbn; [|constructor].
           apply (IHh _ _ Hh0).
        -- constructor; [|constructor].
           rewrite performTrustVerification_participantId.
           destruct IHk as [_ Hall].
           apply (get_Forall _ _ _ _ Hall Hget).
      * rewrite Hother in Hh by exact Hneq. apply (IHh id h Hh).
    + rewrite verifyTrust_missing by exact Hget. split; [exact IHk | exact IHh].
  - destruct (updateParticipantStatus_cases clock r participantId newStatus reason k)
      as [(_ & -> & _)|(_ & entry & score & Hget & _ & _ & ->)].
    + split; [exact IHk | exact IHh].
    + cbn [trustEntries set_trustEntries]. split.
      * destruct IHk as [Hnd Hall]. split.
        -- apply set_keys_NoDup, Hnd.
        -- apply set_Forall_key; [exact Hall|].
           destruct (get_Forall _ _ _ _ Hall Hget) as [Hid Hvalid]. cbn in *.
           split; [exact Hid | exact Hvalid].
      * intros id h Hh. cbn in Hh. destruct (IHh id h Hh) as (Hne & Hsome & Hall).
        split; [exact Hne|]. split; [|exact Hall].
        unfold Registry.getTrustEntry in *. cbn [trustEntries set_trustEntries].
        apply get_is_Some_keys. rewrite set_keys_present by eauto.
        apply get_is_Some_keys. exact Hsome.
Qed.

(** X8. In every registry state that the public operations produce, the
    keys of the map are distinct, every entry is stored under its own
    [participantId] with a non-empty id and name, and a verification
    history exists only for a registered participant, is not empty and
    holds only results issued for that participant. *)
Theorem reachable_registry_invariants r :
  Registry.reachable r ->
  RegistrySpec.wellKeyed (trustEntries r)
  /\ RegistrySpec.historyOf r
  /\ (forall id e, Registry.getTrustEntry r id = Some e ->
        e_participantId e = id /\ id <> ""%string /\ e_name e <> ""%string)
  /\ (forall id, Registry.getTrustEntry r id = None ->
        Registry.getVerificationHistory r id = []).
Proof.
  intros Hr. destruct (reachable_invariants r Hr) as [Hkeyed Hhist].
  split; [exact Hkeyed|]. split; [exact Hhist|]. split.
  - intros id e Hget. destruct Hkeyed as [_ Hall].
    destruct (get_Forall _ _ _ _ Hall Hget) as [Hid Hvalid]. cbn in Hid, Hvalid.
    split; [exact Hid|].
    unfold Registry.validateInput, truthy in Hvalid. rewrite Hid in Hvalid.
    apply andb_true_iff in Hvalid as [H1 H2].
    apply negb_true_iff in H1, H2. apply String.eqb_neq in H1, H2. auto.
  - intros id Hnone. unfold Registry.getVerificationHistory.
    destruct (verificationHistory r !! id) as [h|] eqn:Hh; [|reflexivity].
    destruct (Hhist id h Hh) as (_ & [e He] & _). congruence.
Qed.

Lemma reachable_registry_invariants_witness :
  let r := snd (fst (Registry.registerParticipant (Sample.frozen Sample.t1)
                       Sample.emptyRegistry
                       (Sample.entry "P1" TrustStatus.TRUSTED None 0) 0%nat)) in
  Registry.reachable r
  /\ (forall e, Registry.getTrustEntry r "P1" = Some e -> e_participantId e = "P1"%string).
Proof.
  cbn zeta.
  assert (Hr : Registry.reachable
                 (snd (fst (Registry.registerParticipant (Sample.frozen Sample.t1)
                              Sample.emptyRegistry
                              (Sample.entry "P1" TrustStatus.TRUSTED None 0) 0%nat)))).
  { apply Registry.reach_registerParticipant. exact (Registry.reach_new "REG-1" "Registry" None None). }
  split; [exact Hr|].
  intros e He.
  apply (proj1 (proj2 (proj2 (reachable_registry_invariants _ Hr))) "P1"%string e He).
Defined.

(** ** Verification history in call order *)

(** X9. Two verifications of the same stored participant, one after the
    other, leave its history extended by the two returned results, in
    the order of the calls. *)
Theorem verifyTrust_twice clock r request1 request2 k entry :
  Registry.getTrustEntry r (rq_participantId request1) = Some entry ->
  rq_participantId request2 = rq_participantId request1 ->
  let run1 := Registry.verifyTrust clock r request1 k in
  let run2 := Registry.verifyTrust clock (snd (fst run1)) request2 (snd run1) in
  exists vr1 vr2,
    data (fst (fst run1)) = Some (VerificationData vr1)
    /\ data (fst (fst run2)) = Some (VerificationData vr2)
    /\ Registry.getVerificationHistory (snd (fst run2)) (rq_participantId request1)
       = Registry.getVerificationHistory r (rq_participantId request1) ++ [vr1; vr2].
Proof.
  intros Hget Hsame. cbn zeta.
  destruct (verifyTrust_found clock r request1 k entry Hget) as (_ & _ & Hdata1 & Hentries1).
  destruct (verifyTrust_history clock r request1 k entry Hget) as (Hhist1 & _).
  cbn zeta in *.
  set (r1 := snd (fst (Registry.verifyTrust clock r request1 k))) in *.
  set (k1 := snd (Registry.verifyTrust clock r request1 k)).
  assert (Hget2 : Registry.getTrustEntry r1 (rq_participantId request2) = Some entry).
  { unfold Registry.getTrustEntry in *. rewrite Hentries1, Hsame. exact Hget. }
  destruct (verifyTrust_found clock r1 request2 k1 entry Hget2) as (_ & _ & Hdata2 & _).
  destruct (verifyTrust_history clock r1 request2 k1 entry Hget2) as (Hhist2 & _).
  cbn zeta in *.
  eexists. eexists. split; [exact Hdata1|]. split; [exact Hdata2|].
  unfold Registry.getVerificationHistory at 1. rewrite <- Hsame at 1. rewrite Hhist2.
  cbn [default]. unfold Registry.getVerificationHistory at 1. rewrite Hsame, Hhist1.
  cbn [default]. unfold id. rewrite <- app_assoc. reflexivity.
Qed.

Lemma verifyTrust_twice_witness :
  let r := Sample.registryWith (Sample.entry "P1" TrustStatus.TRUSTED None 85) in
  let run1 := Registry.verifyTrust (Sample.frozen Sample.t0) r (Sample.request "P1") 0%nat in
  let run2 := Registry.verifyTrust (Sample.frozen Sample.t0) (snd (fst run1))
                (Sample.request "P1") (snd run1) in
  Registry.getTrustEntry r "P1" = Some (Sample.entry "P1" TrustStatus.TRUSTED None 85)
  /\ length (Registry.getVerificationHistory (snd (fst run2)) "P1") = 2%nat.
Proof.
  cbn zeta. split; [reflexivity|].
  destruct (verifyTrust_twice (Sample.frozen Sample.t0)
              (Sample.registryWith (Sample.entry "P1" TrustStatus.TRUSTED None 85))
              (Sample.request "P1") (Sample.request "P1") 0%nat
              (Sample.entry "P1" TrustStatus.TRUSTED None 85) eq_refl eq_refl)
    as (vr1 & vr2 & _ & _ & Hhist).
  cbn zeta in Hhist. change (rq_participantId (Sample.request "P1")) with "P1"%string in Hhist.
  rewrite Hhist. reflexivity.
Defined.

(** ** The sweep at a standing clock *)

Lemma mapM_pure_standing {A B : Type} (f : A -> M B) (g : A -> B) (l : list A) (k : nat) :
  (forall x j, fst (f x j) = g x) ->
  fst (mapM f l k) = map g l.
Proof.
  intros Hpure. revert k.
  induction l as [|x l IH]; intros k; [reflexivity|].
  cbn [mapM map]. rewrite !bind_run. cbn [ret fst]. rewrite Hpure, IH. reflexivity.
Qed.

Lemma set_trustScore_same e : set_trustScore e (e_trustScore e) = e.
Proof. destruct e. reflexivity. Qed.

Section StandingClock.
Variable clock : Clock.
Variable now : Date.
Hypothesis Hstanding : forall i, clock i = now.

Lemma entryIssues_standing kv j :
  Registry.integrityIssueAt now (snd kv) = false ->
  fst (Registry.entryIssues clock kv j) = [].
Proof.
  destruct kv as [id e]. cbn [snd]. intros Hok.
  unfold Registry.integrityIssueAt in Hok.
  apply orb_false_iff in Hok as [Hok Hscore]. apply orb_false_iff in Hok as [Hentry Hcerts].
  unfold Registry.entryIssues. rewrite !bind_run. cbn [ret fst].
  rewrite Hscore.
  rewrite (mapM_concat_nil _ (fun cert => Registry.expiredAt now (tc_expirationDate cert))).
  - unfold Registry.expiredAt in Hentry.
    destruct (e_expirationDate e) as [d|]; unfold_M; cbn; [|reflexivity].
    rewrite Hstanding, Hentry. reflexivity.
  - apply expiredCertIssue_ticks.
  - intros cert i _ Hc. unfold Registry.expiredCertIssue, Registry.expiredAt in *.
    destruct (tc_expirationDate cert) as [d|]; unfold_M; cbn; [|reflexivity].
    rewrite Hstanding, Hc. reflexivity.
  - exact Hcerts.
Qed.

Lemma integrityIssues_standing entries k :
  Forall (fun kv => Registry.integrityIssueAt now (snd kv) = false) entries ->
  fst (Registry.integrityIssues clock entries k) = [].
Proof.
  intros Hok. unfold Registry.integrityIssues. rewrite bind_run. cbn [ret fst].
  apply (mapM_concat_nil _ (fun kv => Registry.integrityIssueAt now (snd kv))).
  - apply entryIssues_ticks.
  - intros kv j _ Hkv. apply entryIssues_standing, Hkv.
  - apply not_true_is_false. intros Hex. apply existsb_exists in Hex as (kv & Hin & Hkv).
    rewrite Forall_forall in Hok. apply list_elem_of_In in Hin.
    rewrite (Hok kv Hin) in Hkv. discriminate.
Qed.

Lemma updateTrustScores_standing entries k :
  fst (Registry.updateTrustScores clock entries k) = map (RegistrySpec.rescored now) entries.
Proof.
  apply mapM_pure_standing. intros [id e] j.
  unfold Registry.updateTrustScore, RegistrySpec.rescored. rewrite bind_run.
  rewrite (calculateTrustScore_frozen clock now e j (fun i _ => Hstanding i)).
  cbn [fst snd].
  destruct (Z.eqb_spec (Registry.score_spec now e) (e_trustScore e)) as [Heq|Hne];
    cbn [negb]; unfold Registry.logActivity; unfold_M; cbn [fst].
  - rewrite Heq, set_trustScore_same. reflexivity.
  - reflexivity.
Qed.

Lemma processExpiredEntries_standing entries k :
  Forall (fun kv => Registry.expiredAt now (e_expirationDate (snd kv)) = false) entries ->
  fst (Registry.processExpiredEntries clock entries k) = entries.
Proof.
  intros Hok. unfold Registry.processExpiredEntries. rewrite bind_run.
  cbn [newDate fst snd]. rewrite Hstanding. generalize (S k). clear k.
  induction Hok as [|[id e] l Hx Hl IH]; intros k; [reflexivity|].
  cbn [mapM]. rewrite !bind_run. cbn [ret fst]. rewrite IH. f_equal.
  unfold Registry.processExpiredEntry. cbn [snd] in Hx.
  unfold Registry.expiredAt in Hx. rewrite Hx. reflexivity.
Qed.

Lemma rescored_no_issue kv :
  Registry.integrityIssueAt now (snd kv) = false ->
  Registry.integrityIssueAt now (snd (RegistrySpec.rescored now kv)) = false.
Proof.
  destruct kv as [id e]. unfold Registry.integrityIssueAt, RegistrySpec.rescored.
  cbn [snd fst set_trustScore e_expirationDate e_certifications e_trustScore].
  intros Hok. apply orb_false_iff in Hok as [Hok _]. rewrite Hok. cbn [orb].
  unfold Registry.score_spec, Registry.clamp.
  apply orb_false_iff. split; [apply Z.ltb_ge | apply Z.ltb_ge]; lia.
Qed.

Lemma rescored_twice kv :
  RegistrySpec.rescored now (RegistrySpec.rescored now kv) = RegistrySpec.rescored now kv.
Proof. destruct kv as [id e]. reflexivity. Qed.

(** The run of a sweep that finds no issue. *)
Lemma executeProcess_standing_success r k :
  Forall (fun kv => Registry.integrityIssueAt now (snd kv) = false) (trustEntries r) ->
  let out := fst (Registry.executeProcess clock r k) in
  success (fst out) = true
  /\ message (fst out) = "Trust registry validated successfully"%string
  /\ data (fst out)
     = Some (SweepData (registryId r) (length (trustEntries r)) (governanceFramework r))
  /\ trustEntries (snd out) = map (RegistrySpec.rescored now) (trustEntries r)
  /\ verificationHistory (snd out) = verificationHistory r
  /\ status (snd out) = ProcessStatus.COMPLETED.
Proof.
  intros Hok. cbn zeta. unfold Registry.executeProcess.
  rewrite bind_run. cbn [Registry.logActivity bind newDate ret fst snd].
  rewrite bind_run.
  destruct (validateRegistryIntegrity_result clock
              (set_processStatus r ProcessStatus.IN_PROGRESS) (S k))
    as [(_ & Hsucc)|(Hissues & _)]; cbn zeta in *.
  2: { exfalso. apply Hissues. cbn [trustEntries set_processStatus].
       apply integrityIssues_standing, Hok. }
  rewrite Hsucc. cbn [negb]. rewrite bind_run.
  cbn [trustEntries set_processStatus]. rewrite updateTrustScores_standing.
  rewrite bind_run. rewrite processExpiredEntries_standing.
  2: { apply Forall_forall. intros kv Hin. apply list_elem_of_In, in_map_iff in Hin.
       destruct Hin as ([id e] & <- & Hin). cbn.
       rewrite Forall_forall in Hok. apply list_elem_of_In in Hin.
       specialize (Hok _ Hin). cbn in Hok. unfold Registry.integrityIssueAt in Hok.
       apply orb_false_iff in Hok as [Hok _]. apply orb_false_iff in Hok as [Hok _].
       exact Hok. }
  unfold Registry.logActivity. unfold_M. cbn.
  unfold JsMap.size. rewrite length_map. repeat split.
Qed.
End StandingClock.

Lemma no_issue_dec now (entries : list (string * TrustRegistryEntry)) :
  Forall (fun kv => Registry.integrityIssueAt now (snd kv) = false) entries
  \/ exists id e, In (id, e) entries /\ Registry.integrityIssueAt now e = true.
Proof.
  induction entries as [|[id e] l IH].
  - left. constructor.
  - destruct (Registry.integrityIssueAt now e) eqn:He.
    + right. exists id, e. split; [left; reflexivity | exact He].
    + destruct IH as [IH|(id' & e' & Hin & He')].
      * left. constructor; [exact He | exact IH].
      * right. exists id', e'. split; [right; exact Hin | exact He'].
Qed.

(** X10. A sweep at an instant [now] succeeds exactly when no entry is
    expired, has an expired certification or has a score outside
    [0, 100].  When it succeeds, every entry keeps its key, place and
    fields except for [trustScore], which becomes the formula's value,
    the count of entries is reported and the process is COMPLETED; when
    it fails, no entry changes and the process is FAILED. *)
Theorem executeProcess_at_instant clock now r k :
  (forall i, clock i = now) ->
  let out := fst (Registry.executeProcess clock r k) in
  (success (fst out) = true <->
   Forall (fun kv => Registry.integrityIssueAt now (snd kv) = false) (trustEntries r))
  /\ (success (fst out) = true ->
      trustEntries (snd out) = map (RegistrySpec.rescored now) (trustEntries r)
      /\ data (fst out)
         = Some (SweepData (registryId r) (length (trustEntries r))
                   (governanceFramework r))
      /\ status (snd out) = ProcessStatus.COMPLETED)
  /\ (success (fst out) = false ->
      trustEntries (snd out) = trustEntries r
      /\ status (snd out) = ProcessStatus.FAILED)
  /\ verificationHistory (snd out) = verificationHistory r.
Proof.
  intros Hstanding. cbn zeta.
  destruct (no_issue_dec now (trustEntries r)) as [Hok|Hbad].
  - destruct (executeProcess_standing_success clock now Hstanding r k Hok)
      as (Hsucc & _ & Hdata & Hentries & Hhist & Hstatus). cbn zeta in *.
    split; [tauto|]. split; [auto|]. split; [congruence | exact Hhist].
  - assert (Hissues : fst (Registry.integrityIssues clock (trustEntries r) (S k)) <> []).
    { apply (integrityIssues_nonempty clock now); [auto | exact Hbad]. }
    destruct (executeProcess_cases clock r k)
      as [(Hfail & Hout & _)|(_ & Hnil & _)]; [|contradiction]. cbn zeta in *.
    rewrite Hout, Hfail. split.
    + split; [discriminate|]. intros Hok. exfalso.
      destruct Hbad as (id & e & Hin & He). rewrite Forall_forall in Hok.
      apply list_elem_of_In in Hin. specialize (Hok _ Hin). cbn in Hok. congruence.
    + split; [discriminate|]. split; [auto | reflexivity].
Qed.

Lemma executeProcess_at_instant_witness :
  let out := fst (Registry.executeProcess (Sample.frozen Sample.t1)
                    (Sample.registryWith (Sample.entry "P1" TrustStatus.TRUSTED None 3))
                    0%nat) in
  (forall i, Sample.frozen Sample.t1 i = Sample.t1)
  /\ trustEntries (snd out)
     = [("P1"%string, Sample.entry "P1" TrustStatus.TRUSTED None 100)].
Proof.
  cbn zeta. split; [reflexivity|].
  destruct (executeProcess_at_instant (Sample.frozen Sample.t1) Sample.t1
              (Sample.registryWith (Sample.entry "P1" TrustStatus.TRUSTED None 3)) 0%nat
              (fun _ => eq_refl))
    as (_ & Hsucc & _).
  destruct (Hsucc eq_refl) as (Hentries & _). rewrite Hentries. reflexivity.
Defined.

(** X11. Two sweeps in a row at the same instant: the second one has the
    outcome of the first and changes no entry. *)
Theorem executeProcess_idempotent clock now r k :
  (forall i, clock i = now) ->
  let run1 := Registry.executeProcess clock r k in
  let run2 := Registry.executeProcess clock (snd (fst run1)) (snd run1) in
  success (fst (fst run2)) = success (fst (fst run1))
  /\ trustEntries (snd (fst run2)) = trustEntries (snd (fst run1)).
Proof.
  intros Hstanding. cbn zeta.
  destruct (no_issue_dec now (trustEntries r)) as [Hok|Hbad].
  - destruct (executeProcess_standing_success clock now Hstanding r k Hok)
      as (Hsucc & _ & _ & Hentries & _). cbn zeta in *.
    assert (Hok1 : Forall (fun kv => Registry.integrityIssueAt now (snd kv) = false)
                     (trustEntries (snd (fst (Registry.executeProcess clock r k))))).
    { rewrite Hentries. apply Forall_forall. intros kv Hin.
      apply list_elem_of_In, in_map_iff in Hin. destruct Hin as (kv0 & <- & Hin).
      apply rescored_no_issue. rewrite Forall_forall in Hok. apply Hok.
      apply list_elem_of_In. exact Hin. }
    destruct (executeProcess_standing_success clock now Hstanding _
                (snd (Registry.executeProcess clock r k)) Hok1)
      as (Hsucc2 & _ & _ & Hentries2 & _). cbn zeta in *.
    rewrite Hsucc, Hsucc2, Hentries2, Hentries. split; [reflexivity|].
    rewrite map_map. apply map_ext. intros kv. apply rescored_twice.
  - assert (Hfails : forall r' j, trustEntries r' = trustEntries r ->
              success (fst (fst (Registry.executeProcess clock r' j))) = false
              /\ trustEntries (snd (fst (Registry.executeProcess clock r' j)))
                 = trustEntries r).
    { intros r' j Hsame.
      assert (Hissues : fst (Registry.integrityIssues clock (trustEntries r') (S j)) <> []).
      { rewrite Hsame. apply (integrityIssues_nonempty clock now); [auto | exact Hbad]. }
      destruct (executeProcess_cases clock r' j)
        as [(Hfail & Hout & _)|(_ & Hnil & _)]; [|contradiction]. cbn zeta in *.
      rewrite Hout. split; [exact Hfail | exact Hsame]. }
    destruct (Hfails r k eq_refl) as [Hf1 He1].
    destruct (Hfails (snd (fst (Registry.executeProcess clock r k)))
                (snd (Registry.executeProcess clock r k)) He1) as [Hf2 He2].
    rewrite Hf1, Hf2, He1, He2. auto.
Qed.

Lemma executeProcess_idempotent_witness :
  let clock := Sample.frozen Sample.t1 in
  let r := Sample.registryWith (Sample.entry "P1" TrustStatus.TRUSTED None 3) in
  let run1 := Registry.executeProcess clock r 0%nat in
  let run2 := Registry.executeProcess clock (snd (fst run1)) (snd run1) in
  (forall i, clock i = Sample.t1)
  /\ trustEntries (snd (fst run2)) = trustEntries (snd (fst run1)).
Proof.
  cbn zeta. split; [reflexivity|].
  apply (executeProcess_idempotent (Sample.frozen Sample.t1) Sample.t1
           (Sample.registryWith (Sample.entry "P1" TrustStatus.TRUSTED None 3)) 0%nat
           (fun _ => eq_refl)).
Defined.

Lemma executeProcess_frozen_keeps_statuses_witness :
  let r := Sample.registryWith (Sample.entry "P1" TrustStatus.TRUSTED (Some Sample.t0) 100) in
  (forall i, Sample.frozen Sample.t1 i = Sample.t1)
  /\ map (fun kv => e_status (snd kv))
       (trustEntries (snd (fst (Registry.executeProcess (Sample.frozen Sample.t1) r 0%nat))))
     = [TrustStatus.TRUSTED].
Proof.
  cbn zeta. split; [reflexivity|].
  rewrite (executeProcess_frozen_keeps_statuses (Sample.frozen Sample.t1) Sample.t1
             (Sample.registryWith
                (Sample.entry "P1" TrustStatus.TRUSTED (Some Sample.t0) 100))
             0%nat (fun _ => eq_refl)).
  reflexivity.
Defined.

(** ** Search *)

Lemma mismatch_false {A : Type} `{EqDecision A} (c : option A) (v : A) :
  Registry.mismatch c v = false <-> (forall x, c = Some x -> v = x).
Proof.
  unfold Registry.mismatch. destruct c as [x|].
  - rewrite negb_false_iff, bool_decide_eq_true. split.
    + intros -> y [= <-]. reflexivity.
    + intros H. apply H. reflexivity.
  - split; [intros _ x; discriminate | reflexivity].
Qed.

Lemma belowMin_false (c : option Z) (score : Z) :
  Registry.belowMin c score = false <-> (forall m, c = Some m -> m = 0 \/ m <= score).
Proof.
  unfold Registry.belowMin. destruct c as [m|].
  - rewrite andb_false_iff, negb_false_iff, Z.eqb_eq, Z.ltb_ge. split.
    + intros H m' [= <-]. exact H.
    + intros H. apply H. reflexivity.
  - split; [intros _ m; discriminate | reflexivity].
Qed.

Lemma filter_sublist {A : Type} (f : A -> bool) (l : list A) :
  sublist (List.filter f l) l.
Proof.
  induction l as [|x l IH]; cbn; [constructor|].
  destruct (f x); [apply sublist_skip | apply sublist_cons]; exact IH.
Qed.

(** X13. [searchTrustRegistry] returns exactly the stored entries that meet
    every criterion given, of the four there are: type, status,
    assurance level and minimum trust score (a zero [minTrustScore]
    counting as not given), in the order of their registration; without
    criteria it returns every entry. *)
Theorem searchTrustRegistry_matches r criteria :
  (forall entry,
     In entry (Registry.searchTrustRegistry r criteria)
     <-> In entry (JsMap.values (trustEntries r)) /\ RegistrySpec.matches criteria entry)
  /\ sublist (Registry.searchTrustRegistry r criteria) (JsMap.values (trustEntries r))
  /\ Registry.searchTrustRegistry r RegistrySpec.anyEntry = JsMap.values (trustEntries r).
Proof.
  unfold Registry.searchTrustRegistry. split; [|split].
  - intros entry. rewrite filter_In. unfold RegistrySpec.matches.
    rewrite <- !mismatch_false, <- belowMin_false.
    destruct (Registry.mismatch (sc_type criteria) (e_type entry));
      destruct (Registry.mismatch (sc_status criteria) (e_status entry));
      destruct (Registry.mismatch (sc_assuranceLevel criteria) (e_assuranceLevel entry));
      destruct (Registry.belowMin (sc_minTrustScore criteria) (e_trustScore entry));
      intuition discriminate.
  - apply filter_sublist.
  - cbn. induction (JsMap.values (trustEntries r)) as [|e l IH]; cbn; [reflexivity|].
    rewrite IH. reflexivity.
Qed.

(** ** The expiry step *)

(** X14. The expiry step of the sweep, run alone at a reading [now] of the
    clock: it keeps keys and order and touches nothing but statuses; a
    status changes only from TRUSTED to SUSPENDED, and does so exactly
    for the TRUSTED entries whose expiration date lies before [now], so
    that no TRUSTED entry expired at [now] is left. *)
Theorem processExpiredEntries_effect clock entries k :
  let now := clock k in
  let out := fst (Registry.processExpiredEntries clock entries k) in
  Forall2 (fun x y =>
             fst y = fst x
             /\ set_status (snd y) (e_status (snd x)) = snd x
             /\ (e_status (snd y) = TrustStatus.SUSPENDED
                 /\ e_status (snd x) = TrustStatus.TRUSTED
                 /\ Registry.expiredAt now (e_expirationDate (snd x)) = true
                 \/ snd y = snd x
                    /\ (e_status (snd x) <> TrustStatus.TRUSTED
                        \/ Registry.expiredAt now (e_expirationDate (snd x)) = false)))
    entries out
  /\ Forall (fun kv =>
               ~ (e_status (snd kv) = TrustStatus.TRUSTED
                  /\ Registry.expiredAt now (e_expirationDate (snd kv)) = true)) out.
Proof.
  cbn zeta.
  pose proof (processExpiredEntries_demotes clock entries k) as H.
  revert H. generalize (fst (Registry.processExpiredEntries clock entries k)).
  intros out H. induction H as [|[id e] y l l' -> H IH].
  - split; constructor.
  - destruct IH as [IH1 IH2]. unfold Registry.demoted. cbn [fst snd].
    assert (Hsame : set_status e (e_status e) = e) by (destruct e; reflexivity).
    destruct (Registry.expiredAt (clock k) (e_expirationDate e)) eqn:Hexp;
      case_bool_decide as Hst; cbn [andb].
    + split; constructor; try assumption; cbn [fst snd].
      * split; [reflexivity|]. split; [destruct e; cbn in *; reflexivity|].
        left. auto.
      * intros [Hs _]. discriminate Hs.
    + split; constructor; try assumption; cbn [fst snd].
      * split; [reflexivity|]. split; [exact Hsame|]. right. auto.
      * intros [Hs _]. contradiction.
    + split; constructor; try assumption; cbn [fst snd].
      * split; [reflexivity|]. split; [exact Hsame|]. right. auto.
      * intros [_ He]. congruence.
    + split; constructor; try assumption; cbn [fst snd].
      * split; [reflexivity|]. split; [exact Hsame|]. right. auto.
      * intros [Hs _]. contradiction.
Qed.

(** ** A status update followed by a verification *)

Lemma score_spec_trusted now e :
  e_status e = TrustStatus.TRUSTED -> 80 <= Registry.score_spec now e.
Proof.
  intros Hst. unfold Registry.score_spec, Registry.clamp, Registry.activeCertCount.
  rewrite Hst. cbn [Registry.statusBonus].
  set (n := Z.of_nat _). assert (0 <= n) by (unfold n; lia).
  destruct (e_assuranceLevel e); cbn [Registry.assuranceBonus];
    destruct (365 <? _), (90 <? _); lia.
Qed.

Lemma score_spec_revoked now e :
  e_status e = TrustStatus.REVOKED -> Registry.score_spec now e <= 45.
Proof.
  intros Hst. unfold Registry.score_spec, Registry.clamp, Registry.activeCertCount.
  rewrite Hst. cbn [Registry.statusBonus].
  set (n := Z.of_nat _). assert (0 <= n) by (unfold n; lia).
  destruct (e_assuranceLevel e); cbn [Registry.assuranceBonus];
    destruct (365 <? _), (90 <? _); lia.
Qed.

(** X15. At an instant [now], a verification that follows a status update of
    the same participant judges the score that the update reported.
    After an update to a status other than TRUSTED the verification
    returns that status; after an update to REVOKED the score check
    fails as well; after an update to TRUSTED the score check passes,
    and the verification returns TRUSTED when a certification is active
    at [now] and PROVISIONAL otherwise. *)
Theorem updateParticipantStatus_then_verifyTrust
    clock now r participantId newStatus reason request k entry :
  (forall i, clock i = now) ->
  Registry.getTrustEntry r participantId = Some entry ->
  rq_participantId request = participantId ->
  let run1 := Registry.updateParticipantStatus clock r participantId newStatus reason k in
  let run2 := Registry.verifyTrust clock (snd (fst run1)) request (snd run1) in
  exists vr,
    data (fst (fst run2)) = Some (VerificationData vr)
    /\ data (fst (fst run1))
       = Some (StatusData participantId (e_status entry) newStatus (vr_trustScore vr))
    /\ (newStatus <> TrustStatus.TRUSTED -> vr_trustStatus vr = newStatus)
    /\ (newStatus = TrustStatus.REVOKED ->
        In "Trust score too low"%string (failed (vr_verificationDetails vr)))
    /\ (newStatus = TrustStatus.TRUSTED ->
        80 <= vr_trustScore vr
        /\ vr_trustStatus vr
           = if 0 <? Registry.activeCertCount now entry
             then TrustStatus.TRUSTED else TrustStatus.PROVISIONAL).
Proof.
  intros Hstanding Hget Hid. cbn zeta.
  destruct (updateParticipantStatus_cases clock r participantId newStatus reason k)
    as [(_ & _ & Hnone)|(_ & entry' & score & Hget' & _ & Hdata1 & Hout)];
    cbn zeta in *; unfold Registry.getTrustEntry in Hget; [congruence|].
  assert (entry' = entry) by congruence. subst entry'.
  set (touched := set_lastVerified (set_status entry newStatus) (clock k)) in *.
  set (stored := set_trustScore touched score) in *.
  assert (Hget2 : Registry.getTrustEntry
                    (snd (fst (Registry.updateParticipantStatus clock r participantId
                                 newStatus reason k)))
                    (rq_participantId request) = Some stored).
  { rewrite Hout, Hid. unfold Registry.getTrustEntry. cbn [trustEntries set_trustEntries].
    apply get_set_eq. }
  destruct (verifyTrust_found clock _ request
              (snd (Registry.updateParticipantStatus clock r participantId
                      newStatus reason k)) stored Hget2) as (_ & _ & Hdata2 & _).
  cbn zeta in Hdata2.
  set (k1 := snd (Registry.updateParticipantStatus clock r participantId newStatus reason k))
    in *.
  destruct (performTrustVerification_details clock now stored request k1
              (fun i _ => Hstanding i))
    as (_ & Hscore & _ & _ & Hfailed & _ & Htrusted & Hlow & _).
  pose proof (performTrustVerification_trustStatus clock stored request k1) as Hspec.
  cbn zeta in *.
  set (vr := fst (Registry.performTrustVerification clock stored request k1)) in *.
  assert (Hscore' : score = Registry.score_spec now touched).
  { (* the score of the update is the formula's value for the touched entry *)
    revert Hdata1. unfold Registry.updateParticipantStatus.
    rewrite Hget'. rewrite bind_run. cbn [newDate fst snd]. rewrite bind_run.
    fold touched.
    rewrite (calculateTrustScore_frozen clock now touched (S k) (fun i _ => Hstanding i)).
    unfold Registry.logActivity. unfold_M. cbn. congruence. }
  exists vr. split; [exact Hdata2|].
  split; [rewrite Hscore; exact Hdata1|].
  split.
  { intros Hne. rewrite Hspec. unfold Registry.trustStatus_spec.
    cbn [stored touched e_status set_trustScore set_lastVerified set_status].
    case_bool_decide; [reflexivity | contradiction]. }
  split.
  { intros ->. apply Hlow. cbn [stored e_trustScore set_trustScore]. rewrite Hscore'.
    pose proof (score_spec_revoked now touched eq_refl). lia. }
  intros ->.
  pose proof (score_spec_trusted now touched eq_refl) as H80.
  split; [rewrite Hscore; cbn [stored e_trustScore set_trustScore]; lia|].
  assert (Hcount : Registry.activeCertCount now stored = Registry.activeCertCount now entry)
    by reflexivity.
  rewrite Hcount in Hfailed.
  destruct (Z.ltb_spec 0 (Registry.activeCertCount now entry)) as [Hpos|Hzero].
  - apply Htrusted, Hfailed. split; [reflexivity|]. split; [exact Hpos|].
    cbn [stored e_trustScore set_trustScore]. lia.
  - rewrite Hspec. unfold Registry.trustStatus_spec.
    cbn [stored touched e_status set_trustScore set_lastVerified set_status].
    rewrite bool_decide_eq_false_2 by (intros H; apply H; reflexivity).
    destruct (failed (vr_verificationDetails vr)) eqn:Hf; [|reflexivity].
    exfalso. destruct Hfailed as [Hfailed _]. specialize (Hfailed eq_refl). lia.
Qed.

Lemma updateParticipantStatus_then_verifyTrust_witness :
  let clock := Sample.frozen Sample.t1 in
  let r := Sample.registryWith (Sample.entry "P1" TrustStatus.SUSPENDED None 45) in
  let run1 := Registry.updateParticipantStatus clock r "P1" TrustStatus.TRUSTED "ok" 0%nat in
  let run2 := Registry.verifyTrust clock (snd (fst run1)) (Sample.request "P1") (snd run1) in
  (forall i, clock i = Sample.t1)
  /\ exists vr, data (fst (fst run2)) = Some (VerificationData vr)
                /\ vr_trustStatus vr = TrustStatus.TRUSTED.
Proof.
  cbn zeta. split; [reflexivity|].
  destruct (updateParticipantStatus_then_verifyTrust (Sample.frozen Sample.t1) Sample.t1
              (Sample.registryWith (Sample.entry "P1" TrustStatus.SUSPENDED None 45))
              "P1" TrustStatus.TRUSTED "ok" (Sample.request "P1") 0%nat
              (Sample.entry "P1" TrustStatus.SUSPENDED None 45)
              (fun _ => eq_refl) eq_refl eq_refl)
    as (vr & Hdata & _ & _ & _ & Htrusted).
  exists vr. split; [exact Hdata|]. destruct (Htrusted eq_refl) as [_ Hst].
  rewrite Hst. reflexivity.
Defined.

(** * Further properties of the orchestrator *)

(** ** Registration *)

Lemma framework_registerParticipant_run clock fw participant k :
  let out := fst (Framework.registerParticipant clock fw participant k) in
  let missing := negb (truthy (p_participantId participant))
                 || negb (truthy (p_name participant)) in
  let known := JsMap.has (participants fw) (p_participantId participant) in
  success (fst out) = negb missing && negb known
  /\ message (fst out)
     = (if missing then "Missing required participant information"
        else if known then "Participant already registered"
        else "Participant registered successfully")%string
  /\ (success (fst out) = false -> snd out = fw /\ data (fst out) = None)
  /\ (success (fst out) = true ->
      data (fst out) = Some (ParticipantData (p_participantId participant))
      /\ snd out
         = Framework.initializeServiceProviders
             (Framework.set_participants fw
                (participants fw ++ [(p_participantId participant, participant)]))
             participant).
Proof.
  cbn zeta. unfold Framework.registerParticipant, Framework.validateParticipant.
  rewrite bind_run.
  destruct (negb (truthy (p_participantId participant)) || negb (truthy (p_name participant))).
  { unfold_M. cbn. repeat split; try reflexivity; discriminate. }
  destruct (JsMap.has _ _) eqn:Hhas.
  { unfold_M. cbn. repeat split; try reflexivity; discriminate. }
  unfold_M. cbn. rewrite (set_absent _ _ _ (has_false_get _ _ Hhas)).
  repeat split; try reflexivity; discriminate.
Qed.

(** X16. [registerParticipant] of the orchestrator succeeds exactly when the
    participant has a non-empty id and name and the id is new.  The two
    rejections are told apart by their messages and change nothing; a
    success reports the id, appends the participant to the directory
    and makes it retrievable by id and by type. *)
Theorem framework_registerParticipant_outcome clock fw participant k :
  let out := fst (Framework.registerParticipant clock fw participant k) in
  let id := p_participantId participant in
  let missing := negb (truthy id) || negb (truthy (p_name participant)) in
  let known := JsMap.has (participants fw) id in
  success (fst out) = negb missing && negb known
  /\ message (fst out)
     = (if missing then "Missing required participant information"
        else if known then "Participant already registered"
        else "Participant registered successfully")%string
  /\ (success (fst out) = false -> snd out = fw /\ data (fst out) = None)
  /\ (success (fst out) = true ->
      data (fst out) = Some (ParticipantData id)
      /\ Framework.getParticipants (snd out) = Framework.getParticipants fw ++ [participant]
      /\ JsMap.get (participants (snd out)) id = Some participant
      /\ In participant (Framework.getParticipantsByType (snd out) (p_type participant))).
Proof.
  cbn zeta.
  destruct (framework_registerParticipant_run clock fw participant k)
    as (Hsucc & Hmsg & Hfail & Hok). cbn zeta in *.
  split; [exact Hsucc|]. split; [exact Hmsg|]. split; [exact Hfail|].
  intros Htrue. destruct (Hok Htrue) as [Hdata Hout]. split; [exact Hdata|].
  rewrite Hout. unfold Framework.getParticipants, Framework.getParticipantsByType.
  rewrite initializeServiceProviders_participants.
  cbn [participants Framework.set_participants]. unfold JsMap.values.
  rewrite map_app. cbn [map snd]. split; [reflexivity|].
  rewrite Htrue in Hsucc. symmetry in Hsucc. apply andb_true_iff in Hsucc as [_ Hknown].
  apply negb_true_iff, has_false_get in Hknown.
  split.
  - rewrite <- (set_absent _ _ _ Hknown). apply get_set_eq.
  - apply filter_In. split; [apply in_or_app; right; left; reflexivity|].
    apply bool_decide_eq_true. reflexivity.
Qed.

(** ** The dispatch table *)

Lemma initializeServiceProviders_table fw participant :
  Framework.noProviders fw (p_participantId participant) ->
  Framework.expectedComponentNames (Framework.initializeServiceProviders fw participant)
    (p_participantId participant)
  = FrameworkSpec.dispatchTable participant.
Proof.
  intros (Ha & Hi & Hp & Hn & Hw & Ht).
  unfold Framework.expectedComponentNames, Framework.presentComponents,
    Framework.initializeServiceProviders, FrameworkSpec.dispatchTable.
  destruct (p_type participant);
    cbn [privacyProviders infrastructureProviders authenticationProviders
         identityProviders walletProviders trustRegistries];
    try destruct (p_certificationLevel participant);
    repeat match goal with
           | |- context [bool_decide (?a = ?b)] =>
               match type of a with
               | AssuranceLevel.t =>
                   let v := eval vm_compute in (bool_decide (a = b)) in
                   change (bool_decide (a = b)) with v
               end
           end;
    cbn [orb];
    rewrite ?lookup_insert_eq, ?Ha, ?Hi, ?Hp, ?Hn, ?Hw, ?Ht;
    reflexivity.
Qed.

Lemma expectedComponentNames_other fw participant id :
  id <> p_participantId participant ->
  Framework.expectedComponentNames (Framework.initializeServiceProviders fw participant) id
  = Framework.expectedComponentNames fw id.
Proof.
  intros Hne.
  destruct (initializeServiceProviders_lookup_other fw participant id Hne)
    as (Ea & Ei & Ep & En & Ew & Et). cbn zeta in *.
  unfold Framework.expectedComponentNames, Framework.presentComponents.
  rewrite Ea, Ei, Ep, En, Ew, Et. reflexivity.
Qed.

Lemma truthy_nonempty s : truthy s = true <-> s <> ""%string.
Proof.
  unfold truthy. rewrite negb_true_iff. apply String.eqb_neq.
Qed.

(** The invariants of the reachable orchestrator states. *)
Lemma reachable_directory fw :
  Framework.reachable fw ->
  FrameworkSpec.wellKeyed (participants fw)
  /\ (forall id p,
        JsMap.get (participants fw) id = Some p ->
        Framework.expectedComponentNames fw id = FrameworkSpec.dispatchTable p).
Proof.
  induction 1 as [frameworkId version | clock k fw participant Hfw [IHk IHd]].
  - split; [split; cbn; constructor | discriminate].
  - destruct (framework_registerParticipant_run clock fw participant k)
      as (Hsucc & _ & Hfail & Hok). cbn zeta in *.
    destruct (success (fst (fst (Framework.registerParticipant clock fw participant k))))
      eqn:Hs.
    2: { destruct (Hfail eq_refl) as [-> _]. split; [exact IHk | exact IHd]. }
    destruct (Hok eq_refl) as [_ Hout]. rewrite Hout. clear Hout Hok Hfail.
    symmetry in Hsucc. apply andb_true_iff in Hsucc as [Hfields Hknown].
    apply negb_true_iff, orb_false_iff in Hfields as [Hid Hname].
    apply negb_false_iff, truthy_nonempty in Hid, Hname.
    apply negb_true_iff, has_false_get in Hknown.
    rewrite initializeServiceProviders_participants.
    cbn [participants Framework.set_participants]. split.
    + destruct IHk as [Hnd Hall]. split.
      * rewrite map_app. cbn. apply NoDup_snoc; [exact Hnd|].
        apply get_None_keys, Hknown.
      * apply Forall_app. split; [exact Hall|]. constructor; [|constructor].
        cbn. auto.
    + intros id p Hget.
      rewrite <- (set_absent _ _ _ Hknown) in Hget |- *.
      destruct (String.eqb_spec (p_participantId participant) id) as [<-|Hne].
      * rewrite get_set_eq in Hget. injection Hget as <-.
        apply initializeServiceProviders_table.
        apply (reachable_providers_registered fw Hfw _ Hknown).
      * rewrite get_set_ne in Hget by exact Hne.
        rewrite expectedComponentNames_other by congruence.
        apply (IHd id p Hget).
Qed.

(** X17. A successful registration in a reachable orchestrator state
    attaches to the participant's id the providers of the dispatch
    table's row for its type and level, one or two and no others, and
    the provider of the row's first kind is built from the participant's
    id, name and level as the source's constructor call says (the
    wallet as a CLOUD wallet named WALLET-id, the trust registry under
    the DIACC-PCTF governance framework). *)
Theorem registerParticipant_dispatch_table clock fw participant k :
  Framework.reachable fw ->
  let out := fst (Framework.registerParticipant clock fw participant k) in
  success (fst out) = true ->
  let fw' := snd out in
  let id := p_participantId participant in
  let name := p_name participant in
  let level := p_certificationLevel participant in
  Framework.expectedComponentNames fw' id = FrameworkSpec.dispatchTable participant
  /\ (1 <= length (FrameworkSpec.dispatchTable participant) <= 2)%nat
  /\ match p_type participant with
     | ParticipantType.AUTHENTICATION_SERVICE_PROVIDER
     | ParticipantType.CREDENTIAL_SERVICE_PROVIDER =>
         Framework.getAuthenticationProvider fw' id
         = Some (AuthenticationServiceProvider.constructor id name level)
     | ParticipantType.IDENTITY_PROVIDER =>
         Framework.getIdentityProvider fw' id
         = Some (IdentityProvider.constructor id name level)
     | ParticipantType.WALLET_PROVIDER =>
         Framework.getWalletProvider fw' id
         = Some (DigitalWalletProvider.constructor ("WALLET-" +:+ id) id
                   WalletType.CLOUD name level)
     | ParticipantType.TRUST_REGISTRY =>
         Framework.getTrustRegistry fw' id
         = Some (Registry.constructor id name (Some "DIACC-PCTF"%string) (Some level))
     | _ =>
         Framework.getPrivacyProvider fw' id
         = Some (PrivacyServiceProvider.constructor id name)
     end.
Proof.
  intros Hreach. cbn zeta. intros Hsucc.
  destruct (framework_registerParticipant_run clock fw participant k)
    as (Hs & _ & _ & Hok). cbn zeta in *.
  destruct (Hok Hsucc) as [_ Hout]. rewrite Hout.
  rewrite Hsucc in Hs. symmetry in Hs. apply andb_true_iff in Hs as [_ Hknown].
  apply negb_true_iff, has_false_get in Hknown.
  split; [|split].
  - apply initializeServiceProviders_table.
    apply (reachable_providers_registered fw Hreach _ Hknown).
  - unfold FrameworkSpec.dispatchTable.
    destruct (p_type participant), (p_certificationLevel participant); cbn; lia.
  - unfold Framework.initializeServiceProviders, Framework.getAuthenticationProvider,
      Framework.getIdentityProvider, Framework.getWalletProvider,
      Framework.getTrustRegistry, Framework.getPrivacyProvider.
    destruct (p_type participant); cbn; apply lookup_insert_eq.
Qed.

Lemma registerParticipant_dispatch_table_witness :
  let p := Sample.participant "W1" ParticipantType.WALLET_PROVIDER AssuranceLevel.LOA2 in
  let out := fst (Framework.registerParticipant (Sample.frozen Sample.t0)
                    Sample.emptyFramework p 0%nat) in
  Framework.reachable Sample.emptyFramework
  /\ success (fst out) = true
  /\ Framework.expectedComponentNames (snd out) "W1" = ["DigitalWallet"]%string.
Proof.
  cbn zeta.
  pose proof (Framework.reach_new "FW-1" None) as Hreach.
  split; [exact Hreach|]. split; [reflexivity|].
  destruct (registerParticipant_dispatch_table (Sample.frozen Sample.t0)
              Sample.emptyFramework
              (Sample.participant "W1" ParticipantType.WALLET_PROVIDER AssuranceLevel.LOA2)
              0%nat Hreach eq_refl) as (Hnames & _).
  exact Hnames.
Defined.

(** X18. In every orchestrator state that registrations produce, the
    directory has distinct keys, each participant is stored under its
    own non-empty id, every registered participant has exactly the
    providers of its row of the dispatch table, and an id that is not
    registered has no provider at all. *)
Theorem reachable_framework_invariants fw :
  Framework.reachable fw ->
  FrameworkSpec.wellKeyed (participants fw)
  /\ (forall id p,
        JsMap.get (participants fw) id = Some p ->
        p_participantId p = id
        /\ Framework.expectedComponentNames fw id = FrameworkSpec.dispatchTable p)
  /\ (forall id,
        JsMap.get (participants fw) id = None ->
        Framework.noProviders fw id /\ Framework.expectedComponentNames fw id = []).
Proof.
  intros Hreach. destruct (reachable_directory fw Hreach) as [Hkeyed Htable].
  split; [exact Hkeyed|]. split.
  - intros id p Hget. split; [|apply Htable, Hget].
    destruct Hkeyed as [_ Hall]. apply (get_Forall _ _ _ _ Hall Hget).
  - intros id Hnone.
    pose proof (reachable_providers_registered fw Hreach id Hnone) as Hno.
    split; [exact Hno|]. destruct Hno as (Ha & Hi & Hp & Hn & Hw & Ht).
    unfold Framework.expectedComponentNames, Framework.presentComponents.
    rewrite Ha, Hi, Hp, Hn, Hw, Ht. reflexivity.
Qed.

Lemma reachable_framework_invariants_witness :
  let p := Sample.participant "P1" ParticipantType.ISSUER AssuranceLevel.LOA3 in
  Framework.reachable (Sample.frameworkWith p)
  /\ Framework.expectedComponentNames (Sample.frameworkWith p) "P1"
     = ["Privacy"; "Infrastructure"]%string.
Proof.
  cbn zeta.
  assert (Hreach : Framework.reachable
                     (Sample.frameworkWith
                        (Sample.participant "P1" ParticipantType.ISSUER AssuranceLevel.LOA3))).
  { apply Framework.reach_registerParticipant. exact (Framework.reach_new "FW-1" None). }
  split; [exact Hreach|].
  destruct (proj1 (proj2 (reachable_framework_invariants _ Hreach)) "P1"%string
              (Sample.participant "P1" ParticipantType.ISSUER AssuranceLevel.LOA3) eq_refl)
    as [_ Hnames].
  exact Hnames.
Defined.

(** ** Conformance assessment *)

Lemma mapM_length {A B : Type} (f : A -> M B) (l : list A) (k : nat) :
  length (fst (mapM f l k)) = length l.
Proof.
  revert k. induction l as [|x l IH]; intros k; cbn [mapM]; [reflexivity|].
  rewrite !bind_run. cbn [ret fst length]. rewrite IH. reflexivity.
Qed.

Lemma assessComponentConformance_conformant clock name criteria k :
  length criteria = 3%nat ->
  let c := fst (Framework.assessComponentConformance clock name criteria k) in
  componentName c = name /\ conformantComponent c.
Proof.
  intros Hlen. cbn zeta. unfold Framework.assessComponentConformance.
  rewrite !bind_run. cbn [ret fst componentName].
  assert (Hall : Forall (fun ac => ac_isConformant ac = true)
                   (fst (mapM (Framework.assessCriterion clock) criteria k))).
  { apply mapM_Forall. intros c j. reflexivity. }
  split; [reflexivity|]. unfold conformantComponent. cbn [isConformant assessedCriteria].
  split; [|split; [rewrite mapM_length; exact Hlen | exact Hall]].
  apply forallb_forall. intros ac Hin. rewrite Forall_forall in Hall.
  apply Hall. apply list_elem_of_In. exact Hin.
Qed.

Lemma assessIfPresent_conformant clock {P : Type} (provider : option P) (name : string)
    (getCriteria : P -> list ConformanceCriteria) (cr : ConformanceAssessmentResult)
    (names : list string) (k : nat) :
  (forall p, length (getCriteria p) = 3%nat) ->
  map componentName (componentResults cr) = names
  /\ overallConformance cr = true
  /\ Forall conformantComponent (componentResults cr) ->
  let cr' := fst (Framework.assessIfPresent clock provider name getCriteria cr k) in
  map componentName (componentResults cr')
  = names ++ (if bool_decide (is_Some provider) then [name] else [])
  /\ overallConformance cr' = true
  /\ Forall conformantComponent (componentResults cr').
Proof.
  intros Hlen (Hnames & Hand & Hall). cbn zeta. unfold Framework.assessIfPresent.
  destruct provider as [p|].
  - rewrite bind_run. cbn [ret fst componentResults overallConformance].
    destruct (assessComponentConformance_conformant clock name (getCriteria p) k (Hlen p))
      as [Hname Hconf]. cbn zeta in *.
    rewrite map_app, Hnames. cbn [map]. rewrite Hname.
    split; [reflexivity|]. split.
    + rewrite Hand. destruct Hconf as [-> _]. reflexivity.
    + apply Forall_app. split; [exact Hall|]. constructor; [exact Hconf | constructor].
  - cbn [ret fst]. rewrite app_nil_r. auto.
Qed.

Lemma assessConformance_run clock fw participantId k participant :
  JsMap.get (participants fw) participantId = Some participant ->
  let res := fst (Framework.assessConformance clock fw participantId k) in
  success res = true
  /\ message res = "Conformance assessment completed"%string
  /\ exists car,
       data res = Some (ConformanceData car)
       /\ map componentName (componentResults car)
          = Framework.expectedComponentNames fw participantId
       /\ overallConformance car = true
       /\ Forall conformantComponent (componentResults car).
Proof.
  intros Hget. cbn zeta. unfold Framework.assessConformance. rewrite Hget.
  rewrite bind_run. cbn [newDate fst snd].
  set (cr0 := {| car_participantId := participantId; car_assessmentDate := clock k;
                 overallConformance := true; componentResults := [] |}).
  assert (I0 : map componentName (componentResults cr0) = []
               /\ overallConformance cr0 = true
               /\ Forall conformantComponent (componentResults cr0)).
  { repeat split. constructor. }
  rewrite bind_run.
  match goal with |- context [Framework.assessIfPresent clock
                                (authenticationProviders fw !! participantId) ?n ?g ?c ?j] =>
    pose proof (assessIfPresent_conformant clock
                  (authenticationProviders fw !! participantId) n g c _ j
                  (fun _ => eq_refl) I0) as I1 end.
  rewrite bind_run.
  match goal with |- context [Framework.assessIfPresent clock
                                (identityProviders fw !! participantId) ?n ?g ?c ?j] =>
    pose proof (assessIfPresent_conformant clock
                  (identityProviders fw !! participantId) n g c _ j
                  (fun _ => eq_refl) I1) as I2 end.
  rewrite bind_run.
  match goal with |- context [Framework.assessIfPresent clock
                                (privacyProviders fw !! participantId) ?n ?g ?c ?j] =>
    pose proof (assessIfPresent_conformant clock
                  (privacyProviders fw !! participantId) n g c _ j
                  (fun _ => eq_refl) I2) as I3 end.
  rewrite bind_run.
  match goal with |- context [Framework.assessIfPresent clock
                                (infrastructureProviders fw !! participantId) ?n ?g ?c ?j] =>
    pose proof (assessIfPresent_conformant clock
                  (infrastructureProviders fw !! participantId) n g c _ j
                  (fun _ => eq_refl) I3) as I4 end.
  rewrite bind_run.
  match goal with |- context [Framework.assessIfPresent clock
                                (walletProviders fw !! participantId) ?n ?g ?c ?j] =>
    pose proof (assessIfPresent_conformant clock
                  (walletProviders fw !! participantId) n g c _ j
                  (fun _ => eq_refl) I4) as I5 end.
  rewrite bind_run.
  match goal with |- context [Framework.assessIfPresent clock
                                (trustRegistries fw !! participantId) ?n ?g ?c ?j] =>
    pose proof (assessIfPresent_conformant clock
                  (trustRegistries fw !! participantId) n g c _ j
                  (fun _ => eq_refl) I5) as I6;
    set (cr6 := fst (Framework.assessIfPresent clock
                       (trustRegistries fw !! participantId) n g c j)) in * end.
  cbn zeta in I6. destruct I6 as (Hnames & Hand & Hall).
  rewrite bind_run. cbn [newDate ret fst snd success message data].
  split; [reflexivity|]. split; [reflexivity|]. exists cr6. split; [reflexivity|].
  split; [|split; [exact Hand | exact Hall]].
  rewrite Hnames. unfold Framework.expectedComponentNames, Framework.presentComponents.
  destruct (bool_decide (is_Some (authenticationProviders fw !! participantId)));
    destruct (bool_decide (is_Some (identityProviders fw !! participantId)));
    destruct (bool_decide (is_Some (privacyProviders fw !! participantId)));
    destruct (bool_decide (is_Some (infrastructureProviders fw !! participantId)));
    destruct (bool_decide (is_Some (walletProviders fw !! participantId)));
    destruct (bool_decide (is_Some (trustRegistries fw !! participantId)));
    reflexivity.
Qed.

(** X19. [assessConformance] fails for an id that is not in the directory.
    For a registered id it succeeds and never reports a
    non-conformance: [overallConformance] is true, and every component
    result is conformant with three assessed criteria, all marked
    conformant.  In a reachable orchestrator state the components of a
    registered participant are those of its row of the dispatch table,
    so there is at least one and there are at most two. *)
Theorem assessConformance_outcome clock fw participantId k :
  let res := fst (Framework.assessConformance clock fw participantId k) in
  (JsMap.get (participants fw) participantId = None ->
   success res = false
   /\ message res = "Participant not found"%string
   /\ data res = None)
  /\ (forall participant,
        JsMap.get (participants fw) participantId = Some participant ->
        success res = true
        /\ exists car,
             data res = Some (ConformanceData car)
             /\ overallConformance car = true
             /\ Forall conformantComponent (componentResults car)
             /\ (Framework.reachable fw ->
                 map componentName (componentResults car)
                 = FrameworkSpec.dispatchTable participant
                 /\ (1 <= length (componentResults car) <= 2)%nat)).
Proof.
  cbn zeta. split.
  - intros Hnone. unfold Framework.assessConformance. rewrite Hnone.
    unfold_M. cbn. auto.
  - intros participant Hget.
    destruct (assessConformance_run clock fw participantId k participant Hget)
      as (Hsucc & _ & car & Hdata & Hnames & Hand & Hall). cbn zeta in *.
    split; [exact Hsucc|]. exists car. split; [exact Hdata|].
    split; [exact Hand|]. split; [exact Hall|].
    intros Hreach. destruct (reachable_directory fw Hreach) as [_ Htable].
    rewrite (Htable _ _ Hget) in Hnames. split; [exact Hnames|].
    apply (f_equal (@length string)) in Hnames. rewrite length_map in Hnames.
    rewrite Hnames. unfold FrameworkSpec.dispatchTable.
    destruct (p_type participant), (p_certificationLevel participant); cbn; lia.
Qed.

Lemma assessConformance_outcome_witness :
  let p := Sample.participant "P1" ParticipantType.ISSUER AssuranceLevel.LOA3 in
  let res := fst (Framework.assessConformance (Sample.frozen Sample.t1)
                    (Sample.frameworkWith p) "P1" 0%nat) in
  JsMap.get (participants (Sample.frameworkWith p)) "P1" = Some p
  /\ exists car, data res = Some (ConformanceData car) /\ overallConformance car = true.
Proof.
  cbn zeta. split; [reflexivity|].
  destruct (proj2 (assessConformance_outcome (Sample.frozen Sample.t1)
                     (Sample.frameworkWith
                        (Sample.participant "P1" ParticipantType.ISSUER AssuranceLevel.LOA3))
                     "P1" 0%nat)
              (Sample.participant "P1" ParticipantType.ISSUER AssuranceLevel.LOA3) eq_refl)
    as (_ & car & Hdata & Hand & _).
  exists car. split; [exact Hdata | exact Hand].
Defined.

(** ** Ecosystem validation *)

Lemma In_values_get {V : Type} (m : list (string * V)) (v : V) :
  NoDup (map fst m) ->
  In v (JsMap.values m) <-> exists k, JsMap.get m k = Some v.
Proof.
  intros Hnd. unfold JsMap.values. rewrite in_map_iff. split.
  - intros ([k v'] & <- & Hin). exists k. apply get_In_NoDup; assumption.
  - intros [k Hget]. exists (k, v). split; [reflexivity | apply get_Some_In, Hget].
Qed.

(** Which provider maps hold an id can be read off the component
    names. *)
Lemma expectedComponentNames_mem fw id :
  (In "Authentication"%string (Framework.expectedComponentNames fw id)
   <-> is_Some (authenticationProviders fw !! id))
  /\ (In "VerifiedPerson"%string (Framework.expectedComponentNames fw id)
      <-> is_Some (identityProviders fw !! id)).
Proof.
  unfold Framework.expectedComponentNames, Framework.presentComponents.
  repeat case_bool_decide; cbn; split; split; intros Hmem;
    repeat match goal with
           | H : _ \/ _ |- _ => destruct H
           | H : False |- _ => destruct H
           end;
    try discriminate; try assumption; try contradiction; auto.
Qed.

Lemma dispatchTable_mem p :
  (In "Authentication"%string (FrameworkSpec.dispatchTable p)
   <-> FrameworkSpec.getsAuthentication p = true)
  /\ (In "VerifiedPerson"%string (FrameworkSpec.dispatchTable p)
      <-> FrameworkSpec.hasType ParticipantType.IDENTITY_PROVIDER p = true).
Proof.
  unfold FrameworkSpec.dispatchTable, FrameworkSpec.getsAuthentication,
    FrameworkSpec.hasType.
  destruct (p_type p), (p_certificationLevel p); cbn; split; split; intros Hmem;
    repeat match goal with
           | H : _ \/ _ |- _ => destruct H
           | H : False |- _ => destruct H
           end;
    try discriminate; auto.
Qed.

(** In a reachable state, a provider map is not empty exactly when a
    participant of a type served by it is registered. *)
Lemma reachable_provider_maps fw :
  Framework.reachable fw ->
  (size (authenticationProviders fw) <> 0%nat
   <-> exists p, In p (Framework.getParticipants fw)
                 /\ FrameworkSpec.getsAuthentication p = true)
  /\ (size (identityProviders fw) <> 0%nat
      <-> exists p, In p (Framework.getParticipants fw)
                    /\ FrameworkSpec.hasType ParticipantType.IDENTITY_PROVIDER p = true).
Proof.
  intros Hreach. destruct (reachable_directory fw Hreach) as [[Hnd Hall] Htable].
  unfold Framework.getParticipants.
  split; rewrite map_size_ne_0_lookup; split.
  - intros [id Hsome].
    destruct (JsMap.get (participants fw) id) as [p|] eqn:Hget.
    + exists p. split; [apply In_values_get; eauto|].
      apply dispatchTable_mem. rewrite <- (Htable _ _ Hget).
      apply expectedComponentNames_mem, Hsome.
    + destruct (reachable_providers_registered fw Hreach id Hget) as (Ha & _).
      rewrite Ha in Hsome. destruct Hsome; discriminate.
  - intros (p & Hin & Hp). apply In_values_get in Hin as [id Hget]; [|exact Hnd].
    exists id. apply expectedComponentNames_mem. rewrite (Htable _ _ Hget).
    apply dispatchTable_mem, Hp.
  - intros [id Hsome].
    destruct (JsMap.get (participants fw) id) as [p|] eqn:Hget.
    + exists p. split; [apply In_values_get; eauto|].
      apply dispatchTable_mem. rewrite <- (Htable _ _ Hget).
      apply expectedComponentNames_mem, Hsome.
    + destruct (reachable_providers_registered fw Hreach id Hget) as (_ & Hi & _).
      rewrite Hi in Hsome. destruct Hsome; discriminate.
  - intros (p & Hin & Hp). apply In_values_get in Hin as [id Hget]; [|exact Hnd].
    exists id. apply expectedComponentNames_mem. rewrite (Htable _ _ Hget).
    apply dispatchTable_mem, Hp.
Qed.

(** X20. [validateEcosystem] reports the size of the directory, the number
    of active participants and the interoperability issues, and changes
    nothing.  It succeeds exactly when some participant is active and
    neither the identity nor the authentication provider map is empty;
    in a reachable state that is: some registered participant is
    active, one is an identity provider, and one is an authentication
    or credential service provider. *)
Theorem validateEcosystem_outcome clock fw k :
  let res := fst (Ecosystem.validateEcosystem clock fw k) in
  let registered (f : PCTFParticipant -> bool) :=
    exists p, In p (Framework.getParticipants fw) /\ f p = true in
  (exists ev,
     data res = Some ev
     /\ ev_participantCount ev = length (Framework.getParticipants fw)
     /\ ev_activeParticipants ev
        = FrameworkSpec.countIf p_isActive (Framework.getParticipants fw)
     /\ ev_interoperabilityIssues ev = Ecosystem.checkInteroperability fw)
  /\ message res = (if success res then "Ecosystem validation successful"
                    else "Ecosystem validation issues found")%string
  /\ (success res = true <->
      registered p_isActive
      /\ size (identityProviders fw) <> 0%nat
      /\ size (authenticationProviders fw) <> 0%nat)
  /\ (Framework.reachable fw ->
      (success res = true <->
       registered p_isActive
       /\ registered (FrameworkSpec.hasType ParticipantType.IDENTITY_PROVIDER)
       /\ registered FrameworkSpec.getsAuthentication)).
Proof.
  cbn zeta.
  assert (Hsucc : success (fst (Ecosystem.validateEcosystem clock fw k)) = true <->
                  (exists p, In p (Framework.getParticipants fw) /\ p_isActive p = true)
                  /\ size (identityProviders fw) <> 0%nat
                  /\ size (authenticationProviders fw) <> 0%nat).
  { unfold Ecosystem.validateEcosystem, Ecosystem.checkInteroperability,
      Framework.getParticipants. unfold_M. cbn [fst success].
    rewrite andb_true_iff, Nat.ltb_lt, Nat.eqb_eq.
    assert (Hact : (0 < length (List.filter p_isActive (JsMap.values (participants fw))))%nat
                   <-> exists p, In p (JsMap.values (participants fw))
                                 /\ p_isActive p = true).
    { destruct (List.filter p_isActive (JsMap.values (participants fw))) as [|p l] eqn:Hf.
      - split; [cbn; lia|]. intros (p & Hin & Hp).
        assert (In p (List.filter p_isActive (JsMap.values (participants fw))))
          by (apply filter_In; auto).
        rewrite Hf in *. contradiction.
      - split; [|cbn; lia]. intros _. exists p.
        apply filter_In. rewrite Hf. left. reflexivity. }
    rewrite Hact.
    destruct (Nat.eqb_spec (size (identityProviders fw)) 0);
      destruct (Nat.eqb_spec (size (authenticationProviders fw)) 0);
      cbn; intuition (try discriminate; try lia). }
  split; [|split; [|split]].
  - eexists. split; [reflexivity|].
    unfold Framework.getParticipants, JsMap.values, JsMap.size. cbn.
    rewrite length_map. repeat split.
  - unfold Ecosystem.validateEcosystem. unfold_M. cbn. reflexivity.
  - exact Hsucc.
  - intros Hreach. rewrite Hsucc.
    destruct (reachable_provider_maps fw Hreach) as [Hauth Hidp].
    rewrite Hauth, Hidp. reflexivity.
Qed.

Lemma validateEcosystem_outcome_witness :
  let p := Sample.participant "P1" ParticipantType.ISSUER AssuranceLevel.LOA3 in
  Framework.reachable (Sample.frameworkWith p)
  /\ success (fst (Ecosystem.validateEcosystem (Sample.frozen Sample.t1)
                     (Sample.frameworkWith p) 0%nat)) <> true.
Proof.
  cbn zeta.
  assert (Hreach : Framework.reachable
                     (Sample.frameworkWith
                        (Sample.participant "P1" ParticipantType.ISSUER AssuranceLevel.LOA3))).
  { apply Framework.reach_registerParticipant. exact (Framework.reach_new "FW-1" None). }
  split; [exact Hreach|].
  intros Hsucc.
  apply (proj2 (proj2 (proj2 (validateEcosystem_outcome (Sample.frozen Sample.t1)
                                (Sample.frameworkWith
                                   (Sample.participant "P1" ParticipantType.ISSUER
                                      AssuranceLevel.LOA3)) 0%nat))) Hreach) in Hsucc.
  destruct Hsucc as (_ & (p & Hin & Hp) & _).
  destruct Hin as [<-|[]]. discriminate Hp.
Defined.

(** ** The status report *)

Lemma countOf_increment t t' counts :
  Ecosystem.countOf t (Ecosystem.increment t' counts)
  = if bool_decide (t = t') then S <$> Ecosystem.countOf t counts
    else Ecosystem.countOf t counts.
Proof.
  induction counts as [|[t0 n] counts IH]; cbn.
  - case_bool_decide; reflexivity.
  - repeat case_bool_decide; subst; cbn; repeat case_bool_decide;
      try congruence; try reflexivity; try rewrite IH; repeat case_bool_decide;
      try congruence; reflexivity.
Qed.

Lemma countIf_snoc f l p :
  FrameworkSpec.countIf f (l ++ [p])
  = (FrameworkSpec.countIf f l + (if f p then 1 else 0))%nat.
Proof.
  unfold FrameworkSpec.countIf. rewrite List.filter_app, length_app. cbn.
  destruct (f p); reflexivity.
Qed.

Lemma getParticipantCountByType_countOf participants t :
  Ecosystem.countOf t (Ecosystem.getParticipantCountByType participants)
  = Some (FrameworkSpec.countIf (FrameworkSpec.hasType t) participants).
Proof.
  unfold Ecosystem.getParticipantCountByType.
  induction participants as [|p l IH] using rev_ind.
  - destruct t; reflexivity.
  - rewrite fold_left_app. cbn [fold_left]. rewrite countOf_increment, IH, countIf_snoc.
    unfold FrameworkSpec.hasType. repeat case_bool_decide; cbn; try congruence; f_equal; lia.
Qed.

Lemma list_sum_step (n : nat) (l : list nat) : list_sum (n :: l) = (n + list_sum l)%nat.
Proof. reflexivity. Qed.

Lemma sum_increment t counts :
  is_Some (Ecosystem.countOf t counts) ->
  list_sum (map snd (Ecosystem.increment t counts)) = S (list_sum (map snd counts)).
Proof.
  induction counts as [|[t0 n] counts IH]; cbn [Ecosystem.increment Ecosystem.countOf].
  - intros [? ?]. discriminate.
  - case_bool_decide; cbn [map snd]; rewrite !list_sum_step; [lia|].
    intros Hsome. rewrite IH by exact Hsome. lia.
Qed.

Lemma increment_keys t counts :
  map fst (Ecosystem.increment t counts) = map fst counts.
Proof.
  induction counts as [|[t0 n] counts IH]; cbn; [reflexivity|].
  case_bool_decide; cbn; [reflexivity|]. rewrite IH. reflexivity.
Qed.

Lemma getParticipantCountByType_sum participants :
  list_sum (map snd (Ecosystem.getParticipantCountByType participants))
  = length participants
  /\ map fst (Ecosystem.getParticipantCountByType participants)
     = Ecosystem.participantTypes.
Proof.
  unfold Ecosystem.getParticipantCountByType.
  induction participants as [|p l [IHs IHk]] using rev_ind.
  - split; reflexivity.
  - rewrite fold_left_app. cbn [fold_left]. split.
    + rewrite sum_increment, IHs, length_app; [cbn; lia|].
      pose proof (getParticipantCountByType_countOf l (p_type p)) as H.
      unfold Ecosystem.getParticipantCountByType in H. rewrite H. eauto.
    + rewrite increment_keys. exact IHk.
Qed.

Lemma initializeServiceProviders_sizes fw participant :
  Framework.noProviders fw (p_participantId participant) ->
  let fw' := Framework.initializeServiceProviders fw participant in
  let add (f : PCTFParticipant -> bool) (n : nat) :=
    (n + (if f participant then 1 else 0))%nat in
  size (authenticationProviders fw')
  = add FrameworkSpec.getsAuthentication (size (authenticationProviders fw))
  /\ size (identityProviders fw')
     = add (FrameworkSpec.hasType ParticipantType.IDENTITY_PROVIDER)
         (size (identityProviders fw))
  /\ size (privacyProviders fw')
     = add FrameworkSpec.getsPrivacy (size (privacyProviders fw))
  /\ size (infrastructureProviders fw')
     = add FrameworkSpec.getsInfrastructure (size (infrastructureProviders fw))
  /\ size (walletProviders fw')
     = add (FrameworkSpec.hasType ParticipantType.WALLET_PROVIDER)
         (size (walletProviders fw))
  /\ size (trustRegistries fw')
     = add (FrameworkSpec.hasType ParticipantType.TRUST_REGISTRY)
         (size (trustRegistries fw)).
Proof.
  intros (Ha & Hi & Hp & Hn & Hw & Ht). cbn zeta.
  unfold Framework.initializeServiceProviders, FrameworkSpec.getsAuthentication,
    FrameworkSpec.getsInfrastructure, FrameworkSpec.getsPrivacy, FrameworkSpec.hasType.
  destruct (p_type participant);
    cbn [privacyProviders infrastructureProviders authenticationProviders
         identityProviders walletProviders trustRegistries];
    try destruct (p_certificationLevel participant);
    repeat match goal with
           | |- context [bool_decide (?a = ?b)] =>
               let v := eval vm_compute in (bool_decide (a = b)) in
               change (bool_decide (a = b)) with v
           end;
    cbn [orb andb];
    rewrite ?map_size_insert_None by assumption;
    repeat split; lia.
Qed.

Lemma reachable_sizes fw :
  Framework.reachable fw ->
  let ps := Framework.getParticipants fw in
  size (authenticationProviders fw)
  = FrameworkSpec.countIf FrameworkSpec.getsAuthentication ps
  /\ size (identityProviders fw)
     = FrameworkSpec.countIf (FrameworkSpec.hasType ParticipantType.IDENTITY_PROVIDER) ps
  /\ size (privacyProviders fw) = FrameworkSpec.countIf FrameworkSpec.getsPrivacy ps
  /\ size (infrastructureProviders fw)
     = FrameworkSpec.countIf FrameworkSpec.getsInfrastructure ps
  /\ size (walletProviders fw)
     = FrameworkSpec.countIf (FrameworkSpec.hasType ParticipantType.WALLET_PROVIDER) ps
  /\ size (trustRegistries fw)
     = FrameworkSpec.countIf (FrameworkSpec.hasType ParticipantType.TRUST_REGISTRY) ps.
Proof.
  induction 1 as [frameworkId version | clock k fw participant Hfw IH]; cbn zeta in *.
  - cbn. rewrite !map_size_empty. repeat split.
  - destruct (framework_registerParticipant_run clock fw participant k)
      as (Hsucc & _ & Hfail & Hok). cbn zeta in *.
    destruct (success (fst (fst (Framework.registerParticipant clock fw participant k))))
      eqn:Hs.
    2: { destruct (Hfail eq_refl) as [-> _]. exact IH. }
    destruct (Hok eq_refl) as [_ Hout]. rewrite Hout. clear Hout Hok Hfail.
    symmetry in Hsucc. apply andb_true_iff in Hsucc as [_ Hknown].
    apply negb_true_iff, has_false_get in Hknown.
    pose proof (reachable_providers_registered fw Hfw _ Hknown) as Hno.
    destruct (initializeServiceProviders_sizes
                (Framework.set_participants fw
                   (participants fw ++ [(p_participantId participant, participant)]))
                participant Hno) as (Sa & Si & Sp & Sn & Sw & St).
    cbn zeta in *.
    cbn [authenticationProviders identityProviders privacyProviders
         infrastructureProviders walletProviders trustRegistries
         Framework.set_participants] in Sa, Si, Sp, Sn, Sw, St.
    destruct IH as (Ia & Ii & Ip & In' & Iw & It).
    unfold Framework.getParticipants in *.
    rewrite initializeServiceProviders_participants.
    cbn [participants Framework.set_participants]. unfold JsMap.values in *.
    rewrite map_app. cbn [map snd]. rewrite !countIf_snoc.
    rewrite Sa, Si, Sp, Sn, Sw, St, Ia, Ii, Ip, In', Iw, It. repeat split.
Qed.

Lemma infrastructure_le_privacy l :
  (FrameworkSpec.countIf FrameworkSpec.getsInfrastructure l
   <= FrameworkSpec.countIf FrameworkSpec.getsPrivacy l)%nat.
Proof.
  unfold FrameworkSpec.countIf.
  induction l as [|p l IH]; cbn [List.filter]; [lia|].
  unfold FrameworkSpec.getsInfrastructure at 1.
  destruct (FrameworkSpec.getsPrivacy p); cbn [andb].
  - destruct (_ || _); cbn [length]; lia.
  - exact IH.
Qed.

(** X21. The status report counts the directory and the provider maps.  Its
    per-type counts list every participant type once, in declaration
    order, with the number of registered participants of that type, and
    add up to the total.  In a reachable state the component counts
    follow from the directory: one authentication provider per
    authentication or credential service provider, one privacy provider
    per issuer, verifier or relying party, one infrastructure provider
    per such participant at LOA3 or LOA4, and so on. *)
Theorem generateStatusReport_counts clock fw k :
  let report := fst (Ecosystem.generateStatusReport clock fw k) in
  let ps := Framework.getParticipants fw in
  let summary := sr_participantSummary report in
  let components := sr_componentSummary report in
  ps_total summary = length ps
  /\ ps_active summary = FrameworkSpec.countIf p_isActive ps
  /\ (ps_active summary <= ps_total summary)%nat
  /\ map fst (ps_byType summary) = Ecosystem.participantTypes
  /\ (forall t, Ecosystem.countOf t (ps_byType summary)
                = Some (FrameworkSpec.countIf (FrameworkSpec.hasType t) ps))
  /\ list_sum (map snd (ps_byType summary)) = ps_total summary
  /\ (Framework.reachable fw ->
      cs_authenticationProviders components
      = FrameworkSpec.countIf FrameworkSpec.getsAuthentication ps
      /\ cs_identityProviders components
         = FrameworkSpec.countIf (FrameworkSpec.hasType ParticipantType.IDENTITY_PROVIDER) ps
      /\ cs_privacyProviders components = FrameworkSpec.countIf FrameworkSpec.getsPrivacy ps
      /\ cs_infrastructureProviders components
         = FrameworkSpec.countIf FrameworkSpec.getsInfrastructure ps
      /\ cs_walletProviders components
         = FrameworkSpec.countIf (FrameworkSpec.hasType ParticipantType.WALLET_PROVIDER) ps
      /\ cs_trustRegistries components
         = FrameworkSpec.countIf (FrameworkSpec.hasType ParticipantType.TRUST_REGISTRY) ps
      /\ (cs_infrastructureProviders components <= cs_privacyProviders components)%nat).
Proof.
  cbn zeta. unfold Ecosystem.generateStatusReport, Framework.getParticipants.
  unfold_M. cbn [fst sr_participantSummary sr_componentSummary ps_total ps_active ps_byType
                 cs_authenticationProviders cs_identityProviders cs_privacyProviders
                 cs_infrastructureProviders cs_walletProviders cs_trustRegistries].
  destruct (getParticipantCountByType_sum (JsMap.values (participants fw))) as [Hsum Hkeys].
  split; [reflexivity|]. split; [reflexivity|].
  split; [apply List.filter_length_le|]. split; [exact Hkeys|].
  split; [intros t; apply getParticipantCountByType_countOf|].
  split; [exact Hsum|].
  intros Hreach. destruct (reachable_sizes fw Hreach) as (Sa & Si & Sp & Sn & Sw & St).
  cbn zeta in *. unfold Framework.getParticipants in *.
  split; [exact Sa|]. split; [exact Si|]. split; [exact Sp|]. split; [exact Sn|].
  split; [exact Sw|]. split; [exact St|].
  rewrite Sn, Sp. apply infrastructure_le_privacy.
Qed.

Lemma generateStatusReport_counts_witness :
  let p := Sample.participant "P1" ParticipantType.ISSUER AssuranceLevel.LOA3 in
  let report := fst (Ecosystem.generateStatusReport (Sample.frozen Sample.t1)
                       (Sample.frameworkWith p) 0%nat) in
  Framework.reachable (Sample.frameworkWith p)
  /\ cs_infrastructureProviders (sr_componentSummary report) = 1%nat.
Proof.
  cbn zeta.
  assert (Hreach : Framework.reachable
                     (Sample.frameworkWith
                        (Sample.participant "P1" ParticipantType.ISSUER AssuranceLevel.LOA3))).
  { apply Framework.reach_registerParticipant. exact (Framework.reach_new "FW-1" None). }
  split; [exact Hreach|].
  destruct (generateStatusReport_counts (Sample.frozen Sample.t1)
              (Sample.frameworkWith
                 (Sample.participant "P1" ParticipantType.ISSUER AssuranceLevel.LOA3))
              0%nat) as (_ & _ & _ & _ & _ & _ & Hsizes).
  destruct (Hsizes Hreach) as (_ & _ & _ & Hinfra & _).
  rewrite Hinfra. reflexivity.
Defined.

(** * Properties of the digital wallet *)

(** ** The steps of the wallet operations *)

Lemma truthy_true (s : string) : truthy s = true <-> s <> "".
Proof.
  unfold truthy. destruct (String.eqb_spec s ""); cbn; split; congruence.
Qed.

Lemma truthy_false (s : string) : truthy s = false <-> s = "".
Proof.
  unfold truthy. destruct (String.eqb_spec s ""); cbn; split; congruence.
Qed.

Lemma logWalletActivity_run clock random w operation credentialId result details k :
  DigitalWallet.logWalletActivity clock random w operation credentialId result details k
  = (DigitalWallet.set_activityLog w
       (DigitalWallet.activityLog w ++
          [{| wa_activityId := "ACT-" +:+ pretty (clock k) +:+ "-" +:+ random (S k);
              wa_operation := operation;
              wa_credentialId := credentialId;
              wa_timestamp := clock (S (S k));
              wa_result := result;
              wa_details := details |}]),
     S (S (S (S k)))).
Proof. reflexivity. Qed.

Lemma verifyCredentialProof_success clock c k :
  success (fst (DigitalWallet.verifyCredentialProof clock c k)) = true
  <-> WalletSpec.wellProved c.
Proof.
  unfold DigitalWallet.verifyCredentialProof, WalletSpec.wellProved.
  rewrite <- !truthy_true.
  destruct (truthy (cp_signature (dc_proof c))),
           (truthy (cp_verificationMethod (dc_proof c))); cbn;
    split; try tauto; try discriminate; intros [? ?]; discriminate.
Qed.

Lemma verifyCredentialProof_failure clock c k :
  success (fst (DigitalWallet.verifyCredentialProof clock c k)) = false ->
  message (fst (DigitalWallet.verifyCredentialProof clock c k)) = "Invalid credential proof"
  /\ data (fst (DigitalWallet.verifyCredentialProof clock c k)) = None.
Proof.
  unfold DigitalWallet.verifyCredentialProof.
  destruct (_ || _); cbn; [auto | discriminate].
Qed.

(** ** The lock *)

(** X22. A locked wallet, such as a newly constructed one, refuses to
    store, to retrieve and to present: each of the three operations
    fails with the message "Wallet is locked", returns no data, and
    leaves the wallet as it was, its activity log included. *)
Theorem locked_wallet_rejects clock random w credential credentialId credentialIds k :
  DigitalWallet.isLocked w = true ->
  Forall (fun out : DigitalWallet.Result * DigitalWallet.t =>
            success (fst out) = false
            /\ message (fst out) = "Wallet is locked"
            /\ data (fst out) = None
            /\ snd out = w)
    [ fst (DigitalWallet.storeCredential clock random w credential k);
      fst (DigitalWallet.retrieveCredential clock random w credentialId k);
      fst (DigitalWallet.presentCredentials clock random w credentialIds k) ].
Proof.
  intros Hlocked.
  unfold DigitalWallet.storeCredential, DigitalWallet.retrieveCredential,
    DigitalWallet.presentCredentials.
  rewrite Hlocked. repeat constructor.
Qed.

Lemma locked_wallet_rejects_witness :
  Forall (fun out : DigitalWallet.Result * DigitalWallet.t =>
            success (fst out) = false
            /\ message (fst out) = "Wallet is locked"
            /\ data (fst out) = None
            /\ snd out = WalletSample.locked)
    [ fst (DigitalWallet.storeCredential (Sample.frozen Sample.t0) WalletSample.noDraw
             WalletSample.locked
             (WalletSample.credential "CRED-1" CredentialStatus.ACTIVE None) 0%nat);
      fst (DigitalWallet.retrieveCredential (Sample.frozen Sample.t0) WalletSample.noDraw
             WalletSample.locked "CRED-1" 0%nat);
      fst (DigitalWallet.presentCredentials (Sample.frozen Sample.t0) WalletSample.noDraw
             WalletSample.locked ["CRED-1"] 0%nat) ].
Proof.
  apply locked_wallet_rejects. reflexivity.
Defined.

(** X23. [unlockWallet] succeeds exactly when the proof is an object
    with a non-empty type and a non-empty value.  A success unlocks the
    wallet and a failure leaves the lock as it was, so a failed attempt
    does not lock an unlocked wallet.  The credentials are never touched.
    A missing proof leaves the whole wallet unchanged; any other attempt
    adds one activity to the log, under the operation
    RETRIEVE_CREDENTIAL and without a credential identifier, that
    records the outcome.  Its time stamp is the second reading of the
    clock in the call, the [new Date()] that [logWalletActivity]
    evaluates after [Date.now()] and [Math.random()]; the draw takes an
    index of the effect sequence as well, so for a call that starts at
    index [k] the reading is the one at index [k + 2]. *)
Theorem unlockWallet_outcome clock random w proof k :
  let out := fst (DigitalWallet.unlockWallet clock random w proof k) in
  (success (fst out) = true <-> WalletSpec.unlocks proof)
  /\ DigitalWallet.isLocked (snd out)
     = (if success (fst out) then false else DigitalWallet.isLocked w)
  /\ DigitalWallet.credentials (snd out) = DigitalWallet.credentials w
  /\ (proof = None -> snd out = w)
  /\ (proof <> None ->
      exists a,
        DigitalWallet.activityLog (snd out) = DigitalWallet.activityLog w ++ [a]
        /\ wa_operation a = WalletOperation.RETRIEVE_CREDENTIAL
        /\ wa_credentialId a = None
        /\ wa_result a = (if success (fst out) then ActivityResult.SUCCESS
                          else ActivityResult.FAILURE)
        /\ wa_timestamp a = clock (S (S k))).
Proof.
  unfold DigitalWallet.unlockWallet, WalletSpec.unlocks.
  destruct proof as [p|]; cbn [DigitalWallet.validateInput negb].
  - cbn [DigitalWallet.validateAuthentication].
    destruct (truthy (ap_type p)) eqn:Ht, (truthy (ap_value p)) eqn:Hv;
      cbn [andb negb]; rewrite bind_run, logWalletActivity_run; cbn;
      (split; [|split; [reflexivity|split; [reflexivity|split; [discriminate|]]]]).
    1: { split; [|reflexivity]. intros _. exists p.
         apply truthy_true in Ht, Hv. auto. }
    2, 4, 6: (split; [discriminate|]; intros (q & Hq & Hqt & Hqv);
              injection Hq as <-; apply truthy_true in Hqt, Hqv; congruence).
    all: intros _; eexists; split; [reflexivity|]; cbn; auto.
  - cbn. split; [|auto].
    + split; [discriminate|]. intros (q & Hq & _). discriminate.
    + repeat split; congruence.
Qed.

(** ** Storing and retrieving *)

(** X24. On an unlocked wallet [storeCredential] succeeds exactly when
    the credential's proof has a signature and a verification method.  A
    success puts the credential into the map under its own identifier,
    replacing a credential stored under it before; a failure has the
    message "Invalid credential proof" and leaves the map as it was.
    Either way the lock and the other fields stay, and exactly one
    STORE_CREDENTIAL activity with the credential's identifier and the
    outcome is appended to the log. *)
Theorem storeCredential_outcome clock random w c k :
  DigitalWallet.isLocked w = false ->
  let out := fst (DigitalWallet.storeCredential clock random w c k) in
  (success (fst out) = true <-> WalletSpec.wellProved c)
  /\ (success (fst out) = false -> message (fst out) = "Invalid credential proof")
  /\ DigitalWallet.credentials (snd out)
     = (if success (fst out)
        then JsMap.set (DigitalWallet.credentials w) (dc_credentialId c) c
        else DigitalWallet.credentials w)
  /\ DigitalWallet.provider (snd out) = DigitalWallet.provider w
  /\ exists a,
       DigitalWallet.activityLog (snd out) = DigitalWallet.activityLog w ++ [a]
       /\ wa_operation a = WalletOperation.STORE_CREDENTIAL
       /\ wa_credentialId a = Some (dc_credentialId c)
       /\ wa_result a = (if success (fst out) then ActivityResult.SUCCESS
                         else ActivityResult.FAILURE).
Proof.
  intros Hunlocked. unfold DigitalWallet.storeCredential.
  rewrite Hunlocked. cbn [DigitalWallet.validateInput negb].
  rewrite bind_run.
  pose proof (verifyCredentialProof_success clock c k) as Hiff.
  pose proof (verifyCredentialProof_failure clock c k) as Hfail.
  destruct (DigitalWallet.verifyCredentialProof clock c k) as [pv k1].
  cbn [fst snd] in *.
  destruct (success pv) eqn:Hs; cbn [negb];
    rewrite bind_run, logWalletActivity_run; cbn [fst snd].
  - cbn. split; [tauto|]. split; [discriminate|].
    split; [reflexivity|]. split; [reflexivity|].
    eexists. split; [reflexivity|]. cbn. auto.
  - cbn. rewrite Hs. split; [exact Hiff|]. split; [intros _; apply Hfail; reflexivity|].
    split; [reflexivity|]. split; [reflexivity|].
    eexists. split; [reflexivity|]. cbn. auto.
Qed.

Lemma storeCredential_outcome_witness :
  DigitalWallet.isLocked WalletSample.unlocked = false
  /\ DigitalWallet.credentials
       (WalletSample.holding (WalletSample.credential "CRED-1" CredentialStatus.ACTIVE None))
     = [("CRED-1", WalletSample.credential "CRED-1" CredentialStatus.ACTIVE None)].
Proof.
  split; [reflexivity|].
  pose proof (storeCredential_outcome (Sample.frozen Sample.t0) WalletSample.noDraw
                WalletSample.unlocked
                (WalletSample.credential "CRED-1" CredentialStatus.ACTIVE None) 0%nat
                eq_refl) as (_ & _ & Hcreds & _).
  exact Hcreds.
Defined.

Lemma retrieveCredential_run clock random w credentialId k :
  DigitalWallet.isLocked w = false ->
  let out := fst (DigitalWallet.retrieveCredential clock random w credentialId k) in
  success (fst out) = WalletSpec.available w credentialId
  /\ data (fst out)
     = (if WalletSpec.available w credentialId
        then option_map RetrievedData (JsMap.get (DigitalWallet.credentials w) credentialId)
        else None)
  /\ message (fst out)
     = match JsMap.get (DigitalWallet.credentials w) credentialId with
       | None => "Credential not found"
       | Some c =>
           if bool_decide (dc_status c = CredentialStatus.ACTIVE)
           then "Credential retrieved successfully"
           else "Credential is " +:+ CredentialStatus.toLowerCase (dc_status c)
       end
  /\ DigitalWallet.credentials (snd out) = DigitalWallet.credentials w
  /\ DigitalWallet.provider (snd out) = DigitalWallet.provider w
  /\ exists a,
       DigitalWallet.activityLog (snd out) = DigitalWallet.activityLog w ++ [a]
       /\ wa_operation a = WalletOperation.RETRIEVE_CREDENTIAL
       /\ wa_credentialId a = Some credentialId
       /\ wa_result a = (if WalletSpec.available w credentialId
                         then ActivityResult.SUCCESS else ActivityResult.FAILURE).
Proof.
  intros Hunlocked. unfold DigitalWallet.retrieveCredential, WalletSpec.available.
  rewrite Hunlocked.
  destruct (JsMap.get (DigitalWallet.credentials w) credentialId) as [c|].
  - destruct (bool_decide (dc_status c = CredentialStatus.ACTIVE)); cbn [negb];
      rewrite bind_run, logWalletActivity_run; cbn;
      repeat (split; [reflexivity|]);
      eexists; (split; [reflexivity|]); cbn; auto.
  - rewrite bind_run, logWalletActivity_run; cbn.
    repeat (split; [reflexivity|]).
    eexists. split; [reflexivity|]. cbn. auto.
Qed.

(** X25. On an unlocked wallet [retrieveCredential] succeeds exactly
    when a credential is stored under the identifier and its status is
    ACTIVE, and then returns that credential.  An unknown identifier
    gives "Credential not found", and a stored credential that is not
    ACTIVE gives "Credential is" followed by its status in lower case,
    with no data.  Retrieval never changes the credentials, and every
    attempt appends one RETRIEVE_CREDENTIAL activity with the identifier
    and the outcome. *)
Theorem retrieveCredential_outcome clock random w credentialId k :
  DigitalWallet.isLocked w = false ->
  let out := fst (DigitalWallet.retrieveCredential clock random w credentialId k) in
  success (fst out) = WalletSpec.available w credentialId
  /\ (forall c, data (fst out) = Some (RetrievedData c)
                <-> JsMap.get (DigitalWallet.credentials w) credentialId = Some c
                    /\ dc_status c = CredentialStatus.ACTIVE)
  /\ (success (fst out) = false -> data (fst out) = None)
  /\ (JsMap.get (DigitalWallet.credentials w) credentialId = None ->
      message (fst out) = "Credential not found")
  /\ (forall c, JsMap.get (DigitalWallet.credentials w) credentialId = Some c ->
                dc_status c <> CredentialStatus.ACTIVE ->
                message (fst out)
                = "Credential is " +:+ CredentialStatus.toLowerCase (dc_status c))
  /\ DigitalWallet.credentials (snd out) = DigitalWallet.credentials w
  /\ DigitalWallet.provider (snd out) = DigitalWallet.provider w
  /\ exists a,
       DigitalWallet.activityLog (snd out) = DigitalWallet.activityLog w ++ [a]
       /\ wa_operation a = WalletOperation.RETRIEVE_CREDENTIAL
       /\ wa_credentialId a = Some credentialId
       /\ wa_result a = (if success (fst out) then ActivityResult.SUCCESS
                         else ActivityResult.FAILURE).
Proof.
  intros Hunlocked.
  destruct (retrieveCredential_run clock random w credentialId k Hunlocked)
    as (Hs & Hd & Hm & Hc & Hp & Ha).
  cbn zeta. rewrite Hs, Hd, Hm.
  split; [reflexivity|].
  unfold WalletSpec.available in *.
  destruct (JsMap.get (DigitalWallet.credentials w) credentialId) as [c0|].
  - split.
    { intros c. case_bool_decide as Hst; cbn.
      - split; [intros [= <-]; auto | intros [[= <-] _]; reflexivity].
      - split; [discriminate | intros [[= <-] Hact]; contradiction]. }
    split; [intros ->; reflexivity|].
    split; [discriminate|].
    split.
    { intros c [= <-] Hne. rewrite bool_decide_eq_false_2 by exact Hne. reflexivity. }
    split; [exact Hc|]. split; [exact Hp|]. exact Ha.
  - split.
    { intros c. split; [discriminate | intros [[=] _]]. }
    split; [reflexivity|].
    split; [reflexivity|].
    split; [intros c [=]|].
    split; [exact Hc|]. split; [exact Hp|]. exact Ha.
Qed.

Lemma retrieveCredential_outcome_witness :
  DigitalWallet.isLocked
    (WalletSample.holding (WalletSample.credential "CRED-1" CredentialStatus.ACTIVE None))
  = false
  /\ success
       (fst (fst (DigitalWallet.retrieveCredential (Sample.frozen Sample.t0)
                    WalletSample.noDraw
                    (WalletSample.holding
                       (WalletSample.credential "CRED-1" CredentialStatus.ACTIVE None))
                    "CRED-1" 0%nat)))
     = true.
Proof.
  split; [reflexivity|].
  pose proof (retrieveCredential_outcome (Sample.frozen Sample.t0) WalletSample.noDraw
                (WalletSample.holding
                   (WalletSample.credential "CRED-1" CredentialStatus.ACTIVE None))
                "CRED-1" 0%nat eq_refl) as (Hs & _).
  exact Hs.
Defined.

(** X26. A credential stored in an unlocked wallet can be read back: the
    store succeeds when the proof has a signature and a verification
    method, the map then holds the credential under its identifier and
    every other identifier is as before, and a later
    [retrieveCredential] of the identifier, at any time, returns the
    stored credential if its status is ACTIVE and otherwise fails with
    "Credential is" and the status in lower case.  The wallet accepts a
    credential that is not ACTIVE but never hands it out. *)
Theorem storeCredential_then_retrieve clock random clock' random' w c k k' :
  DigitalWallet.isLocked w = false ->
  WalletSpec.wellProved c ->
  let out := fst (DigitalWallet.storeCredential clock random w c k) in
  let out' := fst (DigitalWallet.retrieveCredential clock' random' (snd out)
                     (dc_credentialId c) k') in
  success (fst out) = true
  /\ data (fst out) = Some (StoredData (dc_credentialId c))
  /\ JsMap.get (DigitalWallet.credentials (snd out)) (dc_credentialId c) = Some c
  /\ (forall id, id <> dc_credentialId c ->
                 JsMap.get (DigitalWallet.credentials (snd out)) id
                 = JsMap.get (DigitalWallet.credentials w) id)
  /\ (dc_status c = CredentialStatus.ACTIVE ->
      success (fst out') = true /\ data (fst out') = Some (RetrievedData c))
  /\ (dc_status c <> CredentialStatus.ACTIVE ->
      success (fst out') = false
      /\ data (fst out') = None
      /\ message (fst out')
         = "Credential is " +:+ CredentialStatus.toLowerCase (dc_status c)).
Proof.
  intros Hunlocked Hproved. cbn zeta.
  assert (Hstore :
    fst (DigitalWallet.storeCredential clock random w c k)
    = ({| success := true; message := "Credential stored successfully";
          data := Some (StoredData (dc_credentialId c)); errors := None;
          timestamp := clock (S (S (S (S (S k))))) |},
       snd (fst (DigitalWallet.storeCredential clock random w c k)))
    /\ DigitalWallet.credentials (snd (fst (DigitalWallet.storeCredential clock random w c k)))
       = JsMap.set (DigitalWallet.credentials w) (dc_credentialId c) c
    /\ DigitalWallet.isLocked (snd (fst (DigitalWallet.storeCredential clock random w c k)))
       = false).
  { unfold DigitalWallet.storeCredential. rewrite Hunlocked.
    cbn [DigitalWallet.validateInput negb]. rewrite bind_run.
    pose proof (proj2 (verifyCredentialProof_success clock c k) Hproved) as Hs.
    assert (Hk : snd (DigitalWallet.verifyCredentialProof clock c k) = S k).
    { unfold DigitalWallet.verifyCredentialProof. destruct (_ || _); reflexivity. }
    rewrite Hs, Hk. cbn [negb]. rewrite bind_run, logWalletActivity_run. cbn.
    split; [reflexivity|]. split; [reflexivity|]. exact Hunlocked. }
  destruct Hstore as (Hout & Hcreds & Hlock).
  destruct (retrieveCredential_run clock' random'
              (snd (fst (DigitalWallet.storeCredential clock random w c k)))
              (dc_credentialId c) k' Hlock) as (Hs & Hd & Hm & _).
  assert (Hget : JsMap.get
            (DigitalWallet.credentials
               (snd (fst (DigitalWallet.storeCredential clock random w c k))))
            (dc_credentialId c) = Some c).
  { rewrite Hcreds. apply get_set_eq. }
  unfold WalletSpec.available in Hs, Hd. rewrite Hget in Hs, Hd, Hm.
  split; [rewrite Hout; reflexivity|].
  split; [rewrite Hout; reflexivity|].
  split; [exact Hget|].
  split; [intros id Hne; rewrite Hcreds; apply get_set_ne; congruence|].
  split.
  - intros Hact. rewrite Hs, Hd. rewrite bool_decide_eq_true_2 by exact Hact. auto.
  - intros Hne. rewrite Hs, Hd, Hm. rewrite bool_decide_eq_false_2 by exact Hne. auto.
Qed.

Lemma storeCredential_then_retrieve_witness :
  DigitalWallet.isLocked WalletSample.unlocked = false
  /\ WalletSpec.wellProved (WalletSample.credential "CRED-1" CredentialStatus.REVOKED None)
  /\ message
       (fst (fst (DigitalWallet.retrieveCredential (Sample.frozen Sample.t1)
                    WalletSample.noDraw
                    (snd (fst (DigitalWallet.storeCredential (Sample.frozen Sample.t0)
                                 WalletSample.noDraw WalletSample.unlocked
                                 (WalletSample.credential "CRED-1" CredentialStatus.REVOKED None)
                                 0%nat)))
                    "CRED-1" 0%nat)))
     = "Credential is revoked".
Proof.
  assert (Hp : WalletSpec.wellProved
                 (WalletSample.credential "CRED-1" CredentialStatus.REVOKED None)).
  { split; discriminate. }
  split; [reflexivity|]. split; [exact Hp|].
  pose proof (storeCredential_then_retrieve (Sample.frozen Sample.t0) WalletSample.noDraw
                (Sample.frozen Sample.t1) WalletSample.noDraw WalletSample.unlocked
                (WalletSample.credential "CRED-1" CredentialStatus.REVOKED None)
                0%nat 0%nat eq_refl Hp) as (_ & _ & _ & _ & _ & Hrev).
  destruct Hrev as (_ & _ & Hm); [discriminate|]. exact Hm.
Defined.
(** ** Presentation *)

Lemma presentOne_spec w credentialId :
  match DigitalWallet.presentOne w credentialId with
  | inl c => WalletSpec.available w credentialId = true
             /\ JsMap.get (DigitalWallet.credentials w) credentialId = Some c
             /\ dc_status c = CredentialStatus.ACTIVE
  | inr _ => WalletSpec.available w credentialId = false
  end.
Proof.
  unfold DigitalWallet.presentOne, WalletSpec.available.
  destruct (JsMap.get (DigitalWallet.credentials w) credentialId) as [c|]; [|reflexivity].
  case_bool_decide as Hst; cbn; auto.
Qed.

Lemma present_errors_length w credentialIds :
  length (omap (fun o : DigitalCredential + string =>
                  match o with inl _ => None | inr e => Some e end)
            (map (DigitalWallet.presentOne w) credentialIds))
  = length (WalletSpec.offending w credentialIds).
Proof.
  unfold WalletSpec.offending.
  induction credentialIds as [|id ids IH]; [reflexivity|].
  cbn [map List.filter]. pose proof (presentOne_spec w id) as Hone.
  change (omap ?f (?x :: ?l)) with (match f x with Some y => y :: omap f l | None => omap f l end).
  destruct (DigitalWallet.presentOne w id) as [c|e].
  - destruct Hone as (-> & _). cbn. exact IH.
  - rewrite Hone. cbn. f_equal. exact IH.
Qed.

Lemma present_credentials w credentialIds :
  WalletSpec.offending w credentialIds = [] ->
  Forall2 (fun id c => JsMap.get (DigitalWallet.credentials w) id = Some c
                       /\ dc_status c = CredentialStatus.ACTIVE)
    credentialIds
    (omap (fun o : DigitalCredential + string =>
             match o with inl c => Some c | inr _ => None end)
       (map (DigitalWallet.presentOne w) credentialIds)).
Proof.
  unfold WalletSpec.offending.
  induction credentialIds as [|id ids IH]; [constructor|].
  cbn [map List.filter]. pose proof (presentOne_spec w id) as Hone.
  change (omap ?f (?x :: ?l)) with (match f x with Some y => y :: omap f l | None => omap f l end).
  destruct (DigitalWallet.presentOne w id) as [c|e].
  - destruct Hone as (-> & Hget & Hst). cbn. intros Hrest.
    constructor; [auto | apply IH, Hrest].
  - rewrite Hone. cbn. discriminate.
Qed.

(** X27. A presentation is all or nothing.  On an unlocked wallet
    [presentCredentials] succeeds exactly when every requested
    identifier names a stored credential with status ACTIVE; it then
    returns those credentials in the order of the request (an empty
    request succeeds with an empty presentation) and appends one
    PRESENT_CREDENTIAL activity whose credential identifier is the
    comma-joined request.  If some identifier cannot be presented the
    call fails without data, reports one error for each such identifier,
    and leaves the whole wallet unchanged: a failed presentation is not
    recorded in the activity log. *)
Theorem presentCredentials_all_or_nothing clock random w credentialIds k :
  DigitalWallet.isLocked w = false ->
  let out := fst (DigitalWallet.presentCredentials clock random w credentialIds k) in
  (success (fst out) = true <-> WalletSpec.offending w credentialIds = [])
  /\ DigitalWallet.credentials (snd out) = DigitalWallet.credentials w
  /\ DigitalWallet.provider (snd out) = DigitalWallet.provider w
  /\ (success (fst out) = true ->
      (exists presented presentationId,
         data (fst out) = Some (PresentationData presented presentationId)
         /\ Forall2 (fun id c => JsMap.get (DigitalWallet.credentials w) id = Some c
                                 /\ dc_status c = CredentialStatus.ACTIVE)
              credentialIds presented)
      /\ exists a,
           DigitalWallet.activityLog (snd out) = DigitalWallet.activityLog w ++ [a]
           /\ wa_operation a = WalletOperation.PRESENT_CREDENTIAL
           /\ wa_credentialId a = Some (DigitalWallet.join credentialIds)
           /\ wa_result a = ActivityResult.SUCCESS)
  /\ (success (fst out) = false ->
      data (fst out) = None
      /\ (exists errs, errors (fst out) = Some errs
                       /\ length errs = length (WalletSpec.offending w credentialIds))
      /\ snd out = w).
Proof.
  intros Hunlocked. unfold DigitalWallet.presentCredentials. rewrite Hunlocked.
  pose proof (present_errors_length w credentialIds) as Hlen.
  pose proof (present_credentials w credentialIds) as Hcreds.
  destruct (0 <? length (omap _ (map (DigitalWallet.presentOne w) credentialIds)))%nat
    eqn:Herrs.
  - apply Nat.ltb_lt in Herrs. cbn.
    split.
    { split; [discriminate|]. intros Hnil. rewrite Hlen, Hnil in Herrs. cbn in Herrs. lia. }
    split; [reflexivity|]. split; [reflexivity|]. split; [discriminate|].
    intros _. split; [reflexivity|]. split; [|reflexivity].
    eexists. split; [reflexivity|]. exact Hlen.
  - apply Nat.ltb_ge in Herrs.
    assert (Hnil : WalletSpec.offending w credentialIds = []).
    { apply length_zero_iff_nil. lia. }
    rewrite bind_run, logWalletActivity_run. cbn.
    split; [tauto|]. split; [reflexivity|]. split; [reflexivity|].
    split; [|discriminate]. intros _. split.
    + eexists _, _. split; [reflexivity|]. apply Hcreds, Hnil.
    + eexists. split; [reflexivity|]. cbn. auto.
Qed.

Lemma presentCredentials_all_or_nothing_witness :
  DigitalWallet.isLocked
    (WalletSample.holding (WalletSample.credential "CRED-1" CredentialStatus.ACTIVE None))
  = false
  /\ (success
        (fst (fst (DigitalWallet.presentCredentials (Sample.frozen Sample.t0)
                     WalletSample.noDraw
                     (WalletSample.holding
                        (WalletSample.credential "CRED-1" CredentialStatus.ACTIVE None))
                     ["CRED-1"; "CRED-2"] 0%nat))) = false ->
      snd (fst (DigitalWallet.presentCredentials (Sample.frozen Sample.t0)
                  WalletSample.noDraw
                  (WalletSample.holding
                     (WalletSample.credential "CRED-1" CredentialStatus.ACTIVE None))
                  ["CRED-1"; "CRED-2"] 0%nat))
      = WalletSample.holding (WalletSample.credential "CRED-1" CredentialStatus.ACTIVE None)).
Proof.
  split; [reflexivity|].
  pose proof (presentCredentials_all_or_nothing (Sample.frozen Sample.t0) WalletSample.noDraw
                (WalletSample.holding
                   (WalletSample.credential "CRED-1" CredentialStatus.ACTIVE None))
                ["CRED-1"; "CRED-2"] 0%nat eq_refl) as (_ & _ & _ & _ & Hfail).
  intros Hs. apply Hfail, Hs.
Defined.

(** ** The activity log in time order *)

Lemma insertByTime_Permutation a l : DigitalWallet.insertByTime a l ≡ₚ a :: l.
Proof.
  induction l as [|b l IH]; cbn; [reflexivity|].
  destruct (wa_timestamp a <? wa_timestamp b); [|reflexivity].
  rewrite IH. apply Permutation_swap.
Qed.

Lemma sortByTime_Permutation l : DigitalWallet.sortByTime l ≡ₚ l.
Proof.
  induction l as [|a l IH]; cbn; [reflexivity|].
  rewrite insertByTime_Permutation, IH. reflexivity.
Qed.

Lemma sortByTime_Forall (Q : WalletActivity -> Prop) l :
  Forall Q l -> Forall Q (DigitalWallet.sortByTime l).
Proof.
  intros H. rewrite sortByTime_Permutation. exact H.
Qed.

Lemma insertByTime_newestFirst a l :
  WalletSpec.newestFirst l -> WalletSpec.newestFirst (DigitalWallet.insertByTime a l).
Proof.
  induction l as [|b l IH]; cbn [DigitalWallet.insertByTime WalletSpec.newestFirst].
  - intros _. split; [constructor | exact I].
  - intros [Hb Hl]. destruct (Z.ltb_spec (wa_timestamp a) (wa_timestamp b)) as [Hlt|Hge];
      cbn [WalletSpec.newestFirst].
    + split; [|apply IH, Hl].
      rewrite insertByTime_Permutation. constructor; [lia | exact Hb].
    + split; [|split; assumption].
      constructor; [lia|].
      eapply Forall_impl; [exact Hb|]. cbn. intros c Hc. lia.
Qed.

Lemma sortByTime_newestFirst l : WalletSpec.newestFirst (DigitalWallet.sortByTime l).
Proof.
  induction l as [|a l IH]; cbn [DigitalWallet.sortByTime fold_right]; [exact I|].
  apply insertByTime_newestFirst, IH.
Qed.

Lemma insertByTime_stampedAt t a l :
  WalletSpec.stampedAt t (DigitalWallet.insertByTime a l) = WalletSpec.stampedAt t (a :: l).
Proof.
  unfold WalletSpec.stampedAt.
  induction l as [|b l IH]; cbn [DigitalWallet.insertByTime]; [reflexivity|].
  destruct (Z.ltb_spec (wa_timestamp a) (wa_timestamp b)) as [Hlt|Hge]; [|reflexivity].
  cbn [List.filter] in *. rewrite IH.
  destruct (Z.eqb_spec (wa_timestamp a) t) as [Ha|Ha];
    destruct (Z.eqb_spec (wa_timestamp b) t) as [Hb|Hb]; try reflexivity.
  lia.
Qed.

Lemma sortByTime_stampedAt t l :
  WalletSpec.stampedAt t (DigitalWallet.sortByTime l) = WalletSpec.stampedAt t l.
Proof.
  induction l as [|a l IH]; cbn [DigitalWallet.sortByTime fold_right]; [reflexivity|].
  rewrite insertByTime_stampedAt. unfold WalletSpec.stampedAt in *.
  cbn [List.filter]. fold (DigitalWallet.sortByTime l). rewrite IH. reflexivity.
Qed.

Lemma insertByTime_sorted a l :
  Forall (fun b => wa_timestamp b <= wa_timestamp a) l ->
  DigitalWallet.insertByTime a l = a :: l.
Proof.
  destruct l as [|b l]; cbn; [reflexivity|].
  intros Hall. apply Forall_cons_1 in Hall as [Hb _].
  destruct (Z.ltb_spec (wa_timestamp a) (wa_timestamp b)); [lia | reflexivity].
Qed.

Lemma sortByTime_sorted l : WalletSpec.newestFirst l -> DigitalWallet.sortByTime l = l.
Proof.
  induction l as [|a l IH]; cbn [WalletSpec.newestFirst DigitalWallet.sortByTime fold_right];
    [reflexivity|].
  intros [Ha Hl]. fold (DigitalWallet.sortByTime l). rewrite IH by exact Hl.
  apply insertByTime_sorted, Ha.
Qed.

(** X28. [getActivityLog] puts the log in time order, most recent first:
    the wallet's log after the call is a permutation of the log before
    it in which no activity is followed by a more recent one, and
    activities with the same time stamp keep their order.  The sort is
    in place, so the wallet keeps the reordered log, but nothing else of
    the wallet changes, and a second call finds the log already in
    order.  Without a limit, or with the limit 0, the call returns the
    whole log; a positive limit returns that many of the most recent
    activities and a negative limit drops that many of the oldest. *)
Theorem getActivityLog_sorted w limit :
  let out := DigitalWallet.getActivityLog w limit in
  let sorted := DigitalWallet.activityLog (snd out) in
  sorted ≡ₚ DigitalWallet.activityLog w
  /\ WalletSpec.newestFirst sorted
  /\ (forall t, WalletSpec.stampedAt t sorted
                = WalletSpec.stampedAt t (DigitalWallet.activityLog w))
  /\ DigitalWallet.provider (snd out) = DigitalWallet.provider w
  /\ DigitalWallet.credentials (snd out) = DigitalWallet.credentials w
  /\ (forall limit', DigitalWallet.getActivityLog (snd out) limit'
                     = (fst (DigitalWallet.getActivityLog (snd out) limit'), snd out)
                     /\ (limit' = limit ->
                         fst (DigitalWallet.getActivityLog (snd out) limit') = fst out))
  /\ fst out = match limit with
               | None => sorted
               | Some n =>
                   if n =? 0 then sorted
                   else if 0 <? n then take (Z.to_nat n) sorted
                   else take (length sorted - Z.to_nat (- n)) sorted
               end.
Proof.
  cbn zeta. unfold DigitalWallet.getActivityLog. cbn [fst snd DigitalWallet.activityLog
    DigitalWallet.set_activityLog DigitalWallet.provider DigitalWallet.credentials].
  split; [apply sortByTime_Permutation|].
  split; [apply sortByTime_newestFirst|].
  split; [intros t; apply sortByTime_stampedAt|].
  split; [reflexivity|]. split; [reflexivity|].
  split.
  { intros limit'.
    rewrite (sortByTime_sorted (DigitalWallet.sortByTime (DigitalWallet.activityLog w)))
      by apply sortByTime_newestFirst.
    split; [reflexivity|]. intros ->. reflexivity. }
  destruct limit as [n|]; [|reflexivity].
  destruct (Z.eqb_spec n 0) as [Hz|Hnz]; [reflexivity|].
  unfold DigitalWallet.slice0.
  destruct (Z.ltb_spec n 0) as [Hneg|Hpos].
  - destruct (Z.ltb_spec 0 n); [lia|]. f_equal. lia.
  - destruct (Z.ltb_spec 0 n); [reflexivity | lia].
Qed.
(** ** What each wallet operation does to the wallet *)

Lemma validateCredential_spec clock kv j :
  let out := fst (DigitalWallet.validateCredential clock kv j) in
  fst (fst out) = fst kv
  /\ snd (fst out)
     = (if WalletSpec.expiredAt (clock j) (snd kv)
        then set_credentialStatus (snd kv) CredentialStatus.EXPIRED
        else snd kv).
Proof.
  destruct kv as [id c]. unfold DigitalWallet.validateCredential, WalletSpec.expiredAt.
  cbn [fst snd]. rewrite bind_run.
  destruct (dc_expirationDate c) as [d|]; cbn; auto.
Qed.

Lemma validateCredentials_run clock w j :
  success (fst (fst (DigitalWallet.validateCredentials clock w j))) = true
  /\ snd (fst (DigitalWallet.validateCredentials clock w j))
     = DigitalWallet.set_credentials w
         (map fst (fst (mapM (DigitalWallet.validateCredential clock)
                          (DigitalWallet.credentials w) j))).
Proof.
  unfold DigitalWallet.validateCredentials. rewrite !bind_run.
  destruct (0 <? _)%nat; cbn; auto.
Qed.

Lemma wallet_executeProcess_state clock w k :
  let w' := snd (fst (DigitalWallet.executeProcess clock w k)) in
  DigitalWallet.isLocked w' = DigitalWallet.isLocked w
  /\ DigitalWallet.securityFeatures w' = DigitalWallet.securityFeatures w
  /\ DigitalWallet.walletType w' = DigitalWallet.walletType w
  /\ DigitalWallet.assuranceLevel w' = DigitalWallet.assuranceLevel w
  /\ DigitalWallet.activityLog w' = DigitalWallet.activityLog w
  /\ Forall2 (fun kv kv' =>
                fst kv' = fst kv
                /\ (snd kv' = snd kv
                    \/ snd kv' = set_credentialStatus (snd kv) CredentialStatus.EXPIRED))
       (DigitalWallet.credentials w) (DigitalWallet.credentials w').
Proof.
  assert (Hrefl : forall l : list (string * DigitalCredential),
            Forall2 (fun kv kv' =>
                       fst kv' = fst kv
                       /\ (snd kv' = snd kv
                           \/ snd kv' = set_credentialStatus (snd kv) CredentialStatus.EXPIRED))
              l l).
  { induction l; constructor; auto. }
  unfold DigitalWallet.executeProcess. rewrite !bind_run.
  destruct (success (fst (DigitalWallet.validateSecurity clock _ _))); cbn [negb].
  - rewrite bind_run.
    match goal with
    | |- context [DigitalWallet.validateCredentials clock ?w1 ?j] =>
        destruct (validateCredentials_run clock w1 j) as [Hs Hw];
        destruct (DigitalWallet.validateCredentials clock w1 j) as [[cv w2] j2]
    end.
    cbn [fst snd] in *. rewrite Hs. cbn [negb]. subst w2. cbn.
    repeat (split; [reflexivity|]).
    apply Forall2_fmap_r. apply mapM_Forall2.
    intros kv j. destruct (validateCredential_spec clock kv j) as [Hk Hv].
    cbn. split; [exact Hk|]. rewrite Hv. destruct (WalletSpec.expiredAt _ _); auto.
  - cbn. repeat (split; [reflexivity|]). apply Hrefl.
Qed.

Lemma unlockWallet_state clock random w proof k :
  let w' := snd (fst (DigitalWallet.unlockWallet clock random w proof k)) in
  DigitalWallet.credentials w' = DigitalWallet.credentials w
  /\ DigitalWallet.securityFeatures w' = DigitalWallet.securityFeatures w
  /\ DigitalWallet.walletType w' = DigitalWallet.walletType w
  /\ (w' = w
      \/ (DigitalWallet.isLocked w' = DigitalWallet.isLocked w
          /\ exists a, DigitalWallet.activityLog w' = DigitalWallet.activityLog w ++ [a]
                       /\ WalletSpec.failedUnlock a)
      \/ DigitalWallet.isLocked w' = false).
Proof.
  unfold DigitalWallet.unlockWallet.
  destruct (negb (DigitalWallet.validateInput proof)); [cbn; auto|].
  destruct (negb (DigitalWallet.validateAuthentication proof));
    rewrite bind_run, logWalletActivity_run; cbn.
  - repeat (split; [reflexivity|]). right. left. split; [reflexivity|].
    eexists. split; [reflexivity|]. repeat split.
  - repeat (split; [reflexivity|]). right. right. reflexivity.
Qed.

Lemma storeCredential_state clock random w c k :
  let w' := snd (fst (DigitalWallet.storeCredential clock random w c k)) in
  w' = w
  \/ (DigitalWallet.isLocked w = false
      /\ DigitalWallet.provider w' = DigitalWallet.provider w
      /\ (DigitalWallet.credentials w' = DigitalWallet.credentials w
          \/ (WalletSpec.wellProved c
              /\ DigitalWallet.credentials w'
                 = JsMap.set (DigitalWallet.credentials w) (dc_credentialId c) c))).
Proof.
  unfold DigitalWallet.storeCredential.
  destruct (DigitalWallet.isLocked w) eqn:Hlock; [cbn; auto|].
  cbn [DigitalWallet.validateInput negb]. rewrite bind_run.
  pose proof (verifyCredentialProof_success clock c k) as Hiff.
  destruct (success (fst (DigitalWallet.verifyCredentialProof clock c k))); cbn [negb];
    rewrite bind_run, logWalletActivity_run; cbn; right.
  - split; [reflexivity|]. split; [reflexivity|]. right. split; [tauto | reflexivity].
  - split; [reflexivity|]. split; [reflexivity|]. left. reflexivity.
Qed.

Lemma retrieveCredential_state clock random w credentialId k :
  let w' := snd (fst (DigitalWallet.retrieveCredential clock random w credentialId k)) in
  w' = w
  \/ (DigitalWallet.isLocked w = false
      /\ DigitalWallet.provider w' = DigitalWallet.provider w
      /\ DigitalWallet.credentials w' = DigitalWallet.credentials w).
Proof.
  destruct (DigitalWallet.isLocked w) eqn:Hlock.
  - left. unfold DigitalWallet.retrieveCredential. rewrite Hlock. reflexivity.
  - right. destruct (retrieveCredential_run clock random w credentialId k Hlock)
      as (_ & _ & _ & Hc & Hp & _). auto.
Qed.

Lemma presentCredentials_state clock random w credentialIds k :
  let w' := snd (fst (DigitalWallet.presentCredentials clock random w credentialIds k)) in
  w' = w
  \/ (DigitalWallet.isLocked w = false
      /\ DigitalWallet.provider w' = DigitalWallet.provider w
      /\ DigitalWallet.credentials w' = DigitalWallet.credentials w).
Proof.
  unfold DigitalWallet.presentCredentials.
  destruct (DigitalWallet.isLocked w) eqn:Hlock; [cbn; auto|].
  destruct (0 <? _)%nat; [cbn; auto|].
  rewrite bind_run, logWalletActivity_run. cbn. right. auto.
Qed.

(** ** Invariants of the reachable wallets *)

Lemma checked_wellKeyed (l l' : list (string * DigitalCredential)) :
  Forall2 (fun kv kv' =>
             fst kv' = fst kv
             /\ (snd kv' = snd kv
                 \/ snd kv' = set_credentialStatus (snd kv) CredentialStatus.EXPIRED)) l l' ->
  (Forall (fun kv => fst kv = dc_credentialId (snd kv)) l ->
   Forall (fun kv => fst kv = dc_credentialId (snd kv)) l')
  /\ (Forall (fun kv => WalletSpec.wellProved (snd kv)) l ->
      Forall (fun kv => WalletSpec.wellProved (snd kv)) l')
  /\ map fst l' = map fst l.
Proof.
  induction 1 as [|kv kv' l l' [Hk Hv] Hrest (IH1 & IH2 & IH3)].
  - repeat split; constructor.
  - split; [|split].
    + intros Hall. apply Forall_cons_1 in Hall as [Hx Hl].
      constructor; [|apply IH1, Hl]. rewrite Hk, Hx. destruct Hv as [->| ->]; reflexivity.
    + intros Hall. apply Forall_cons_1 in Hall as [Hx Hl].
      constructor; [|apply IH2, Hl]. destruct Hv as [->| ->]; exact Hx.
    + cbn. rewrite Hk, IH3. reflexivity.
Qed.

Lemma set_Forall_at {V : Type} (Q : string * V -> Prop) (m : list (string * V)) k v :
  Forall Q m -> Q (k, v) -> Forall Q (JsMap.set m k v).
Proof.
  intros Hm Hv. induction Hm as [|[k' v'] m Hx Hm IH]; cbn.
  - constructor; [exact Hv | constructor].
  - destruct (String.eqb_spec k' k) as [->|Hne]; constructor; auto.
Qed.

Lemma reachable_securityFeatures w :
  DigitalWallet.reachable w ->
  DigitalWallet.securityFeatures w
  = DigitalWalletProvider.getDefaultSecurityFeatures (DigitalWallet.walletType w).
Proof.
  induction 1 as
    [ walletId ownerId walletType name level
    | clock w k Hw IH
    | clock random w proof k Hw IH
    | clock random w c k Hw IH
    | clock random w credentialId k Hw IH
    | clock random w credentialIds k Hw IH
    | w limit Hw IH ].
  - reflexivity.
  - destruct (wallet_executeProcess_state clock w k) as (_ & Hf & Ht & _).
    rewrite Hf, Ht. exact IH.
  - destruct (unlockWallet_state clock random w proof k) as (_ & Hf & Ht & _).
    rewrite Hf, Ht. exact IH.
  - destruct (storeCredential_state clock random w c k) as [-> | (_ & Hp & _)];
      [exact IH|].
    unfold DigitalWallet.securityFeatures, DigitalWallet.walletType in *.
    rewrite Hp. exact IH.
  - destruct (retrieveCredential_state clock random w credentialId k)
      as [-> | (_ & Hp & _)]; [exact IH|].
    unfold DigitalWallet.securityFeatures, DigitalWallet.walletType in *.
    rewrite Hp. exact IH.
  - destruct (presentCredentials_state clock random w credentialIds k)
      as [-> | (_ & Hp & _)]; [exact IH|].
    unfold DigitalWallet.securityFeatures, DigitalWallet.walletType in *.
    rewrite Hp. exact IH.
  - exact IH.
Qed.

(** X29. Every wallet that the operations can produce from a constructed
    wallet keeps each credential under the credential's own identifier,
    with distinct keys, and holds only credentials whose proof has a
    signature and a verification method, so the proof check of the
    credential validation never fires.  Its security features are the
    defaults of its wallet type.  While it is locked it holds no
    credential and its activity log records only failed attempts to
    unlock. *)
Theorem reachable_wallet_invariants w :
  DigitalWallet.reachable w ->
  WalletSpec.wellKeyed w
  /\ Forall (fun kv => WalletSpec.wellProved (snd kv)) (DigitalWallet.credentials w)
  /\ NoDup (map fst (DigitalWallet.credentials w))
  /\ DigitalWallet.securityFeatures w
     = DigitalWalletProvider.getDefaultSecurityFeatures (DigitalWallet.walletType w)
  /\ (DigitalWallet.isLocked w = true ->
      DigitalWallet.credentials w = []
      /\ Forall WalletSpec.failedUnlock (DigitalWallet.activityLog w)).
Proof.
  unfold WalletSpec.wellKeyed.
  induction 1 as
    [ walletId ownerId walletType name level
    | clock w k Hw (I1 & I2 & I3 & I4 & I5)
    | clock random w proof k Hw (I1 & I2 & I3 & I4 & I5)
    | clock random w c k Hw (I1 & I2 & I3 & I4 & I5)
    | clock random w credentialId k Hw (I1 & I2 & I3 & I4 & I5)
    | clock random w credentialIds k Hw (I1 & I2 & I3 & I4 & I5)
    | w limit Hw (I1 & I2 & I3 & I4 & I5) ].
  - cbn. repeat split; constructor.
  - destruct (wallet_executeProcess_state clock w k) as (Hl & Hf & Ht & _ & Hlog & Hc).
    destruct (checked_wellKeyed _ _ Hc) as (C1 & C2 & C3).
    split; [apply C1, I1|]. split; [apply C2, I2|].
    split; [rewrite C3; exact I3|]. split; [rewrite Hf, Ht; exact I4|].
    rewrite Hl, Hlog. intros Hlocked. destruct (I5 Hlocked) as [Hnil Hfail].
    split; [|exact Hfail]. rewrite Hnil in Hc. inversion Hc. reflexivity.
  - destruct (unlockWallet_state clock random w proof k) as (Hc & Hf & Ht & Hcases).
    rewrite Hc, Hf, Ht. repeat (split; [assumption|]).
    destruct Hcases as [-> | [(Hl & a & Hlog & Ha) | Hl]].
    + exact I5.
    + rewrite Hl, Hlog. intros Hlocked. destruct (I5 Hlocked) as [Hnil Hfail].
      split; [exact Hnil|]. apply Forall_app. split; [exact Hfail|].
      constructor; [exact Ha | constructor].
    + rewrite Hl. discriminate.
  - destruct (storeCredential_state clock random w c k) as [-> | (Hl & Hp & Hcases)];
      [auto|].
    unfold DigitalWallet.securityFeatures, DigitalWallet.walletType, DigitalWallet.isLocked
      in *.
    rewrite Hp. destruct Hcases as [-> | [Hproved ->]].
    + repeat (split; [assumption|]). rewrite Hl. discriminate.
    + split; [apply set_Forall_at; [exact I1 | reflexivity]|].
      split; [apply set_Forall; [exact I2 | intros; exact Hproved]|].
      split; [apply set_keys_NoDup, I3|].
      split; [exact I4|]. rewrite Hl. discriminate.
  - destruct (retrieveCredential_state clock random w credentialId k)
      as [-> | (Hl & Hp & ->)]; [auto|].
    unfold DigitalWallet.securityFeatures, DigitalWallet.walletType, DigitalWallet.isLocked
      in *.
    rewrite Hp. repeat (split; [assumption|]). rewrite Hl. discriminate.
  - destruct (presentCredentials_state clock random w credentialIds k)
      as [-> | (Hl & Hp & ->)]; [auto|].
    unfold DigitalWallet.securityFeatures, DigitalWallet.walletType, DigitalWallet.isLocked
      in *.
    rewrite Hp. repeat (split; [assumption|]). rewrite Hl. discriminate.
  - cbn. repeat (split; [assumption|]).
    intros Hlocked. destruct (I5 Hlocked) as [Hnil Hfail].
    split; [exact Hnil|]. apply sortByTime_Forall, Hfail.
Qed.

Lemma reachable_wallet_invariants_witness :
  DigitalWallet.reachable
    (WalletSample.holding (WalletSample.credential "CRED-1" CredentialStatus.ACTIVE None))
  /\ WalletSpec.wellKeyed
       (WalletSample.holding (WalletSample.credential "CRED-1" CredentialStatus.ACTIVE None)).
Proof.
  assert (Hr : DigitalWallet.reachable
                 (WalletSample.holding
                    (WalletSample.credential "CRED-1" CredentialStatus.ACTIVE None))).
  { apply DigitalWallet.reach_storeCredential, DigitalWallet.reach_unlockWallet,
      DigitalWallet.reach_constructor. }
  split; [exact Hr|]. apply (reachable_wallet_invariants _ Hr).
Defined.
(** ** The wallet's own process *)

Lemma validateSecurity_run clock w j :
  DigitalWallet.securityFeatures w
  = DigitalWalletProvider.getDefaultSecurityFeatures (DigitalWallet.walletType w) ->
  DigitalWallet.validateSecurity clock w j
  = (if WalletSpec.insecure w
     then {| success := false; message := "Security validation failed";
             data := None;
             errors := Some ["High assurance levels require multi-factor or biometric authentication"];
             timestamp := clock j |}
     else {| success := true; message := "Security validation passed";
             data := None; errors := None; timestamp := clock j |},
     S j).
Proof.
  intros Hfeat. unfold DigitalWallet.validateSecurity, WalletSpec.insecure.
  rewrite Hfeat.
  destruct (DigitalWallet.walletType w), (DigitalWallet.assuranceLevel w); reflexivity.
Qed.

Lemma validateCredential_standing clock now l j :
  (forall i, clock i = now) ->
  map fst (fst (mapM (DigitalWallet.validateCredential clock) l j))
  = map (fun kv => (fst kv, WalletSpec.checkedAt now (snd kv))) l.
Proof.
  intros Hclock. revert j.
  induction l as [|kv l IH]; intros j; cbn [mapM map]; [reflexivity|].
  rewrite !bind_run. cbn [ret fst snd map]. rewrite IH. f_equal.
  destruct (validateCredential_spec clock kv j) as [Hk Hv].
  unfold WalletSpec.checkedAt. rewrite <- (Hclock j).
  destruct (fst (DigitalWallet.validateCredential clock kv j)) as [[id c] issues].
  cbn [fst snd] in *. congruence.
Qed.

Lemma checked_active now (l : list (string * DigitalCredential)) :
  List.filter (fun cred => bool_decide (dc_status cred = CredentialStatus.ACTIVE))
    (map snd (map (fun kv => (fst kv, WalletSpec.checkedAt now (snd kv))) l))
  = List.filter (fun c => negb (WalletSpec.expiredAt now c))
      (List.filter (fun cred => bool_decide (dc_status cred = CredentialStatus.ACTIVE))
         (map snd l)).
Proof.
  induction l as [|[id c] l IH]; [reflexivity|].
  cbn [map fst snd List.filter]. rewrite IH.
  assert (Hc : dc_status (WalletSpec.checkedAt now c) = CredentialStatus.ACTIVE
               <-> dc_status c = CredentialStatus.ACTIVE
                   /\ WalletSpec.expiredAt now c = false).
  { unfold WalletSpec.checkedAt. destruct (WalletSpec.expiredAt now c); cbn.
    - split; [discriminate | intros [_ ?]; discriminate].
    - tauto. }
  assert (Hsame : WalletSpec.expiredAt now c = false -> WalletSpec.checkedAt now c = c).
  { unfold WalletSpec.checkedAt. intros ->. reflexivity. }
  destruct (decide (dc_status c = CredentialStatus.ACTIVE)) as [Hact|Hact].
  - rewrite (bool_decide_eq_true_2 _ Hact). cbn [List.filter].
    destruct (WalletSpec.expiredAt now c) eqn:Hexp; cbn [negb].
    + rewrite bool_decide_eq_false_2; [reflexivity|].
      intros Hst. apply Hc in Hst as [_ ?]. discriminate.
    + rewrite bool_decide_eq_true_2 by (apply Hc; auto).
      rewrite Hsame by reflexivity. reflexivity.
  - rewrite (bool_decide_eq_false_2 _ Hact).
    rewrite bool_decide_eq_false_2; [reflexivity|].
    intros Hst. apply Hc in Hst as [? _]. contradiction.
Qed.

(** X30. [executeProcess] of a wallet that the operations can produce
    fails exactly for a HARDWARE wallet at LOA3 or LOA4, whose default
    features have neither multi-factor nor biometric authentication; it
    then reports that single issue, ends in status FAILED and leaves the
    credentials alone.  Every other wallet passes and ends in status
    COMPLETED whatever its credentials are: with the clock standing at
    [now], each credential whose expiration date is before [now] gets
    the status EXPIRED, whatever its status was, the others are kept,
    the result counts the stored credentials, and [getAllCredentials]
    afterwards returns the credentials it returned before except those
    expired at [now].  The lock and the activity log are never touched. *)
Theorem wallet_executeProcess_outcome clock now w k :
  DigitalWallet.reachable w ->
  (forall i, clock i = now) ->
  let out := fst (DigitalWallet.executeProcess clock w k) in
  success (fst out) = negb (WalletSpec.insecure w)
  /\ DigitalWallet.status (snd out)
     = (if WalletSpec.insecure w then ProcessStatus.FAILED else ProcessStatus.COMPLETED)
  /\ DigitalWallet.isLocked (snd out) = DigitalWallet.isLocked w
  /\ DigitalWallet.activityLog (snd out) = DigitalWallet.activityLog w
  /\ (WalletSpec.insecure w = true ->
      DigitalWallet.credentials (snd out) = DigitalWallet.credentials w
      /\ message (fst out) = "Security validation failed"
      /\ errors (fst out)
         = Some ["High assurance levels require multi-factor or biometric authentication"])
  /\ (WalletSpec.insecure w = false ->
      DigitalWallet.credentials (snd out)
      = map (fun kv => (fst kv, WalletSpec.checkedAt now (snd kv)))
          (DigitalWallet.credentials w)
      /\ data (fst out)
         = Some (WalletSummaryData (DigitalWallet.walletId w) (DigitalWallet.walletType w)
                   (length (DigitalWallet.credentials w)) (DigitalWallet.securityFeatures w))
      /\ DigitalWallet.getAllCredentials (snd out)
         = List.filter (fun c => negb (WalletSpec.expiredAt now c))
             (DigitalWallet.getAllCredentials w)).
Proof.
  intros Hreach Hclock.
  pose proof (reachable_securityFeatures w Hreach) as Hfeat.
  cbn zeta. unfold DigitalWallet.executeProcess. rewrite !bind_run.
  rewrite validateSecurity_run by exact Hfeat.
  change (WalletSpec.insecure (DigitalWallet.set_walletStatus w ProcessStatus.IN_PROGRESS))
    with (WalletSpec.insecure w).
  destruct (WalletSpec.insecure w) eqn:Hins; cbn [fst snd success negb].
  - cbn. repeat (split; [reflexivity|]). split; [auto | discriminate].
  - rewrite bind_run.
    match goal with
    | |- context [DigitalWallet.validateCredentials clock ?w1 ?j] =>
        destruct (validateCredentials_run clock w1 j) as [Hs Hw];
        destruct (DigitalWallet.validateCredentials clock w1 j) as [[cv w2] j2]
    end.
    cbn [fst snd] in *. rewrite Hs. cbn [negb]. subst w2.
    rewrite (validateCredential_standing clock now) by exact Hclock.
    cbn. repeat (split; [reflexivity|]). split; [discriminate|]. intros _.
    split; [reflexivity|]. split.
    + unfold JsMap.size. rewrite !length_map. reflexivity.
    + unfold DigitalWallet.getAllCredentials, JsMap.values. cbn.
      apply checked_active.
Qed.

Lemma wallet_executeProcess_outcome_witness :
  DigitalWallet.reachable
    (WalletSample.holding
       (WalletSample.credential "CRED-1" CredentialStatus.ACTIVE (Some Sample.t0)))
  /\ (forall i, Sample.frozen Sample.t1 i = Sample.t1)
  /\ DigitalWallet.getAllCredentials
       (snd (fst (DigitalWallet.executeProcess (Sample.frozen Sample.t1)
                    (WalletSample.holding
                       (WalletSample.credential "CRED-1" CredentialStatus.ACTIVE
                          (Some Sample.t0))) 0%nat)))
     = [].
Proof.
  assert (Hr : DigitalWallet.reachable
                 (WalletSample.holding
                    (WalletSample.credential "CRED-1" CredentialStatus.ACTIVE
                       (Some Sample.t0)))).
  { apply DigitalWallet.reach_storeCredential, DigitalWallet.reach_unlockWallet,
      DigitalWallet.reach_constructor. }
  split; [exact Hr|]. split; [reflexivity|].
  pose proof (wallet_executeProcess_outcome (Sample.frozen Sample.t1) Sample.t1 _ 0%nat Hr
                (fun _ => eq_refl)) as (_ & _ & _ & _ & _ & Hok).
  destruct (Hok eq_refl) as (_ & _ & Hall). rewrite Hall. reflexivity.
Defined.
